(** * Ollama chat relay and client stream assembler

    A shallow embedding of the three pieces of the repository:

    - [Relay.GET]  : src/routes/api/ollama/tags/+server.ts
    - [Relay.POST] : src/routes/api/ollama/chat/+server.ts
    - [Page.handleSubmit] : the Svelte page that reads the NDJSON stream
    - [Mount.onMount] : the same page loading the list of models

    The handlers are written over a small model of the JavaScript
    platform they run on ([JS]): strings as sequences of UTF-16 code
    units, JSON values, [JSON.parse], [String.prototype.trim],
    [String.prototype.split] and the streaming UTF-8 [TextDecoder]. *)

From Stdlib Require Import List NArith ZArith Bool Lia.
From Stdlib Require Import Strings.Ascii Strings.String Strings.Byte DecimalString.
Import ListNotations.

Set Warnings "-register-all".

Local Open Scope N_scope.

(* ================================================================== *)
(** * The JavaScript platform *)
(* ================================================================== *)

Module JS.

(** A JavaScript string is a sequence of UTF-16 code units. *)
Definition jsstring := list N.

(** ASCII text of the source file as a JavaScript string. *)
Definition js (s : string) : jsstring :=
  List.map N_of_ascii (list_ascii_of_string s).

(** The same, with every apostrophe standing for a double quote, so that
    JSON text can be written down in examples. *)
Definition jsq (s : string) : jsstring :=
  List.map (fun c => if c =? 39 then 34 else c) (js s).

Fixpoint jsstring_eqb (a b : jsstring) : bool :=
  match a, b with
  | [], [] => true
  | x :: a', y :: b' => (x =? y) && jsstring_eqb a' b'
  | _, _ => false
  end.

(** Decimal rendering of a non-negative integer (what a template literal
    gives for an integral Number below 10^21). *)
Definition N_toString (n : N) : jsstring :=
  js (NilZero.string_of_uint (N.to_uint n)).

(** ** White space, [trim] and [split] *)

(** WhiteSpace and LineTerminator code points of ECMAScript: the
    characters removed by [String.prototype.trim]. *)
Definition is_whitespace (c : N) : bool :=
  ((9 <=? c) && (c <=? 13)) || (c =? 32) || (c =? 160) || (c =? 5760)
  || ((8192 <=? c) && (c <=? 8202)) || (c =? 8232) || (c =? 8233)
  || (c =? 8239) || (c =? 8287) || (c =? 12288) || (c =? 65279).

Fixpoint trimStart (s : jsstring) : jsstring :=
  match s with
  | c :: r => if is_whitespace c then trimStart r else s
  | [] => []
  end.

Definition trim (s : jsstring) : jsstring :=
  rev (trimStart (rev (trimStart s))).

(** [s.split('\n')]: the pieces between line feeds; never empty. *)
Fixpoint split_lf (s : jsstring) : list jsstring :=
  match s with
  | [] => [[]]
  | c :: r =>
      if c =? 10 then [] :: split_lf r
      else match split_lf r with
           | h :: t => (c :: h) :: t
           | [] => [[c]]
           end
  end.

(** ** JSON values *)

(** A numeric token, kept as the exact decimal it denotes:
    (-1)^neg * mant * 10^exp10. *)
Record decimal := { d_neg : bool; d_mant : N; d_exp10 : Z }.

Inductive JSValue :=
| JNull
| JBool (b : bool)
| JNum (d : decimal)
| JStr (s : jsstring)
| JArr (l : list JSValue)
| JObj (props : list (jsstring * JSValue)).

(** The Number a numeric token denotes is its value rounded to binary64,
    ties to even.  That Number is zero exactly when the decimal is at
    most 2^-1075, half the smallest subnormal. *)
Definition decimal_is_zero (d : decimal) : bool :=
  (d_mant d =? 0)
  || ((d_exp10 d <? 0)%Z
      && (d_mant d * 2 ^ 1075 <=? 10 ^ Z.to_N (- d_exp10 d))).

(** ToBoolean on the values [JSON.parse] can produce; [None] stands for
    [undefined]. *)
Definition truthy (v : JSValue) : bool :=
  match v with
  | JNull => false
  | JBool b => b
  | JNum d => negb (decimal_is_zero d)
  | JStr s => match s with [] => false | _ => true end
  | JArr _ => true
  | JObj _ => true
  end.

Definition truthy_opt (o : option JSValue) : bool :=
  match o with Some v => truthy v | None => false end.

(** Own property of a parsed object.  A key written twice holds the
    value written last. *)
Fixpoint lookup (k : jsstring) (props : list (jsstring * JSValue))
  : option JSValue :=
  match props with
  | [] => None
  | (k', v) :: r =>
      match lookup k r with
      | Some w => Some w
      | None => if jsstring_eqb k k' then Some v else None
      end
  end.

(** ** [JSON.parse] *)

Definition is_json_ws (c : N) : bool :=
  (c =? 32) || (c =? 9) || (c =? 10) || (c =? 13).

Fixpoint skip_ws (s : jsstring) : jsstring :=
  match s with
  | c :: r => if is_json_ws c then skip_ws r else s
  | [] => []
  end.

Fixpoint strip_prefix (p s : jsstring) : option jsstring :=
  match p, s with
  | [], _ => Some s
  | a :: p', b :: s' => if a =? b then strip_prefix p' s' else None
  | _ :: _, [] => None
  end.

Definition hex_val (c : N) : option N :=
  if (48 <=? c) && (c <=? 57) then Some (c - 48)
  else if (97 <=? c) && (c <=? 102) then Some (c - 87)
  else if (65 <=? c) && (c <=? 70) then Some (c - 55)
  else None.

Definition hex4 (a b c d : N) : option N :=
  match hex_val a, hex_val b, hex_val c, hex_val d with
  | Some x, Some y, Some z, Some w => Some (((x * 16 + y) * 16 + z) * 16 + w)
  | _, _, _, _ => None
  end.

(** The character after a backslash, other than [u]. *)
Definition simple_escape (c : N) : option N :=
  if c =? 34 then Some 34          (* quotation mark *)
  else if c =? 92 then Some 92     (* reverse solidus *)
  else if c =? 47 then Some 47     (* solidus *)
  else if c =? 98 then Some 8      (* b: backspace *)
  else if c =? 102 then Some 12    (* f: form feed *)
  else if c =? 110 then Some 10    (* n: line feed *)
  else if c =? 114 then Some 13    (* r: carriage return *)
  else if c =? 116 then Some 9     (* t: tab *)
  else None.

Definition cons_char (c : N) (r : option (jsstring * jsstring))
  : option (jsstring * jsstring) :=
  match r with
  | Some (s, rest) => Some (c :: s, rest)
  | None => None
  end.

(** The characters of a string token after its opening quote, up to and
    including the closing quote. *)
Fixpoint parse_chars (s : jsstring) : option (jsstring * jsstring) :=
  match s with
  | [] => None
  | c :: r =>
      if c =? 34 then Some ([], r)
      else if c =? 92 then
        match r with
        | [] => None
        | e :: r2 =>
            if e =? 117 then
              match r2 with
              | h1 :: h2 :: h3 :: h4 :: r3 =>
                  match hex4 h1 h2 h3 h4 with
                  | Some u => cons_char u (parse_chars r3)
                  | None => None
                  end
              | _ => None
              end
            else
              match simple_escape e with
              | Some u => cons_char u (parse_chars r2)
              | None => None
              end
        end
      else if c <? 32 then None
      else cons_char c (parse_chars r)
  end.

Definition digit_val (c : N) : option N :=
  if (48 <=? c) && (c <=? 57) then Some (c - 48) else None.

(** Reads a run of digits onto [acc]; also counts them. *)
Fixpoint read_digits (s : jsstring) (acc : N) (count : nat)
  : N * nat * jsstring :=
  match s with
  | c :: r =>
      match digit_val c with
      | Some d => read_digits r (10 * acc + d) (S count)
      | None => (acc, count, s)
      end
  | [] => (acc, count, [])
  end.

Definition parse_int_part (s : jsstring) : option (N * jsstring) :=
  match s with
  | c :: r =>
      if c =? 48 then Some (0, r)
      else if (49 <=? c) && (c <=? 57) then
        let '(m, _, r') := read_digits s 0 0 in Some (m, r')
      else None
  | [] => None
  end.

Definition parse_frac (m : N) (s : jsstring) : option (N * nat * jsstring) :=
  match s with
  | c :: r =>
      if c =? 46 then
        let '(m', k, r') := read_digits r m 0 in
        match k with O => None | S _ => Some (m', k, r') end
      else Some (m, O, s)
  | [] => Some (m, O, [])
  end.

Definition parse_exp (s : jsstring) : option (Z * jsstring) :=
  match s with
  | c :: r =>
      if (c =? 101) || (c =? 69) then
        let '(neg, r1) :=
          match r with
          | sg :: r1 =>
              if sg =? 45 then (true, r1)
              else if sg =? 43 then (false, r1)
              else (false, r)
          | [] => (false, r)
          end in
        let '(e, k, r2) := read_digits r1 0 0 in
        match k with
        | O => None
        | S _ => Some (if neg then (- Z.of_N e)%Z else Z.of_N e, r2)
        end
      else Some (0%Z, s)
  | [] => Some (0%Z, [])
  end.

Definition parse_number (s : jsstring) : option (decimal * jsstring) :=
  let '(neg, s1) :=
    match s with
    | c :: r => if c =? 45 then (true, r) else (false, s)
    | [] => (false, s)
    end in
  match parse_int_part s1 with
  | None => None
  | Some (m, s2) =>
      match parse_frac m s2 with
      | None => None
      | Some (m', k, s3) =>
          match parse_exp s3 with
          | None => None
          | Some (e, s4) =>
              Some ({| d_neg := neg; d_mant := m';
                       d_exp10 := (e - Z.of_nat k)%Z |}, s4)
          end
      end
  end.

(** Recursive descent over the JSON grammar.  [fuel] bounds the number of
    nested calls; every call consumes input before it recurses, so
    [JSON_parse] below always supplies enough. *)
Fixpoint parse_value (fuel : nat) (s : jsstring) {struct fuel}
  : option (JSValue * jsstring) :=
  match fuel with
  | O => None
  | S fuel' =>
      match skip_ws s with
      | [] => None
      | c :: r =>
          if c =? 123 then                       (* { *)
            match skip_ws r with
            | c' :: r' =>
                if c' =? 125 then Some (JObj [], r')
                else parse_members fuel' (c' :: r') []
            | [] => None
            end
          else if c =? 91 then                   (* [ *)
            match skip_ws r with
            | c' :: r' =>
                if c' =? 93 then Some (JArr [], r')
                else parse_elements fuel' (c' :: r') []
            | [] => None
            end
          else if c =? 34 then
            match parse_chars r with
            | Some (str, r') => Some (JStr str, r')
            | None => None
            end
          else if c =? 116 then                  (* true *)
            match strip_prefix (js "rue") r with
            | Some r' => Some (JBool true, r')
            | None => None
            end
          else if c =? 102 then                  (* false *)
            match strip_prefix (js "alse") r with
            | Some r' => Some (JBool false, r')
            | None => None
            end
          else if c =? 110 then                  (* null *)
            match strip_prefix (js "ull") r with
            | Some r' => Some (JNull, r')
            | None => None
            end
          else
            match parse_number (c :: r) with
            | Some (d, r') => Some (JNum d, r')
            | None => None
            end
      end
  end

with parse_elements (fuel : nat) (s : jsstring) (acc : list JSValue)
       {struct fuel} : option (JSValue * jsstring) :=
  match fuel with
  | O => None
  | S fuel' =>
      match parse_value fuel' s with
      | None => None
      | Some (v, r) =>
          match skip_ws r with
          | c :: r' =>
              if c =? 44 then parse_elements fuel' r' (v :: acc)
              else if c =? 93 then Some (JArr (rev (v :: acc)), r')
              else None
          | [] => None
          end
      end
  end

with parse_members (fuel : nat) (s : jsstring)
       (acc : list (jsstring * JSValue)) {struct fuel}
  : option (JSValue * jsstring) :=
  match fuel with
  | O => None
  | S fuel' =>
      match skip_ws s with
      | c :: r =>
          if c =? 34 then
            match parse_chars r with
            | None => None
            | Some (k, r1) =>
                match skip_ws r1 with
                | c1 :: r2 =>
                    if c1 =? 58 then
                      match parse_value fuel' r2 with
                      | None => None
                      | Some (v, r3) =>
                          match skip_ws r3 with
                          | c3 :: r4 =>
                              if c3 =? 44 then
                                parse_members fuel' r4 ((k, v) :: acc)
                              else if c3 =? 125 then
                                Some (JObj (rev ((k, v) :: acc)), r4)
                              else None
                          | [] => None
                          end
                      end
                    else None
                | [] => None
                end
            end
          else None
      | [] => None
      end
  end.

(** [JSON.parse text]: [None] when the call throws a SyntaxError. *)
Definition JSON_parse (text : jsstring) : option JSValue :=
  match parse_value (2 * List.length text + 2) text with
  | Some (v, rest) =>
      match skip_ws rest with
      | [] => Some v
      | _ :: _ => None
      end
  | None => None
  end.

(** ** Thrown values *)

Inductive error_class :=
| PlainError | TypeError | SyntaxError | RangeError
| NotAnError.                       (* a thrown value that is no Error *)

(** What the handlers look at in a caught value: its class, the [code]
    of its [cause] when there is one, and its [message]. *)
Record js_error := {
  err_class : error_class;
  err_cause_code : option jsstring;
  err_message : jsstring
}.

Definition instanceof_Error (e : js_error) : bool :=
  match err_class e with NotAnError => false | _ => true end.

Definition instanceof_SyntaxError (e : js_error) : bool :=
  match err_class e with SyntaxError => true | _ => false end.

(** [error.cause?.code === code] *)
Definition cause_code_is (code : jsstring) (e : js_error) : bool :=
  match err_cause_code e with
  | Some c => jsstring_eqb c code
  | None => false
  end.

(** The result of an operation that may throw, or of awaiting a promise
    that may reject. *)
Inductive outcome (A : Type) :=
| Return (a : A)
| Throw (e : js_error).
Arguments Return {A} a.
Arguments Throw {A} e.

(** ** What the engine decides

    Two things are left to the JavaScript engine: the text of a Number
    (which depends on its binary64 rounding) and the wording of the
    errors the engine itself raises. *)

Inductive engine_fault :=
| BadJSON (text : jsstring)        (* JSON.parse on this text *)
| PropertyOfNull (name : jsstring) (* reading null.name *)
| StatusOutOfRange (status : Z)    (* new Response, status not in 200..599 *)
| NullBodyStatus (status : Z)      (* new Response, body with 204, 205, 304 *)
| NotPrimitive.                    (* ToString on an object that has no
                                      callable toString or valueOf *)

Record Engine := {
  Number_toString : decimal -> jsstring;
  fault_message : engine_fault -> jsstring
}.

Definition engine_error (E : Engine) (c : error_class) (f : engine_fault)
  : js_error :=
  {| err_class := c; err_cause_code := None;
     err_message := fault_message E f |}.

Fixpoint join_comma (l : list jsstring) : jsstring :=
  match l with
  | [] => []
  | [x] => x
  | x :: r => x ++ 44 :: join_comma r
  end.

(** ToString on parsed JSON values, as used by template literals, by
    [new Error(message)] and by [+=] on a string (where conversion with
    no hint ends in the same way for these values).

    An object made by [JSON.parse] inherits [toString] and [valueOf]
    from [Object.prototype] unless a property of its own hides them.
    An own [toString] is never callable, and the inherited [valueOf]
    returns the object itself, so such an object cannot be converted and
    a TypeError is thrown; without an own [toString] the inherited one
    gives [[object Object]].  An array is joined with commas, its
    elements converted in order, [null] giving the empty text. *)
Fixpoint ToString (E : Engine) (v : JSValue) : outcome jsstring :=
  match v with
  | JNull => Return (js "null")
  | JBool true => Return (js "true")
  | JBool false => Return (js "false")
  | JNum d => Return (Number_toString E d)
  | JStr s => Return s
  | JArr l =>
      match
        (fix elements (l : list JSValue) : outcome (list jsstring) :=
           match l with
           | [] => Return []
           | x :: r =>
               match
                 match x with JNull => Return [] | _ => ToString E x end
               with
               | Throw e => Throw e
               | Return t =>
                   match elements r with
                   | Throw e => Throw e
                   | Return ts => Return (t :: ts)
                   end
               end
           end) l
      with
      | Throw e => Throw e
      | Return ts => Return (join_comma ts)
      end
  | JObj props =>
      match lookup (js "toString") props with
      | Some _ => Throw (engine_error E TypeError NotPrimitive)
      | None => Return (js "[object Object]")
      end
  end.

Definition ToString_opt (E : Engine) (o : option JSValue)
  : outcome jsstring :=
  match o with
  | Some v => ToString E v
  | None => Return (js "undefined")
  end.

(** The texts of the elements of an array, as [join] makes them. *)
Fixpoint ToString_elements (E : Engine) (l : list JSValue)
  : outcome (list jsstring) :=
  match l with
  | [] => Return []
  | x :: r =>
      match match x with JNull => Return [] | _ => ToString E x end with
      | Throw e => Throw e
      | Return t =>
          match ToString_elements E r with
          | Throw e => Throw e
          | Return ts => Return (t :: ts)
          end
      end
  end.

(** The one error ToString raises on these values. *)
Definition not_primitive (E : Engine) : js_error :=
  engine_error E TypeError NotPrimitive.

(** An object literal as [JSON.stringify] sees it: a property holding
    [undefined] is left out. *)
Fixpoint object_fields (fields : list (jsstring * option JSValue))
  : list (jsstring * JSValue) :=
  match fields with
  | [] => []
  | (k, Some v) :: r => (k, v) :: object_fields r
  | (_, None) :: r => object_fields r
  end.

Definition object_literal (fields : list (jsstring * option JSValue))
  : JSValue :=
  JObj (object_fields fields).

(** [v.name] for a name that no built-in prototype defines (the handlers
    read only [model], [messages], [message], [content] and [error]):
    an own property of an object, [undefined] on any other value, and a
    TypeError on [null]. *)
Definition get_prop (E : Engine) (v : JSValue) (name : jsstring)
  : outcome (option JSValue) :=
  match v with
  | JNull => Throw (engine_error E TypeError (PropertyOfNull name))
  | JObj props => Return (lookup name props)
  | _ => Return None
  end.

Definition JSON_parse_throwing (E : Engine) (text : jsstring)
  : outcome JSValue :=
  match JSON_parse text with
  | Some v => Return v
  | None => Throw (engine_error E SyntaxError (BadJSON text))
  end.

(** ** Streaming [TextDecoder] for UTF-8

    The decoder of the Encoding standard, in replacement (non-fatal)
    mode.  [u_needed = 0] is the state between characters. *)

Record utf8_state := {
  u_cp : N; u_seen : N; u_needed : N; u_lower : N; u_upper : N
}.

Definition utf8_clean : utf8_state :=
  {| u_cp := 0; u_seen := 0; u_needed := 0; u_lower := 128; u_upper := 191 |}.

(** A byte met between characters. *)
Definition utf8_lead (b : N) : utf8_state * list N :=
  if b <=? 127 then (utf8_clean, [b])
  else if (194 <=? b) && (b <=? 223) then
    ({| u_cp := N.land b 31; u_seen := 0; u_needed := 1;
        u_lower := 128; u_upper := 191 |}, [])
  else if (224 <=? b) && (b <=? 239) then
    ({| u_cp := N.land b 15; u_seen := 0; u_needed := 2;
        u_lower := if b =? 224 then 160 else 128;
        u_upper := if b =? 237 then 159 else 191 |}, [])
  else if (240 <=? b) && (b <=? 244) then
    ({| u_cp := N.land b 7; u_seen := 0; u_needed := 3;
        u_lower := if b =? 240 then 144 else 128;
        u_upper := if b =? 244 then 143 else 191 |}, [])
  else (utf8_clean, [65533]).

(** One byte: the new state and the code points completed by it.  A byte
    that cannot continue the pending character yields U+FFFD for that
    character and is then read again as a lead byte. *)
Definition utf8_step (st : utf8_state) (b : N) : utf8_state * list N :=
  if u_needed st =? 0 then utf8_lead b
  else if negb ((u_lower st <=? b) && (b <=? u_upper st)) then
    let '(st', out) := utf8_lead b in (st', 65533 :: out)
  else
    let cp := N.lor (N.shiftl (u_cp st) 6) (N.land b 63) in
    if u_seen st + 1 =? u_needed st then (utf8_clean, [cp])
    else ({| u_cp := cp; u_seen := u_seen st + 1; u_needed := u_needed st;
             u_lower := 128; u_upper := 191 |}, []).

(** A code point as UTF-16 code units. *)
Definition utf16_units (cp : N) : jsstring :=
  if cp <? 65536 then [cp]
  else [55296 + N.shiftr (cp - 65536) 10; 56320 + N.land (cp - 65536) 1023].

Record TextDecoder := { bom_seen : bool; utf8 : utf8_state }.

(** [new TextDecoder()] *)
Definition TextDecoder_new : TextDecoder :=
  {| bom_seen := false; utf8 := utf8_clean |}.

(** Appends decoded code points to the output; the first code point of
    the whole stream is dropped when it is the byte order mark. *)
Fixpoint emit (seen : bool) (cps : list N) : bool * jsstring :=
  match cps with
  | [] => (seen, [])
  | cp :: r =>
      let '(seen', out) := emit true r in
      if negb seen && (cp =? 65279) then (seen', out)
      else (seen', utf16_units cp ++ out)
  end.

(** [decoder.decode(value, { stream: true })]: the text completed by
    these bytes and the decoder afterwards. *)
Fixpoint decode (d : TextDecoder) (value : list byte)
  : jsstring * TextDecoder :=
  match value with
  | [] => ([], d)
  | b :: r =>
      let '(st, cps) := utf8_step (utf8 d) (Byte.to_N b) in
      let '(seen, out) := emit (bom_seen d) cps in
      let '(text, d') := decode {| bom_seen := seen; utf8 := st |} r in
      (out ++ text, d')
  end.

(** How a body stream goes on after its last chunk: it closes, a read
    is rejected, or a read never settles. *)
Inductive StreamEnd :=
| Closes
| Fails (e : js_error)
| Hangs.

(** What reading a body yields: its chunks in order, then its end. *)
Record ByteStream := {
  chunks : list (list byte);
  ending : StreamEnd
}.

(** ** Effects

    Code that throws and that acts on a state [S]. *)

Definition M (S A : Type) := S -> outcome A * S.

Definition ret {S A} (a : A) : M S A := fun s => (Return a, s).

Definition throw {S A} (e : js_error) : M S A := fun s => (Throw e, s).

Definition bind {S A B} (m : M S A) (k : A -> M S B) : M S B :=
  fun s =>
    match m s with
    | (Return a, s') => k a s'
    | (Throw e, s') => (Throw e, s')
    end.

(** [try { m } catch (e) { handler e }] *)
Definition try_catch {S A} (m : M S A) (handler : js_error -> M S A) : M S A :=
  fun s =>
    match m s with
    | (Return a, s') => (Return a, s')
    | (Throw e, s') => handler e s'
    end.

(** [try { m } finally { f }] where [f] does not throw *)
Definition finally {S A} (m : M S A) (f : S -> S) : M S A :=
  fun s => let '(r, s') := m s in (r, f s').

Definition lift {S A} (r : outcome A) : M S A := fun s => (r, s).

Definition modify {S} (f : S -> S) : M S unit := fun s => (Return tt, f s).

Definition gets {S A} (f : S -> A) : M S A := fun s => (Return (f s), s).

(** ** Code that may wait for ever

    An async function that awaits a read which never settles stays
    where it is: nothing behind the [await] runs, no [catch] and no
    [finally] block either, and the state is left as it was at that
    point. *)

Inductive progress (A : Type) :=
| Settled (o : outcome A)
| Pending.
Arguments Settled {A} o.
Arguments Pending {A}.

Definition Async (S A : Type) := S -> progress A * S.

(** Code that cannot wait for ever. *)
Definition settled {S A} (m : M S A) : Async S A :=
  fun s => let '(o, s') := m s in (Settled o, s').

(** An [await] that never settles. *)
Definition pending {S A} : Async S A := fun s => (Pending, s).

Definition bind_async {S A B} (m : Async S A) (k : A -> Async S B)
  : Async S B :=
  fun s =>
    match m s with
    | (Settled (Return a), s') => k a s'
    | (Settled (Throw e), s') => (Settled (Throw e), s')
    | (Pending, s') => (Pending, s')
    end.

(** [try { m } catch (e) { handler e }] *)
Definition try_catch_async {S A} (m : Async S A)
    (handler : js_error -> Async S A) : Async S A :=
  fun s =>
    match m s with
    | (Settled (Throw e), s') => handler e s'
    | r => r
    end.

(** [try { m } finally { f }] where [f] does not throw *)
Definition finally_async {S A} (m : Async S A) (f : S -> S) : Async S A :=
  fun s =>
    match m s with
    | (Settled o, s') => (Settled o, f s')
    | (Pending, s') => (Pending, s')
    end.

End JS.

Import JS.

Declare Scope js_scope.
Delimit Scope js_scope with js.
Notation "x <- m ;; k" := (bind m (fun x => k))
  (at level 61, m at next level, right associativity) : js_scope.
Notation "m ;; k" := (bind m (fun _ => k))
  (at level 61, right associativity) : js_scope.

Declare Scope page_scope.
Delimit Scope page_scope with page.
Notation "x <- m ;; k" := (bind_async m (fun x => k))
  (at level 61, m at next level, right associativity) : page_scope.
Notation "m ;; k" := (bind_async m (fun _ => k))
  (at level 61, right associativity) : page_scope.

Open Scope js_scope.

(* ================================================================== *)
(** * The relay layer *)
(* ================================================================== *)

(** ** Fetch API objects *)

Module Kit.

(** A request made with [fetch(url, init)].  The body is kept as the
    value handed to [JSON.stringify]. *)
Record FetchRequest := {
  url : jsstring;
  method : jsstring;
  req_headers : list (jsstring * jsstring);
  req_body : option JSValue
}.

(** A response obtained from [fetch], as far as the code reads it: its
    status and content type, what [text()] resolves to, and its body
    stream. *)
Record FetchResponse := {
  up_status : Z;
  up_content_type : option jsstring;
  up_text : outcome jsstring;
  up_body : option ByteStream
}.

(** [response.ok] *)
Definition ok (status : Z) : bool := ((200 <=? status) && (status <=? 299))%Z.

(** [response.json()] *)
Definition up_json (E : Engine) (r : FetchResponse) : outcome JSValue :=
  match up_text r with
  | Return t => JSON_parse_throwing E t
  | Throw e => Throw e
  end.

(** The body of a response a handler returns: the [JSON.stringify] text
    of a value, or a readable stream (or null) handed over as it is. *)
Inductive Body :=
| JsonText (v : JSValue)
| Stream (s : option ByteStream).

Record Response := {
  status : Z;
  headers : list (jsstring * jsstring);
  body : Body
}.

Definition body_present (b : Body) : bool :=
  match b with
  | JsonText _ => true
  | Stream (Some _) => true
  | Stream None => false
  end.

Definition null_body_status (st : Z) : bool :=
  ((st =? 101) || (st =? 103) || (st =? 204) || (st =? 205) || (st =? 304))%Z.

(** [new Response(body, { status, headers })] *)
Definition Response_new (E : Engine) (b : Body) (st : Z)
    (hs : list (jsstring * jsstring)) : outcome Response :=
  if ((st <? 200) || (599 <? st))%Z then
    Throw (engine_error E RangeError (StatusOutOfRange st))
  else if body_present b && null_body_status st then
    Throw (engine_error E TypeError (NullBodyStatus st))
  else Return {| status := st; headers := hs; body := b |}.

(** [json(data, { status })] of @sveltejs/kit; of the headers it sets
    only the content type is kept. *)
Definition json (E : Engine) (data : JSValue) (st : Z) : outcome Response :=
  Response_new E (JsonText data) st
    [(js "content-type", js "application/json")].

(** The envelope [{ error: text }]. *)
Definition error_envelope (text : jsstring) : JSValue :=
  JObj [(js "error", JStr text)].

Inductive console_arg :=
| Text (t : jsstring)
| Err (e : js_error).

Inductive Event :=
| ConsoleLog (args : list console_arg)
| ConsoleError (args : list console_arg)
| Fetch (req : FetchRequest).

(** The network calls among the events of a run, in order. *)
Fixpoint network_calls (t : list Event) : list FetchRequest :=
  match t with
  | [] => []
  | Fetch r :: t' => r :: network_calls t'
  | _ :: t' => network_calls t'
  end.

(** The lines written with [console.error], in order. *)
Fixpoint console_errors (t : list Event) : list (list console_arg) :=
  match t with
  | [] => []
  | ConsoleError a :: t' => a :: console_errors t'
  | _ :: t' => console_errors t'
  end.

End Kit.

Import Kit.

(** ** The two handlers *)

Module Relay.

Definition console_log (args : list console_arg) : M (list Event) unit :=
  modify (fun t => t ++ [ConsoleLog args]).

Definition console_error (args : list console_arg) : M (list Event) unit :=
  modify (fun t => t ++ [ConsoleError args]).

(** [!OLLAMA_API_URL]: the variable is undefined or empty. *)
Definition unset (u : option jsstring) : bool :=
  match u with
  | Some (_ :: _) => false
  | _ => true
  end.

(** The variable inside a template literal. *)
Definition url_text (u : option jsstring) : jsstring :=
  match u with Some t => t | None => js "undefined" end.

Definition json_headers : list (jsstring * jsstring) :=
  [(js "Content-Type", js "application/json")].

Section Handlers.

Variable E : Engine.

(** [OLLAMA_API_URL] of $env/static/private *)
Variable OLLAMA_API_URL : option jsstring.

(** What the upstream service does with a request: the promise returned
    by [fetch] resolves to a response or rejects. *)
Variable upstream : FetchRequest -> outcome FetchResponse.

Definition fetch (r : FetchRequest) : M (list Event) FetchResponse :=
  fun t => (upstream r, t ++ [Fetch r]).

Definition not_configured : jsstring :=
  js "Application is not configured to connect to Ollama service.".

Definition econnrefused_message : jsstring :=
  js "Failed to connect to Ollama service at " ++ url_text OLLAMA_API_URL
  ++ js ". Ensure the service is running and accessible.".

Definition service_error (st : Z) (errorText : jsstring) : jsstring :=
  js "Ollama service error: " ++ N_toString (Z.to_N st)
  ++ js " - " ++ errorText.

(** src/routes/api/ollama/tags/+server.ts *)
Definition GET : M (list Event) Response :=
  if unset OLLAMA_API_URL then
    console_error
      [Text (js "OLLAMA_API_URL is not defined in environment variables.")] ;;
    lift (json E (error_envelope not_configured) 500)
  else
    try_catch
      (let ollamaServiceUrl := url_text OLLAMA_API_URL ++ js "/api/tags" in
       console_log
         [Text (js "Fetching tags from Ollama service: " ++ ollamaServiceUrl)] ;;
       response <- fetch {| url := ollamaServiceUrl; method := js "GET";
                            req_headers := []; req_body := None |} ;;
       if negb (ok (up_status response)) then
         (errorText <- lift (up_text response) ;;
          console_error
            [Text (js "Error from Ollama service ("
                   ++ N_toString (Z.to_N (up_status response))
                   ++ js "): " ++ errorText)] ;;
          lift (json E
                  (error_envelope (service_error (up_status response) errorText))
                  (up_status response)))
       else
         (data <- lift (up_json E response) ;;
          lift (json E data 200)))
      (fun error =>
         console_error
           [Text (js "Failed to fetch from Ollama service:"); Err error] ;;
         let '(errorMessage, errorStatus) :=
           if instanceof_Error error
              && cause_code_is (js "ECONNREFUSED") error
           then (econnrefused_message, 503%Z)
           else (js "An unexpected error occurred while trying to connect to the Ollama service.",
                 500%Z) in
         lift (json E (error_envelope errorMessage) errorStatus)).

(** [ollamaResponse.headers.get('Content-Type') || 'application/x-ndjson'] *)
Definition forwarded_content_type (r : FetchResponse) : jsstring :=
  match up_content_type r with
  | Some (c :: t) => c :: t
  | _ => js "application/x-ndjson"
  end.

(** src/routes/api/ollama/chat/+server.ts; [request_text] is the text
    of the request body, which [request.json()] parses. *)
Definition POST (request_text : jsstring) : M (list Event) Response :=
  if unset OLLAMA_API_URL then
    console_error
      [Text (js "OLLAMA_API_URL is not defined in environment variables.")] ;;
    lift (Response_new E (JsonText (error_envelope not_configured)) 500
            json_headers)
  else
    try_catch
      (requestBody <- lift (JSON_parse_throwing E request_text) ;;
       model <- lift (get_prop E requestBody (js "model")) ;;
       messages <- lift (get_prop E requestBody (js "messages")) ;;
       if negb (truthy_opt model) || negb (truthy_opt messages) then
         lift (Response_new E
                 (JsonText (error_envelope
                    (js "Missing model or messages in request body.")))
                 400 json_headers)
       else
         let ollamaChatUrl := url_text OLLAMA_API_URL ++ js "/api/chat" in
         modelText <- lift (ToString_opt E model) ;;
         console_log
           [Text (js "Forwarding chat request to Ollama: " ++ ollamaChatUrl
                  ++ js " for model " ++ modelText)] ;;
         ollamaResponse <-
           fetch {| url := ollamaChatUrl; method := js "POST";
                    req_headers := json_headers;
                    req_body :=
                      Some (object_literal
                              [(js "model", model);
                               (js "messages", messages);
                               (js "stream", Some (JBool true))]) |} ;;
         if negb (ok (up_status ollamaResponse)) then
           (errorText <- lift (up_text ollamaResponse) ;;
            console_error
              [Text (js "Error from Ollama chat service ("
                     ++ N_toString (Z.to_N (up_status ollamaResponse))
                     ++ js "): " ++ errorText)] ;;
            lift (Response_new E
                    (JsonText (error_envelope
                       (service_error (up_status ollamaResponse) errorText)))
                    (up_status ollamaResponse) json_headers))
         else
           lift (Response_new E (Stream (up_body ollamaResponse)) 200
                   [(js "Content-Type", forwarded_content_type ollamaResponse);
                    (js "Transfer-Encoding", js "chunked")]))
      (fun error =>
         console_error [Text (js "Error in chat API endpoint:"); Err error] ;;
         let '(errorMessage, errorStatus) :=
           if instanceof_Error error
              && cause_code_is (js "ECONNREFUSED") error
           then (econnrefused_message, 503%Z)
           else if instanceof_SyntaxError error
           then (js "Invalid JSON in request body.", 400%Z)
           else (js "An unexpected error occurred in the chat API.", 500%Z) in
         lift (Response_new E (JsonText (error_envelope errorMessage))
                 errorStatus json_headers)).

End Handlers.

(** The answer to a request that lacks [model] or [messages]. *)
Definition validation_text : jsstring :=
  js "Missing model or messages in request body.".

Definition validation_error : Response :=
  {| status := 400; headers := json_headers;
     body := JsonText (error_envelope validation_text) |}.

(** The [stream] property of the body of a request. *)
Definition stream_flag (r : FetchRequest) : option JSValue :=
  match req_body r with
  | Some (JObj props) => lookup (js "stream") props
  | _ => None
  end.

(** The [error] property of the envelope a response carries. *)
Definition error_field (r : Response) : option JSValue :=
  match body r with
  | JsonText (JObj props) => lookup (js "error") props
  | _ => None
  end.

(** The request the chat relay sends upstream. *)
Definition forwarded (OLLAMA_API_URL : option jsstring)
    (model messages : JSValue) : FetchRequest :=
  {| url := url_text OLLAMA_API_URL ++ js "/api/chat"; method := js "POST";
     req_headers := json_headers;
     req_body := Some (JObj [(js "model", model);
                             (js "messages", messages);
                             (js "stream", JBool true)]) |}.

End Relay.

(* ================================================================== *)
(** * The page: client stream assembler *)
(* ================================================================== *)

Module Page.

Inductive Role := user | assistant | system.

Definition Role_eqb (a b : Role) : bool :=
  match a, b with
  | user, user | assistant, assistant | system, system => true
  | _, _ => false
  end.

Definition Role_text (r : Role) : jsstring :=
  match r with
  | user => js "user"
  | assistant => js "assistant"
  | system => js "system"
  end.

Record ChatMessage := { role : Role; content : jsstring }.

(** The component's variables. *)
Record Component := {
  messages : list ChatMessage;
  userInput : jsstring;
  selectedModel : jsstring;
  availableModels : list jsstring;
  isLoading : bool;
  isLoadingModels : bool;
  errorMessage : jsstring
}.

(** The page while a handler runs: the component and what the handler
    has done to the outside so far. *)
Record World := { component : Component; events : list Event }.

Definition assign (f : Component -> Component) : M World unit :=
  modify (fun w => {| component := f (component w); events := events w |}).

Definition set_messages (ms : list ChatMessage) (c : Component) : Component :=
  {| messages := ms; userInput := userInput c;
     selectedModel := selectedModel c; availableModels := availableModels c;
     isLoading := isLoading c; isLoadingModels := isLoadingModels c;
     errorMessage := errorMessage c |}.

Definition set_userInput (t : jsstring) (c : Component) : Component :=
  {| messages := messages c; userInput := t;
     selectedModel := selectedModel c; availableModels := availableModels c;
     isLoading := isLoading c; isLoadingModels := isLoadingModels c;
     errorMessage := errorMessage c |}.

Definition set_isLoading (b : bool) (c : Component) : Component :=
  {| messages := messages c; userInput := userInput c;
     selectedModel := selectedModel c; availableModels := availableModels c;
     isLoading := b; isLoadingModels := isLoadingModels c;
     errorMessage := errorMessage c |}.

Definition set_errorMessage (t : jsstring) (c : Component) : Component :=
  {| messages := messages c; userInput := userInput c;
     selectedModel := selectedModel c; availableModels := availableModels c;
     isLoading := isLoading c; isLoadingModels := isLoadingModels c;
     errorMessage := t |}.

Definition console_error (args : list console_arg) : M World unit :=
  modify (fun w => {| component := component w;
                      events := events w ++ [ConsoleError args] |}).

(** A chat message as [JSON.stringify] sees it. *)
Definition ChatMessage_json (m : ChatMessage) : JSValue :=
  JObj [(js "role", JStr (Role_text (role m)));
        (js "content", JStr (content m))].

(** [new Error(message)] for a message that is a string already *)
Definition Error_new (message : jsstring) : js_error :=
  {| err_class := PlainError; err_cause_code := None;
     err_message := message |}.

(** [l.map((x, index) => f x index)], counting from [i]. *)
Fixpoint map_index {A B} (f : A -> Z -> B) (l : list A) (i : Z) : list B :=
  match l with
  | [] => []
  | x :: r => f x i :: map_index f r (i + 1)%Z
  end.

(** [messages.map((msg, index) => index === messages.length - 1
      ? { ...msg, content } : msg)] *)
Definition set_last_content (content : jsstring) (messages : list ChatMessage)
  : list ChatMessage :=
  map_index
    (fun msg index =>
       if (index =? Z.of_nat (List.length messages) - 1)%Z
       then {| role := role msg; content := content |}
       else msg)
    messages 0%Z.

(** The text shown for the assistant while nothing has arrived. *)
Definition placeholder : jsstring := js "...".

(** The request [handleSubmit] sends to the chat relay. *)
Definition chat_request (selectedModel : jsstring)
    (ollamaMessages : list ChatMessage) : FetchRequest :=
  {| url := js "/api/ollama/chat"; method := js "POST";
     req_headers := [(js "Content-Type", js "application/json")];
     req_body :=
       Some (JObj [(js "model", JStr selectedModel);
                   (js "messages",
                    JArr (List.map ChatMessage_json ollamaMessages))]) |}.

Section HandleSubmit.

Variable E : Engine.

(** What the relay does with the page's request. *)
Variable relay : FetchRequest -> outcome FetchResponse.

Definition fetch (r : FetchRequest) : M World FetchResponse :=
  fun w => (relay r, {| component := component w;
                        events := events w ++ [Fetch r] |}).

(** The body of the [for (const line of lines)] loop: it returns the
    new value of [assistantMessageContent]. *)
Definition handle_line (line : jsstring) (assistantMessageContent : jsstring)
  : M World jsstring :=
  try_catch
    (parsedLine <- lift (JSON_parse_throwing E line) ;;
     message <- lift (get_prop E parsedLine (js "message")) ;;
     if truthy_opt message then
       (content <- lift (match message with
                         | Some m => get_prop E m (js "content")
                         | None => Return None
                         end) ;;
        if truthy_opt content then
          contentText <- lift (ToString_opt E content) ;;
          let assistantMessageContent :=
            assistantMessageContent ++ contentText in
          assign (fun c =>
            set_messages
              (set_last_content assistantMessageContent (messages c)) c) ;;
          ret assistantMessageContent
        else ret assistantMessageContent)
     else ret assistantMessageContent)
    (fun e =>
       console_error [Text (js "Error parsing streamed JSON line:"); Err e;
                      Text (js "Line:"); Text line] ;;
       ret assistantMessageContent).

Fixpoint handle_lines (lines : list jsstring)
    (assistantMessageContent : jsstring) : M World jsstring :=
  match lines with
  | [] => ret assistantMessageContent
  | line :: rest =>
      assistantMessageContent <- handle_line line assistantMessageContent ;;
      handle_lines rest assistantMessageContent
  end.

(** [chunk.split('\n').filter(line => line.trim() !== '')] *)
Definition lines_of (chunk : jsstring) : list jsstring :=
  List.filter (fun line => negb (jsstring_eqb (trim line) []))
    (split_lf chunk).

(** The [while (true)] loop over [await reader.read()]: [values] are
    the chunks still to come and [ending] tells what the read after
    them does: it reports the end, so the loop is left; it is rejected;
    or it never settles. *)
Fixpoint read_loop (values : list (list byte)) (ending : StreamEnd)
    (decoder : TextDecoder) (assistantMessageContent : jsstring)
  : Async World unit :=
  match values with
  | [] =>
      match ending with
      | Closes => settled (ret tt)
      | Fails e => settled (throw e)
      | Hangs => pending
      end
  | value :: rest =>
      let '(chunk, decoder) := decode decoder value in
      (assistantMessageContent <-
         settled (handle_lines (lines_of chunk) assistantMessageContent) ;;
       read_loop rest ending decoder assistantMessageContent)%page
  end.

Definition is_placeholder (m : option ChatMessage) : bool :=
  match m with
  | Some m => Role_eqb (role m) assistant
              && jsstring_eqb (content m) placeholder
  | None => false
  end.

Definition handleSubmit : Async World unit :=
  (c <- settled (gets component) ;;
   if jsstring_eqb (trim (userInput c)) []
      || jsstring_eqb (selectedModel c) []
   then
     settled (assign (set_errorMessage
                        (js "Please enter a message and select a model.")))
   else
     settled (assign (set_isLoading true)) ;;
     settled (assign (set_errorMessage [])) ;;
     let newUserMessage := {| role := user; content := userInput c |} in
     settled (assign (fun c =>
                set_messages (messages c ++ [newUserMessage]) c)) ;;
     ollamaMessages <- settled (gets (fun w => messages (component w))) ;;
     settled (assign (set_userInput [])) ;;
     finally_async
       (try_catch_async
          (response <-
             settled (fetch (chat_request (selectedModel c) ollamaMessages)) ;;
           match ok (up_status response), up_body response with
           | true, Some stream =>
               settled
                 (assign (fun c =>
                    set_messages
                      (messages c ++ [{| role := assistant;
                                         content := placeholder |}]) c)) ;;
               read_loop (chunks stream) (ending stream) TextDecoder_new []
           | _, _ =>
               settled
                 (errorResult <- lift (up_json E response) ;;
                  error <- lift (get_prop E errorResult (js "error")) ;;
                  message <-
                    lift (if truthy_opt error then ToString_opt E error
                          else Return (js "Chat API error: "
                                       ++ N_toString
                                            (Z.to_N (up_status response)))) ;;
                  throw (Error_new message))%js
           end)
          (fun err =>
             settled
               (assign (set_errorMessage
                          (js "Error sending message: " ++ err_message err)) ;;
                console_error [Err err] ;;
                c <- gets component ;;
                if is_placeholder (List.last (List.map Some (messages c)) None)
                then assign (set_messages (List.removelast (messages c)))
                else ret tt)%js))
       (fun w => {| component := set_isLoading false (component w);
                    events := events w |}))%page.

End HandleSubmit.

End Page.

Import Relay Page.

(** ** Derived descriptions of the stream loop *)

Module Summary.

(** The decoder's part of the loop: the texts it hands to [split],
    chunk by chunk. *)
Fixpoint decode_chunks (d : TextDecoder) (values : list (list byte))
  : list jsstring :=
  match values with
  | [] => []
  | value :: rest =>
      let '(chunk, d') := decode d value in
      chunk :: decode_chunks d' rest
  end.

(** The decoder where a line starts: after a line feed no character is
    pending and the byte order mark can no longer be dropped. *)
Definition line_start : TextDecoder :=
  {| bom_seen := true; utf8 := utf8_clean |}.

(** All lines the loop handles, in order. *)
Definition stream_lines (values : list (list byte)) : list jsstring :=
  List.concat (List.map lines_of (decode_chunks TextDecoder_new values)).

(** Lines each ended by a line feed. *)
Definition unlines (lines : list jsstring) : jsstring :=
  List.concat (List.map (fun l => l ++ [10]) lines).

Definition no_lf (line : jsstring) : bool :=
  forallb (fun c => negb (c =? 10)) line.

Section Lines.

Variable E : Engine.

(** The text a line adds to the assistant message, if any. *)
Definition line_content (line : jsstring) : option jsstring :=
  match JSON_parse line with
  | Some (JObj props) =>
      match lookup (js "message") props with
      | Some (JObj mprops) =>
          match lookup (js "content") mprops with
          | Some c =>
              if truthy c then
                match ToString E c with
                | Return text => Some text
                | Throw _ => None
                end
              else None
          | None => None
          end
      | _ => None
      end
  | _ => None
  end.

(** The error a line makes the loop catch and log, if any: the line is
    not JSON, it is [null], or its content cannot be converted to a
    string. *)
Definition line_error (line : jsstring) : option js_error :=
  match JSON_parse line with
  | None => Some (engine_error E SyntaxError (BadJSON line))
  | Some JNull =>
      Some (engine_error E TypeError (PropertyOfNull (js "message")))
  | Some (JObj props) =>
      match lookup (js "message") props with
      | Some (JObj mprops) =>
          match lookup (js "content") mprops with
          | Some c =>
              if truthy c then
                match ToString E c with
                | Return _ => None
                | Throw e => Some e
                end
              else None
          | None => None
          end
      | _ => None
      end
  | Some _ => None
  end.

Definition line_log (line : jsstring) : list Event :=
  match line_error line with
  | Some e => [ConsoleError [Text (js "Error parsing streamed JSON line:");
                             Err e; Text (js "Line:"); Text line]]
  | None => []
  end.

(** The accumulator and the history after a run of lines. *)
Fixpoint assemble (lines : list jsstring) (acc : jsstring)
    (ms : list ChatMessage) : jsstring * list ChatMessage :=
  match lines with
  | [] => (acc, ms)
  | l :: r =>
      match line_content l with
      | Some c => assemble r (acc ++ c) (set_last_content (acc ++ c) ms)
      | None => assemble r acc ms
      end
  end.

Definition lines_log (lines : list jsstring) : list Event :=
  List.flat_map line_log lines.

(** The texts added by a run of lines. *)
Fixpoint contents (lines : list jsstring) : list jsstring :=
  match lines with
  | [] => []
  | l :: r =>
      match line_content l with
      | Some c => c :: contents r
      | None => contents r
      end
  end.

End Lines.

(** A well-formed fragment: one line of JSON text that is an object
    whose [message.content] is a string; the result is that string. *)
Definition fragment_content (line : jsstring) : option jsstring :=
  if no_lf line then
    match JSON_parse line with
    | Some (JObj props) =>
        match lookup (js "message") props with
        | Some (JObj mprops) =>
            match lookup (js "content") mprops with
            | Some (JStr c) => Some c
            | _ => None
            end
        | _ => None
        end
    | _ => None
    end
  else None.

(** [line_inserted m before after]: the chunk texts [after] are the
    chunk texts [before] with the line [m] and its line feed put in
    where a line starts: behind a line feed, at the head of a chunk, or
    as a chunk of its own. *)
Inductive line_inserted (m : jsstring)
  : list jsstring -> list jsstring -> Prop :=
| inserted_behind (a b : jsstring) (rest : list jsstring) :
    line_inserted m ((a ++ 10 :: b) :: rest)
                    ((a ++ 10 :: m ++ 10 :: b) :: rest)
| inserted_ahead (b : jsstring) (rest : list jsstring) :
    line_inserted m (b :: rest) ((m ++ 10 :: b) :: rest)
| inserted_alone (rest : list jsstring) :
    line_inserted m rest ((m ++ [10]) :: rest)
| inserted_later (t : jsstring) (r1 r2 : list jsstring) :
    line_inserted m r1 r2 -> line_inserted m (t :: r1) (t :: r2).

(** What the loop logs for a line that does not parse. *)
Definition malformed_entry (E : Engine) (m : jsstring) : list console_arg :=
  [Text (js "Error parsing streamed JSON line:");
   Err (engine_error E SyntaxError (BadJSON m));
   Text (js "Line:"); Text m].

(** The text of the assistant's turn after a run of lines: what they
    added, or the placeholder when none added anything. *)
Definition shown_text (E : Engine) (lines : list jsstring) : jsstring :=
  match contents E lines with
  | [] => placeholder
  | _ :: _ => List.concat (contents E lines)
  end.

(** The user's turn that [handleSubmit] appends. *)
Definition user_turn (c : Component) : ChatMessage :=
  {| role := user; content := userInput c |}.

Definition assistant_turn (text : jsstring) : ChatMessage :=
  {| role := assistant; content := text |}.

(** [handleSubmit] goes past its first test. *)
Definition submittable (c : Component) : bool :=
  negb (jsstring_eqb (trim (userInput c)) [])
  && negb (jsstring_eqb (selectedModel c) []).

End Summary.

Import Summary.

(** ** Sample data *)

Module Sample.

Definition engine : Engine :=
  {| Number_toString := fun d => N_toString (d_mant d);
     fault_message := fun f =>
       match f with
       | BadJSON _ => js "Unexpected token in JSON"
       | PropertyOfNull _ => js "Cannot read properties of null"
       | StatusOutOfRange _ => js "init.status is out of range"
       | NullBodyStatus _ => js "Invalid response status code"
       | NotPrimitive => js "Cannot convert object to primitive value"
       end |}.

(** ASCII text as bytes, every apostrophe standing for a double quote. *)
Definition bytes (s : string) : list byte :=
  List.map (fun b => match Byte.to_N b with 39 => x22 | _ => b end)
    (list_byte_of_string s).

Definition page : World :=
  {| component :=
       {| messages := []; userInput := js "Hi"; selectedModel := js "llama3";
          availableModels := [js "llama3"]; isLoading := false;
          isLoadingModels := false; errorMessage := [] |};
     events := [] |}.

(** An answer with status 200 and the given stream as its body. *)
Definition stream_response (values : list (list byte)) (f : StreamEnd)
  : FetchResponse :=
  {| up_status := 200;
     up_content_type := Some (js "application/x-ndjson");
     up_text := Return [];
     up_body := Some {| chunks := values; ending := f |} |}.

(** A service that answers every request with such a stream. *)
Definition streaming (values : list (list byte)) (f : StreamEnd)
  : FetchRequest -> outcome FetchResponse :=
  fun _ => Return (stream_response values f).

(** An answer with the given status and text, and no stream. *)
Definition text_response (st : Z) (text : jsstring) : FetchResponse :=
  {| up_status := st; up_content_type := Some (js "text/plain");
     up_text := Return text; up_body := None |}.

(** The error of a [fetch] that fails with the given system code. *)
Definition fetch_failed (code : jsstring) : js_error :=
  {| err_class := TypeError; err_cause_code := Some code;
     err_message := js "fetch failed" |}.

Definition url : option jsstring := Some (js "http://localhost:11434").

(** A chat request that asks for no streaming. *)
Definition chat_text : jsstring :=
  jsq "{'model':'llama3','messages':[{'role':'user','content':'Hi'}],'stream':false}".

Definition chat_model : JSValue := JStr (js "llama3").

Definition chat_messages : JSValue :=
  JArr [JObj [(js "role", JStr (js "user")); (js "content", JStr (js "Hi"))]].

(** Two fragments, and a line that is not JSON. *)
Definition line1 : list byte :=
  bytes "{'message':{'role':'assistant','content':'Hel'},'done':false}".
Definition line2 : list byte :=
  bytes "{'message':{'role':'assistant','content':'lo'},'done':false}".
Definition garbage : list byte := bytes "data: [DONE]".

(** The same as JavaScript strings. *)
Definition text_of (bs : list byte) : jsstring := List.map Byte.to_N bs.

End Sample.

(* ================================================================== *)
(** * The page: loading the models, and what the template shows *)
(* ================================================================== *)

Module Mount.

(** The page's variables as they are at run time: [availableModels] and
    [selectedModel] hold whatever the listing gave, a string or not;
    [None] stands for [undefined]. *)
Record Vars := {
  messages : list ChatMessage;
  userInput : jsstring;
  selectedModel : option JSValue;
  availableModels : list (option JSValue);
  isLoading : bool;
  isLoadingModels : bool;
  errorMessage : jsstring
}.

(** The variables as the script declares them. *)
Definition initial : Vars :=
  {| messages := []; userInput := []; selectedModel := Some (JStr []);
     availableModels := []; isLoading := false; isLoadingModels := true;
     errorMessage := [] |}.

Record World := { vars : Vars; events : list Event }.

Definition assign (f : Vars -> Vars) : M World unit :=
  modify (fun w => {| vars := f (vars w); events := events w |}).

Definition set_availableModels (l : list (option JSValue)) (v : Vars) : Vars :=
  {| messages := messages v; userInput := userInput v;
     selectedModel := selectedModel v; availableModels := l;
     isLoading := isLoading v; isLoadingModels := isLoadingModels v;
     errorMessage := errorMessage v |}.

Definition set_selectedModel (m : option JSValue) (v : Vars) : Vars :=
  {| messages := messages v; userInput := userInput v;
     selectedModel := m; availableModels := availableModels v;
     isLoading := isLoading v; isLoadingModels := isLoadingModels v;
     errorMessage := errorMessage v |}.

Definition set_isLoadingModels (b : bool) (v : Vars) : Vars :=
  {| messages := messages v; userInput := userInput v;
     selectedModel := selectedModel v; availableModels := availableModels v;
     isLoading := isLoading v; isLoadingModels := b;
     errorMessage := errorMessage v |}.

Definition set_errorMessage (t : jsstring) (v : Vars) : Vars :=
  {| messages := messages v; userInput := userInput v;
     selectedModel := selectedModel v; availableModels := availableModels v;
     isLoading := isLoading v; isLoadingModels := isLoadingModels v;
     errorMessage := t |}.

Definition console_error (args : list console_arg) : M World unit :=
  modify (fun w => {| vars := vars w;
                      events := events w ++ [ConsoleError args] |}).

(** The request [onMount] sends to the model listing. *)
Definition tags_request : FetchRequest :=
  {| url := js "/api/ollama/tags"; method := js "GET";
     req_headers := []; req_body := None |}.

(** The TypeErrors of [data.models.map(...)] that are not a read of
    [null]: [data.models] is undefined, or it has no [map] to call. *)
Inductive fault :=
| ReadOfUndefined (name : jsstring)
| NotAFunction (name : jsstring).

Section OnMount.

Variable E : Engine.

(** The engine's wording of those TypeErrors. *)
Variable fault_text : fault -> jsstring.

(** What the relay does with the page's request. *)
Variable relay : FetchRequest -> outcome FetchResponse.

Definition TypeError_of (f : fault) : js_error :=
  {| err_class := TypeError; err_cause_code := None;
     err_message := fault_text f |}.

Definition fetch (r : FetchRequest) : M World FetchResponse :=
  fun w => (relay r, {| vars := vars w; events := events w ++ [Fetch r] |}).

(** [l.map((model) => model.name)] on the elements of an array *)
Fixpoint names_of (l : list JSValue) : outcome (list (option JSValue)) :=
  match l with
  | [] => Return []
  | model :: rest =>
      match get_prop E model (js "name") with
      | Throw e => Throw e
      | Return name =>
          match names_of rest with
          | Throw e => Throw e
          | Return names => Return (name :: names)
          end
      end
  end.

(** [models.map((model: any) => model.name)] for whatever [data.models]
    is *)
Definition map_names (models : option JSValue)
  : outcome (list (option JSValue)) :=
  match models with
  | None => Throw (TypeError_of (ReadOfUndefined (js "map")))
  | Some JNull => Throw (engine_error E TypeError (PropertyOfNull (js "map")))
  | Some (JArr l) => names_of l
  | Some _ => Throw (TypeError_of (NotAFunction (js "map")))
  end.

Definition onMount : M World unit :=
  finally
    (try_catch
       (response <- fetch tags_request ;;
        (if negb (ok (up_status response)) then
           (errorResult <- lift (up_json E response) ;;
            error <- lift (get_prop E errorResult (js "error")) ;;
            message <-
              lift (if truthy_opt error then ToString_opt E error
                    else Return (js "Failed to fetch models: "
                                 ++ N_toString
                                      (Z.to_N (up_status response)))) ;;
            throw (Error_new message))
         else ret tt) ;;
        data <- lift (up_json E response) ;;
        models <- lift (get_prop E data (js "models")) ;;
        names <- lift (map_names models) ;;
        assign (set_availableModels names) ;;
        match names with
        | first :: _ => assign (set_selectedModel first)
        | [] => ret tt
        end)
       (fun err =>
          assign (set_errorMessage
                    (js "Error loading models: " ++ err_message err)) ;;
          console_error [Err err]))
    (fun w => {| vars := set_isLoadingModels false (vars w);
                 events := events w |}).

End OnMount.

(** [disabled={isLoading || isLoadingModels ||
      availableModels.length === 0}] on the input and on the button *)
Definition send_disabled (v : Vars) : bool :=
  isLoading v || isLoadingModels v
  || Nat.eqb (List.length (availableModels v)) 0.

(** What the block above the messages shows. *)
Inductive ModelArea := LoadingModels | ModelSelector | NoModelsNote | NoArea.

(** [{#if isLoadingModels} .. {:else if availableModels.length > 0} ..
      {:else if !errorMessage} .. {/if}] *)
Definition model_area (v : Vars) : ModelArea :=
  if isLoadingModels v then LoadingModels
  else if Nat.ltb 0 (List.length (availableModels v)) then ModelSelector
  else if jsstring_eqb (errorMessage v) [] then NoModelsNote
  else NoArea.

End Mount.

(** ** Ways a chat exchange fails before a stream is read *)

Module Failure.

(** The error [handleSubmit] throws for an answer that is not ok or has
    no body: what reading the envelope throws, or an Error made from the
    envelope's [error] (or what converting that to a string throws), or
    an Error made from the status when there is no [error]. *)
Definition relay_failure (E : Engine) (response : FetchResponse) : js_error :=
  match up_json E response with
  | Throw e => e
  | Return errorResult =>
      match get_prop E errorResult (js "error") with
      | Throw e => e
      | Return error =>
          if truthy_opt error then
            match ToString_opt E error with
            | Throw e => e
            | Return text => Error_new text
            end
          else Error_new (js "Chat API error: "
                          ++ N_toString (Z.to_N (up_status response)))
      end
  end.

(** The page after an exchange that failed with [e] before any stream
    was read. *)
Definition failed_page (c : Component) (e : js_error) : Component :=
  {| Page.messages := Page.messages c ++ [user_turn c];
     Page.userInput := [];
     Page.selectedModel := Page.selectedModel c;
     Page.availableModels := Page.availableModels c;
     Page.isLoading := false;
     Page.isLoadingModels := Page.isLoadingModels c;
     Page.errorMessage := js "Error sending message: " ++ err_message e |}.

End Failure.

(** ** The outcome of an exchange *)

Module Exchange.

(** The error that ends an exchange before a stream is read, if any:
    the rejection of [fetch], or [relay_failure] for an answer that is
    not ok or has no body. *)
Definition failure_of (E : Engine)
    (relay : FetchRequest -> outcome FetchResponse) (c : Component)
  : option js_error :=
  match relay (chat_request (Page.selectedModel c)
                 (Page.messages c ++ [user_turn c])) with
  | Throw e => Some e
  | Return response =>
      match ok (up_status response), up_body response with
      | true, Some _ => None
      | _, _ => Some (Failure.relay_failure E response)
      end
  end.


End Exchange.

(** ** Shapes of the relay's requests and answers *)

Module Answers.

(** The request the model listing sends upstream. *)
Definition tags_upstream (OLLAMA_API_URL : option jsstring) : FetchRequest :=
  {| url := url_text OLLAMA_API_URL ++ js "/api/tags"; method := js "GET";
     req_headers := []; req_body := None |}.

(** An answer of the chat relay is either the stream, with status 200,
    or an [{ error: text }] envelope marked as JSON, with another
    status. *)
Definition chat_answer (r : Response) : Prop :=
  match body r with
  | Stream _ => status r = 200%Z
  | JsonText v =>
      status r <> 200%Z /\ headers r = json_headers
      /\ exists text, v = error_envelope text
  end.

(** An answer of the model listing is JSON: the upstream value with
    status 200, or an [{ error: text }] envelope with another status. *)
Definition tags_answer (r : Response) : Prop :=
  headers r = [(js "content-type", js "application/json")]
  /\ match body r with
     | Stream _ => False
     | JsonText v => status r = 200%Z \/ exists text, v = error_envelope text
     end.

End Answers.

(** ** Entries of the model listing *)

Module Listing.

(** [model.name] of an entry that is not null. *)
Definition name_of (model : JSValue) : option JSValue :=
  match model with
  | JObj props => lookup (js "name") props
  | _ => None
  end.

Definition is_null (v : JSValue) : bool :=
  match v with JNull => true | _ => false end.

Definition is_array (v : option JSValue) : bool :=
  match v with Some (JArr _) => true | _ => false end.

End Listing.

(* ================================================================== *)
(** * The page and the relay together *)
(* ================================================================== *)

(** ** [JSON.stringify] *)

Module Stringify.

(** A lowercase hexadecimal digit. *)
Definition hex_digit (n : N) : N := if n <? 10 then 48 + n else 87 + n.

(** UnicodeEscape: [\uXXXX] for a code unit. *)
Definition unicode_escape (c : N) : jsstring :=
  [92; 117; hex_digit (c / 4096 mod 16); hex_digit (c / 256 mod 16);
   hex_digit (c / 16 mod 16); hex_digit (c mod 16)].

Definition is_high_surrogate (c : N) : bool := (55296 <=? c) && (c <=? 56319).
Definition is_low_surrogate (c : N) : bool := (56320 <=? c) && (c <=? 57343).

(** A code unit that is no surrogate, as QuoteJSONString writes it. *)
Definition quote_unit (c : N) : jsstring :=
  if c =? 8 then [92; 98]
  else if c =? 9 then [92; 116]
  else if c =? 10 then [92; 110]
  else if c =? 12 then [92; 102]
  else if c =? 13 then [92; 114]
  else if c =? 34 then [92; 34]
  else if c =? 92 then [92; 92]
  else if c <? 32 then unicode_escape c
  else [c].

(** The characters of QuoteJSONString between the quotes: a surrogate
    pair is written as it is, a surrogate on its own is escaped. *)
Fixpoint quote_chars (s : jsstring) : jsstring :=
  match s with
  | [] => []
  | c :: r =>
      if is_high_surrogate c then
        match r with
        | d :: r' =>
            if is_low_surrogate d then c :: d :: quote_chars r'
            else unicode_escape c ++ quote_chars r
        | [] => unicode_escape c
        end
      else if is_low_surrogate c then unicode_escape c ++ quote_chars r
      else quote_unit c ++ quote_chars r
  end.

(** QuoteJSONString *)
Definition quote (s : jsstring) : jsstring := 34 :: quote_chars s ++ [34].

Fixpoint join (sep : N) (l : list jsstring) : jsstring :=
  match l with
  | [] => []
  | [x] => x
  | x :: r => x ++ sep :: join sep r
  end.

Section Stringify.

(** The text [JSON.stringify] gives a Number: its ToString, or null for
    one that overflowed to infinity. *)
Variable Number_text : decimal -> jsstring.

(** [JSON.stringify(v)] without indentation, for a value whose objects
    list their properties in creation order with no key twice (an
    object literal with names for keys does). *)
Fixpoint JSON_stringify (v : JSValue) : jsstring :=
  match v with
  | JNull => js "null"
  | JBool true => js "true"
  | JBool false => js "false"
  | JNum d => Number_text d
  | JStr s => quote s
  | JArr l => 91 :: join 44 (List.map JSON_stringify l) ++ [93]
  | JObj props =>
      123
      :: join 44 (List.map (fun kv => quote (fst kv) ++ 58
                                       :: JSON_stringify (snd kv)) props)
      ++ [125]
  end.

(** The text of one member of an object. *)
Definition member_text (kv : jsstring * JSValue) : jsstring :=
  quote (fst kv) ++ 58 :: JSON_stringify (snd kv).

(** The text of [v] parses back to [v], whatever follows it. *)
Definition parses_back (v : JSValue) : Prop :=
  exists f0, forall fuel rest,
    (f0 <= fuel)%nat ->
    parse_value fuel (JSON_stringify v ++ rest) = Some (v, rest).

End Stringify.

(** A text that starts with a character of a value. *)
Definition opens (s : jsstring) : Prop :=
  exists c t, s = c :: t /\ is_json_ws c = false
              /\ (c =? 93) = false /\ (c =? 125) = false.

(** Induction on a value with its elements and members at hand. *)
Section ValueInduction.

Variable P : JSValue -> Prop.
Hypothesis Hnull : P JNull.
Hypothesis Hbool : forall b, P (JBool b).
Hypothesis Hnum : forall d, P (JNum d).
Hypothesis Hstr : forall s, P (JStr s).
Hypothesis Harr : forall l, Forall P l -> P (JArr l).
Hypothesis Hobj :
  forall props, Forall (fun kv => P (snd kv)) props -> P (JObj props).

Fixpoint JSValue_nested_ind (v : JSValue) : P v :=
  match v with
  | JNull => Hnull
  | JBool b => Hbool b
  | JNum d => Hnum d
  | JStr s => Hstr s
  | JArr l =>
      Harr l ((fix elements (l : list JSValue) : Forall P l :=
                 match l with
                 | [] => Forall_nil P
                 | x :: r => Forall_cons x (JSValue_nested_ind x) (elements r)
                 end) l)
  | JObj props =>
      Hobj props
        ((fix members (l : list (jsstring * JSValue))
            : Forall (fun kv => P (snd kv)) l :=
            match l with
            | [] => Forall_nil _
            | kv :: r =>
                Forall_cons kv (JSValue_nested_ind (snd kv)) (members r)
            end) props)
  end.

End ValueInduction.

(** Every code unit of a string is one: below 2^16. *)
Definition units (s : jsstring) : bool := forallb (fun c => c <? 65536) s.

(** A value without Numbers whose strings are made of code units. *)
Fixpoint textual (v : JSValue) : bool :=
  match v with
  | JNull => true
  | JBool _ => true
  | JNum _ => false
  | JStr s => units s
  | JArr l => forallb textual l
  | JObj props =>
      forallb (fun kv => units (fst kv) && textual (snd kv)) props
  end.

End Stringify.

Import Stringify.

(** ** The page behind the relay *)

Module Together.

(** Every string of the page is made of code units. *)
Definition wellformed (c : Component) : bool :=
  units (Page.selectedModel c) && units (Page.userInput c)
  && forallb (fun m => units (content m)) (Page.messages c).

Section Together.

Variable E : Engine.
Variable Number_text : decimal -> jsstring.
Variable OLLAMA_API_URL : option jsstring.
Variable upstream : FetchRequest -> outcome FetchResponse.

(** The text of the body of a request: [JSON.stringify] of the value
    given as [body]. *)
Definition request_text (req : FetchRequest) : jsstring :=
  match req_body req with
  | Some v => JSON_stringify Number_text v
  | None => []
  end.

(** What the browser has of an answer a handler returned: its status;
    the text of a JSON body; of a stream that closes, a stream of the
    same bytes that closes, cut into chunks in any way. *)
Definition delivers (r : Response) (browser : FetchResponse) : Prop :=
  up_status browser = status r
  /\ match body r with
     | JsonText v => up_text browser = Return (JSON_stringify Number_text v)
     | Stream None => up_body browser = None
     | Stream (Some s) =>
         exists s', up_body browser = Some s'
                    /\ (ending s = Closes ->
                        ending s' = Closes
                        /\ List.concat (chunks s') = List.concat (chunks s))
     end.

(** The chat handler answers the request [req] of the page: it gets the
    text the page sent, and the page gets what it returns. *)
Definition chat_wired (relay : FetchRequest -> outcome FetchResponse)
    (req : FetchRequest) : Prop :=
  exists r browser,
    fst (POST E OLLAMA_API_URL upstream (request_text req) []) = Return r
    /\ relay req = Return browser
    /\ delivers r browser.

(** The same for the model listing. *)
Definition tags_wired (relay : FetchRequest -> outcome FetchResponse) : Prop :=
  exists r browser,
    fst (GET E OLLAMA_API_URL upstream []) = Return r
    /\ relay Mount.tags_request = Return browser
    /\ delivers r browser.

End Together.

(** The request of a page that goes past the first test of
    [handleSubmit]. *)
Definition request_of (c : Component) : FetchRequest :=
  chat_request (Page.selectedModel c) (Page.messages c ++ [user_turn c]).

End Together.

(** ** More sample data *)

Module Cases.

(** The page of [Sample.page] before a model is selected. *)
Definition no_model : World :=
  {| component :=
       {| Page.messages := []; Page.userInput := js "Hi";
          Page.selectedModel := []; Page.availableModels := [];
          Page.isLoading := false; Page.isLoadingModels := false;
          Page.errorMessage := [] |};
     events := [] |}.

(** A service that refuses every connection. *)
Definition refusing : FetchRequest -> outcome FetchResponse :=
  fun _ => Throw (Sample.fetch_failed (js "ECONNREFUSED")).

(** A service that answers every request with a status and a text. *)
Definition answering (st : Z) (text : jsstring)
  : FetchRequest -> outcome FetchResponse :=
  fun _ => Return (Sample.text_response st text).

(** The page as it is created. *)
Definition loading : Mount.World :=
  {| Mount.vars := Mount.initial; Mount.events := [] |}.

Definition fault_text (f : Mount.fault) : jsstring :=
  match f with
  | Mount.ReadOfUndefined _ => js "Cannot read properties of undefined"
  | Mount.NotAFunction name => name ++ js " is not a function"
  end.

(** Listings of two models, of none, and without a list. *)
Definition two_models : jsstring :=
  jsq "{'models':[{'name':'llama3','model':'llama3:latest'},{'name':'mistral'}]}".
Definition no_models : jsstring := jsq "{'models':[]}".
Definition null_models : jsstring := jsq "{'models':null}".

Definition llama3 : JSValue :=
  JObj [(js "name", JStr (js "llama3"));
        (js "model", JStr (js "llama3:latest"))].
Definition mistral : JSValue := JObj [(js "name", JStr (js "mistral"))].

(** An envelope as text. *)
Definition envelope : jsstring := jsq "{'error':'Ollama is down'}".

(** A value that cannot be converted to a string, and an envelope that
    holds it. *)
Definition odd_value : JSValue := JObj [(js "toString", JNum
  {| d_neg := false; d_mant := 1; d_exp10 := 0 |})].
Definition odd_envelope : jsstring := jsq "{'error':{'toString':1}}".

(** Fragments with the same [message] and different [done]. *)
Definition fragment_done : jsstring :=
  jsq "{'message':{'content':'a'},'done':true}".
Definition fragment_open : jsstring :=
  jsq "{'message':{'content':'a'},'done':false}".

(** A request whose [model] is no string. *)
Definition odd_request : jsstring := jsq "{'model':true,'messages':'x'}".

Definition Number_text : decimal -> jsstring :=
  Number_toString Sample.engine.

(** What the browser has of an answer, with a stream left as it is. *)
Definition browser_view (r : Response) : FetchResponse :=
  {| up_status := status r;
     up_content_type := None;
     up_text :=
       match body r with
       | JsonText v => Return (JSON_stringify Number_text v)
       | Stream _ => Return []
       end;
     up_body := match body r with Stream s => s | JsonText _ => None end |}.

(** The two handlers as the page reaches them. *)
Definition chat_behind (OLLAMA_API_URL : option jsstring)
    (upstream : FetchRequest -> outcome FetchResponse)
  : FetchRequest -> outcome FetchResponse :=
  fun req =>
    match fst (POST Sample.engine OLLAMA_API_URL upstream
                 (Together.request_text Number_text req) []) with
    | Return r => Return (browser_view r)
    | Throw e => Throw e
    end.

Definition tags_behind (OLLAMA_API_URL : option jsstring)
    (upstream : FetchRequest -> outcome FetchResponse)
  : FetchRequest -> outcome FetchResponse :=
  fun _ =>
    match fst (GET Sample.engine OLLAMA_API_URL upstream []) with
    | Return r => Return (browser_view r)
    | Throw e => Throw e
    end.

End Cases.

(* ================================================================== *)
(** * Properties *)
(* ================================================================== *)

(** ** Strings *)

Lemma jsstring_eqb_eq (a b : jsstring) : jsstring_eqb a b = true <-> a = b.
Proof.
  revert b; induction a as [|x a IH]; intros [|y b]; simpl;
    try (split; [discriminate | discriminate]); try tauto.
  rewrite andb_true_iff, N.eqb_eq, IH.
  split; [intros [-> ->]; reflexivity | intros H; inversion H; auto].
Qed.

Lemma jsstring_eqb_refl (a : jsstring) : jsstring_eqb a a = true.
Proof. apply jsstring_eqb_eq; reflexivity. Qed.

Lemma jsstring_eqb_nil (a : jsstring) :
  jsstring_eqb a [] = match a with [] => true | _ => false end.
Proof. destruct a; reflexivity. Qed.

Lemma trimStart_blank (s : jsstring) :
  forallb is_whitespace s = true -> trimStart s = [].
Proof.
  induction s as [|c s IH]; simpl; [reflexivity|].
  intros H; apply andb_true_iff in H as [Hc Hs]; rewrite Hc; auto.
Qed.

Lemma trimStart_nil_blank (s : jsstring) :
  trimStart s = [] -> forallb is_whitespace s = true.
Proof.
  induction s as [|c s IH]; simpl; [reflexivity|].
  destruct (is_whitespace c); [auto | discriminate].
Qed.

Lemma trim_blank (s : jsstring) :
  forallb is_whitespace s = true -> trim s = [].
Proof.
  intros H; unfold trim; rewrite (trimStart_blank s H); reflexivity.
Qed.

Lemma trim_nil_blank (s : jsstring) :
  trim s = [] -> forallb is_whitespace s = true.
Proof.
  unfold trim; intros H.
  assert (H1 : trimStart (rev (trimStart s)) = []).
  { rewrite <- (rev_involutive (trimStart _)), H; reflexivity. }
  apply trimStart_nil_blank in H1.
  assert (H2 : forallb is_whitespace (trimStart s) = true).
  { rewrite forallb_forall in *; intros x Hx; apply H1, in_rev;
      rewrite rev_involutive; exact Hx. }
  assert (H3 : trimStart s = []).
  { clear -H2; induction s as [|c s IH]; simpl in *; [reflexivity|].
    destruct (is_whitespace c) eqn:Hc; [auto|].
    simpl in H2; rewrite Hc in H2; discriminate. }
  apply trimStart_nil_blank, H3.
Qed.

Lemma split_lf_nonempty (s : jsstring) : split_lf s <> [].
Proof.
  destruct s as [|c s]; simpl; [discriminate|].
  destruct (c =? 10); [discriminate|].
  destruct (split_lf s); discriminate.
Qed.

Lemma split_lf_app (a b : jsstring) :
  split_lf (a ++ 10 :: b) = split_lf a ++ split_lf b.
Proof.
  induction a as [|c a IH]; simpl; [reflexivity|].
  destruct (c =? 10); [rewrite IH; reflexivity|].
  rewrite IH.
  pose proof (split_lf_nonempty a) as Hne.
  destruct (split_lf a); [contradiction | reflexivity].
Qed.

Lemma split_lf_line (l : jsstring) : no_lf l = true -> split_lf l = [l].
Proof.
  induction l as [|c l IH]; simpl; [reflexivity|].
  intros H; apply andb_true_iff in H as [Hc Hl].
  apply negb_true_iff in Hc; rewrite Hc, (IH Hl); reflexivity.
Qed.

Lemma lines_of_app (a b : jsstring) :
  lines_of (a ++ 10 :: b) = lines_of a ++ lines_of b.
Proof. unfold lines_of; rewrite split_lf_app, filter_app; reflexivity. Qed.

Lemma lines_of_nil : lines_of [] = [].
Proof. reflexivity. Qed.

(** ** [JSON.parse] does not depend on its fuel *)

Lemma skip_ws_length (s : jsstring) :
  (List.length (skip_ws s) <= List.length s)%nat.
Proof.
  induction s as [|c s IH]; simpl; [lia|].
  destruct (is_json_ws c); simpl; lia.
Qed.

Lemma skip_ws_cons_length (s r : jsstring) (c : N) :
  skip_ws s = c :: r -> (List.length r < List.length s)%nat.
Proof.
  intros H; pose proof (skip_ws_length s) as L; rewrite H in L; simpl in L; lia.
Qed.

Lemma strip_prefix_length (p s r : jsstring) :
  strip_prefix p s = Some r -> (List.length r <= List.length s)%nat.
Proof.
  revert s; induction p as [|a p IH]; intros [|b s]; simpl;
    try discriminate; try (intros H; injection H as <-; simpl; lia).
  destruct (a =? b); [|discriminate].
  intros H; apply IH in H; lia.
Qed.

Lemma cons_char_length (c : N) (o : option (jsstring * jsstring))
    (t r : jsstring) (n : nat) :
  (forall t' r', o = Some (t', r') -> (List.length r' < n)%nat) ->
  cons_char c o = Some (t, r) -> (List.length r < n)%nat.
Proof.
  destruct o as [[t' r']|]; simpl; [|discriminate].
  intros H E; injection E as _ <-; eauto.
Qed.

Lemma parse_chars_length (s t r : jsstring) :
  parse_chars s = Some (t, r) -> (List.length r < List.length s)%nat.
Proof.
  remember (List.length s) as n eqn:Hn.
  revert s t r Hn; induction n as [n IH] using lt_wf_ind.
  intros [|c s] t r Hn; simpl; [discriminate|]; subst n; simpl.
  destruct (c =? 34); [intros H; injection H as _ <-; lia|].
  destruct (c =? 92).
  - destruct s as [|e s2]; [discriminate|].
    destruct (e =? 117).
    + destruct s2 as [|h1 [|h2 [|h3 [|h4 r3]]]]; try discriminate.
      destruct (hex4 h1 h2 h3 h4); [|discriminate].
      apply cons_char_length; intros t' r' H'.
      apply (IH (List.length r3)) in H'; simpl in *; lia.
    + destruct (simple_escape e); [|discriminate].
      apply cons_char_length; intros t' r' H'.
      apply (IH (List.length s2)) in H'; simpl in *; lia.
  - destruct (c <? 32); [discriminate|].
    apply cons_char_length; intros t' r' H'.
    apply (IH (List.length s)) in H'; simpl in *; lia.
Qed.

Lemma read_digits_length (s : jsstring) (acc : N) (k : nat) :
  (List.length (snd (read_digits s acc k)) <= List.length s)%nat.
Proof.
  revert acc k; induction s as [|c s IH]; intros acc k; simpl; [lia|].
  destruct (digit_val c) as [d|]; simpl; [|lia].
  apply Nat.le_trans with (1 := IH (10 * acc + d) (S k)); lia.
Qed.

Lemma parse_int_part_length (s r : jsstring) (m : N) :
  parse_int_part s = Some (m, r) -> (List.length r < List.length s)%nat.
Proof.
  unfold parse_int_part; destruct s as [|c s]; [discriminate|].
  destruct (c =? 48); [intros H; injection H as _ <-; simpl; lia|].
  destruct ((49 <=? c) && (c <=? 57)) eqn:Hd; [|discriminate].
  assert (Hv : digit_val c = Some (c - 48)).
  { unfold digit_val.
    apply andb_true_iff in Hd as [H1 H2]; apply N.leb_le in H1.
    replace (48 <=? c) with true by (symmetry; apply N.leb_le; lia).
    rewrite H2; reflexivity. }
  simpl; rewrite Hv.
  match goal with
  | |- context [read_digits ?a ?b ?k] =>
      pose proof (read_digits_length a b k) as L;
      destruct (read_digits a b k) as [[m' k'] r']
  end.
  intros H; injection H as _ <-; simpl in *; lia.
Qed.

Lemma parse_frac_length (m m' : N) (k : nat) (s r : jsstring) :
  parse_frac m s = Some (m', k, r) -> (List.length r <= List.length s)%nat.
Proof.
  unfold parse_frac; destruct s as [|c s];
    [intros H; injection H as _ _ <-; lia|].
  destruct (c =? 46).
  - pose proof (read_digits_length s m 0) as L.
    destruct (read_digits s m 0) as [[m1 k1] r1].
    destruct k1; [discriminate|].
    intros H; injection H as _ _ <-; simpl in *; lia.
  - intros H; injection H as _ _ <-; lia.
Qed.

Lemma parse_exp_length (e : Z) (s r : jsstring) :
  parse_exp s = Some (e, r) -> (List.length r <= List.length s)%nat.
Proof.
  unfold parse_exp; destruct s as [|c s];
    [intros H; injection H as _ <-; lia|].
  destruct ((c =? 101) || (c =? 69)); [|intros H; injection H as _ <-; lia].
  assert (L : forall neg r1,
             (List.length r1 <= List.length s)%nat ->
             (let '(e0, k, r2) := read_digits r1 0 0 in
              match k with
              | O => None
              | S _ => Some (if neg : bool then (- Z.of_N e0)%Z
                             else Z.of_N e0, r2)
              end) = Some (e, r) ->
             (List.length r <= List.length (c :: s))%nat).
  { intros neg r1 L1.
    pose proof (read_digits_length r1 0 0) as L2.
    destruct (read_digits r1 0 0) as [[e0 k] r2].
    destruct k; [discriminate|].
    intros H; injection H as _ <-; simpl in *; lia. }
  destruct s as [|sg r1]; [apply (L false []); simpl; lia|].
  destruct (sg =? 45); [apply (L true r1); simpl; lia|].
  destruct (sg =? 43); [apply (L false r1); simpl; lia|].
  apply (L false (sg :: r1)); simpl; lia.
Qed.

Lemma parse_number_length (s r : jsstring) (d : decimal) :
  parse_number s = Some (d, r) -> (List.length r < List.length s)%nat.
Proof.
  unfold parse_number.
  assert (L : forall neg s1,
             (List.length s1 <= List.length s)%nat ->
             match parse_int_part s1 with
             | None => None
             | Some (m, s2) =>
                 match parse_frac m s2 with
                 | None => None
                 | Some (m', k, s3) =>
                     match parse_exp s3 with
                     | None => None
                     | Some (e, s4) =>
                         Some ({| d_neg := neg; d_mant := m';
                                  d_exp10 := (e - Z.of_nat k)%Z |}, s4)
                     end
                 end
             end = Some (d, r) ->
             (List.length r < List.length s)%nat).
  { intros neg s1 L1.
    destruct (parse_int_part s1) as [[m s2]|] eqn:H1; [|discriminate].
    destruct (parse_frac m s2) as [[[m' k] s3]|] eqn:H2; [|discriminate].
    destruct (parse_exp s3) as [[e s4]|] eqn:H3; [|discriminate].
    apply parse_int_part_length in H1.
    apply parse_frac_length in H2.
    apply parse_exp_length in H3.
    intros H; injection H as _ <-; lia. }
  destruct s as [|c s']; [apply (L false []); simpl; lia|].
  destruct (c =? 45); [apply (L true s'); simpl; lia|].
  apply (L false (c :: s')); simpl; lia.
Qed.

(** Breaks one level of the parser down to its cases, keeping what each
    step says about the length of the remaining input. *)
Ltac parser_cases :=
  repeat match goal with
    | |- None = Some _ -> _ => discriminate
    | |- Some _ = Some _ -> _ =>
        let H := fresh in intros H; injection H as <- <-
    | |- context [match skip_ws ?s with _ => _ end] =>
        let L := fresh "L" in
        destruct (skip_ws s) eqn:L; [|apply skip_ws_cons_length in L]
    | |- context [match parse_chars ?s with _ => _ end] =>
        let L := fresh "L" in
        destruct (parse_chars s) as [[? ?]|] eqn:L;
        [apply parse_chars_length in L|]
    | |- context [match strip_prefix ?p ?s with _ => _ end] =>
        let L := fresh "L" in
        destruct (strip_prefix p s) eqn:L;
        [apply strip_prefix_length in L|]
    | |- context [match parse_number ?s with _ => _ end] =>
        let L := fresh "L" in
        destruct (parse_number s) as [[? ?]|] eqn:L;
        [apply parse_number_length in L|]
    | |- context [if ?b then _ else _] => destruct b
    end.

(** Every parser consumes input. *)
Lemma parse_consumes (fuel : nat) :
  (forall s v r, parse_value fuel s = Some (v, r) ->
                 (List.length r < List.length s)%nat)
  /\ (forall s acc v r, parse_elements fuel s acc = Some (v, r) ->
                        (List.length r < List.length s)%nat)
  /\ (forall s acc v r, parse_members fuel s acc = Some (v, r) ->
                        (List.length r < List.length s)%nat).
Proof.
  induction fuel as [|fuel (IHv & IHe & IHm)];
    [repeat split; intros; discriminate|].
  repeat split.
  - intros s v r; cbn [parse_value]; parser_cases;
      cbn [List.length] in *; try lia.
    all: try (intros H; first [apply IHm in H | apply IHe in H];
              cbn [List.length] in *; lia).
  - intros s acc v r; cbn [parse_elements].
    destruct (parse_value fuel s) as [[v1 r1]|] eqn:H1; [|discriminate].
    apply IHv in H1.
    parser_cases; cbn [List.length] in *; try lia.
    all: intros H; apply IHe in H; lia.
  - intros s acc v r; cbn [parse_members]; parser_cases;
      cbn [List.length] in *; try lia.
    destruct (parse_value fuel _) as [[v1 r1]|] eqn:H1; [|discriminate].
    apply IHv in H1.
    parser_cases; cbn [List.length] in *; try lia.
    all: intros H; apply IHm in H; lia.
Qed.

(** With enough fuel for the length of the input, more fuel changes
    nothing. *)
Lemma parse_fuel_stable (fuel : nat) :
  (forall s, (2 * List.length s + 1 <= fuel)%nat ->
             parse_value (S fuel) s = parse_value fuel s)
  /\ (forall s acc, (2 * List.length s + 2 <= fuel)%nat ->
                    parse_elements (S fuel) s acc = parse_elements fuel s acc)
  /\ (forall s acc, (2 * List.length s + 2 <= fuel)%nat ->
                    parse_members (S fuel) s acc = parse_members fuel s acc).
Proof.
  induction fuel as [|fuel (IHv & IHe & IHm)];
    [repeat split; intros; lia|].
  repeat split.
  - intros s Hs.
    cbn [parse_value].
    destruct (skip_ws s) as [|c r0] eqn:L0; [reflexivity|].
    apply skip_ws_cons_length in L0.
    destruct (c =? 123).
    { destruct (skip_ws r0) as [|c' r'] eqn:L1; [reflexivity|].
      apply skip_ws_cons_length in L1.
      destruct (c' =? 125); [reflexivity|].
      apply IHm; cbn [List.length]; lia. }
    destruct (c =? 91); [|reflexivity].
    destruct (skip_ws r0) as [|c' r'] eqn:L1; [reflexivity|].
    apply skip_ws_cons_length in L1.
    destruct (c' =? 93); [reflexivity|].
    apply IHe; cbn [List.length]; lia.
  - intros s acc Hs.
    cbn [parse_elements].
    rewrite IHv by lia.
    destruct (parse_value fuel s) as [[v1 r1]|] eqn:H1; [|reflexivity].
    apply (proj1 (parse_consumes fuel)) in H1.
    destruct (skip_ws r1) as [|c r'] eqn:L1; [reflexivity|].
    apply skip_ws_cons_length in L1.
    destruct (c =? 44); [|reflexivity].
    apply IHe; lia.
  - intros s acc Hs.
    cbn [parse_members].
    destruct (skip_ws s) as [|c r0] eqn:L0; [reflexivity|].
    apply skip_ws_cons_length in L0.
    destruct (c =? 34); [|reflexivity].
    destruct (parse_chars r0) as [[k r1]|] eqn:L1; [|reflexivity].
    apply parse_chars_length in L1.
    destruct (skip_ws r1) as [|c1 r2] eqn:L2; [reflexivity|].
    apply skip_ws_cons_length in L2.
    destruct (c1 =? 58); [|reflexivity].
    rewrite IHv by lia.
    destruct (parse_value fuel r2) as [[v1 r3]|] eqn:H1; [|reflexivity].
    apply (proj1 (parse_consumes fuel)) in H1.
    destruct (skip_ws r3) as [|c3 r4] eqn:L3; [reflexivity|].
    apply skip_ws_cons_length in L3.
    destruct (c3 =? 44); [|reflexivity].
    apply IHm; lia.
Qed.

(** [JSON_parse] gives the parser all the fuel it can use: with any
    larger amount the result is the same, so [None] always is a syntax
    error of the text. *)
Lemma JSON_parse_fuel (text : jsstring) (fuel : nat) :
  (2 * List.length text + 2 <= fuel)%nat ->
  parse_value fuel text = parse_value (2 * List.length text + 2) text.
Proof.
  induction 1 as [|fuel Hle IH]; [reflexivity|].
  rewrite (proj1 (parse_fuel_stable fuel)) by lia; exact IH.
Qed.

(** ** Lines of JSON text *)

Lemma whitespace_starts_no_value (c : N) :
  is_whitespace c = true ->
  (c =? 123) = false /\ (c =? 91) = false /\ (c =? 34) = false
  /\ (c =? 116) = false /\ (c =? 102) = false /\ (c =? 110) = false
  /\ (c =? 45) = false /\ (c =? 48) = false
  /\ ((49 <=? c) && (c <=? 57)) = false.
Proof.
  unfold is_whitespace; intros H.
  repeat rewrite ?orb_true_iff, ?andb_true_iff, ?N.leb_le, ?N.eqb_eq in H.
  repeat split;
    try (apply N.eqb_neq; lia);
    apply andb_false_iff; rewrite !N.leb_gt; lia.
Qed.

Lemma skip_ws_blank (s : jsstring) :
  forallb is_whitespace s = true -> forallb is_whitespace (skip_ws s) = true.
Proof.
  induction s as [|c s IH]; simpl; [reflexivity|].
  intros H; destruct (is_json_ws c); [|exact H].
  apply andb_true_iff in H as [_ H]; auto.
Qed.

(** Text made of white space only holds no JSON value. *)
Lemma parse_value_blank (fuel : nat) (s : jsstring) :
  forallb is_whitespace s = true -> parse_value fuel s = None.
Proof.
  intros H; destruct fuel as [|fuel]; [reflexivity|]; simpl.
  apply skip_ws_blank in H.
  destruct (skip_ws s) as [|c r]; [reflexivity|].
  simpl in H; apply andb_true_iff in H as [Hc _].
  destruct (whitespace_starts_no_value c Hc)
    as (H1 & H2 & H3 & H4 & H5 & H6 & H7 & H8 & H9).
  rewrite H1, H2, H3, H4, H5, H6.
  unfold parse_number, parse_int_part; rewrite H7, H8, H9; reflexivity.
Qed.

Lemma JSON_parse_blank (s : jsstring) :
  forallb is_whitespace s = true -> JSON_parse s = None.
Proof.
  intros H; unfold JSON_parse; rewrite parse_value_blank by exact H.
  reflexivity.
Qed.

(** A line that parses survives the filter of [lines_of]. *)
Lemma parsed_line_kept (l : jsstring) (v : JSValue) :
  JSON_parse l = Some v -> jsstring_eqb (trim l) [] = false.
Proof.
  intros Hp; apply not_true_is_false; intros Hb.
  apply jsstring_eqb_eq, trim_nil_blank, JSON_parse_blank in Hb; congruence.
Qed.

Lemma lines_of_line (l : jsstring) :
  no_lf l = true ->
  lines_of l = if jsstring_eqb (trim l) [] then [] else [l].
Proof.
  intros H; unfold lines_of; rewrite (split_lf_line l H); simpl.
  destruct (jsstring_eqb (trim l) []); reflexivity.
Qed.

Lemma fragment_content_parsed (l c : jsstring) :
  fragment_content l = Some c ->
  no_lf l = true /\ exists v, JSON_parse l = Some v.
Proof.
  unfold fragment_content; destruct (no_lf l); [|discriminate].
  destruct (JSON_parse l) as [v|]; [|discriminate]; eauto.
Qed.

(** Whole lines that are fragments come out of [lines_of] as they
    went in. *)
Lemma lines_of_unlines (g : list jsstring) (cs : list jsstring) :
  List.map fragment_content g = List.map Some cs ->
  lines_of (unlines g) = g.
Proof.
  revert cs; induction g as [|l g IH]; intros [|c cs] H; try discriminate;
    [reflexivity|].
  simpl in H; injection H as Hl Hg.
  unfold unlines; simpl; rewrite <- app_assoc; simpl.
  rewrite lines_of_app.
  destruct (fragment_content_parsed l c Hl) as [Hlf [v Hv]].
  rewrite (lines_of_line l Hlf), (parsed_line_kept l v Hv); simpl.
  f_equal; exact (IH cs Hg).
Qed.

(** ** The decoder at a line feed *)

Lemma decode_app (d : TextDecoder) (xs ys : list byte) :
  decode d (xs ++ ys) =
  let '(t1, d1) := decode d xs in
  let '(t2, d2) := decode d1 ys in
  (t1 ++ t2, d2).
Proof.
  revert d; induction xs as [|x xs IH]; intros d; simpl.
  - destruct (decode d ys); reflexivity.
  - destruct (utf8_step (utf8 d) (Byte.to_N x)) as [st cps].
    destruct (emit (bom_seen d) cps) as [seen out].
    rewrite IH.
    destruct (decode {| bom_seen := seen; utf8 := st |} xs) as [t1 d1].
    destruct (decode d1 ys) as [t2 d2].
    rewrite app_assoc; reflexivity.
Qed.

Lemma utf8_lead_lower (b : N) : 128 <= u_lower (fst (utf8_lead b)).
Proof.
  unfold utf8_lead.
  repeat match goal with
         | |- context [if ?c then _ else _] => destruct c
         end; simpl; lia.
Qed.

Lemma utf8_step_lower (st : utf8_state) (b : N) :
  128 <= u_lower (fst (utf8_step st b)).
Proof.
  unfold utf8_step.
  destruct (u_needed st =? 0); [apply utf8_lead_lower|].
  destruct (negb _).
  - pose proof (utf8_lead_lower b) as L.
    destruct (utf8_lead b); exact L.
  - destruct (u_seen st + 1 =? u_needed st); simpl; lia.
Qed.

Lemma decode_lower (d : TextDecoder) (bs : list byte) :
  128 <= u_lower (utf8 d) -> 128 <= u_lower (utf8 (snd (decode d bs))).
Proof.
  revert d; induction bs as [|b bs IH]; intros d Hd; simpl; [exact Hd|].
  pose proof (utf8_step_lower (utf8 d) (Byte.to_N b)) as L.
  destruct (utf8_step (utf8 d) (Byte.to_N b)) as [st cps].
  destruct (emit (bom_seen d) cps) as [seen out].
  specialize (IH {| bom_seen := seen; utf8 := st |} L).
  destruct (decode {| bom_seen := seen; utf8 := st |} bs); exact IH.
Qed.

(** A line feed ends whatever character was pending: the text decoded
    ends with the line feed and the decoder is at the start of a line. *)
Lemma decode_line_feed (d : TextDecoder) :
  128 <= u_lower (utf8 d) ->
  exists t, decode d [x0a] = (t ++ [10], line_start).
Proof.
  intros Hd; unfold decode, utf8_step.
  change (Byte.to_N x0a) with 10.
  destruct (u_needed (utf8 d) =? 0).
  - exists []; simpl; rewrite andb_false_r; reflexivity.
  - replace (u_lower (utf8 d) <=? 10) with false
      by (symmetry; apply N.leb_gt; lia).
    exists [65533]; simpl; rewrite andb_false_r; reflexivity.
Qed.

Lemma decode_app_eq (d d1 d2 : TextDecoder) (xs ys : list byte)
    (t1 t2 : jsstring) :
  decode d xs = (t1, d1) -> decode d1 ys = (t2, d2) ->
  decode d (xs ++ ys) = (t1 ++ t2, d2).
Proof. intros H1 H2; rewrite decode_app, H1, H2; reflexivity. Qed.

(** Bytes put in behind a line feed are decoded on their own. *)
Lemma decode_inserted_line (d : TextDecoder) (a b mb : list byte)
    (m : jsstring) :
  128 <= u_lower (utf8 d) ->
  fst (decode line_start (mb ++ [x0a])) = m ++ [10] ->
  exists ta tb d',
    decode d (a ++ x0a :: b) = (ta ++ 10 :: tb, d')
    /\ decode d (a ++ x0a :: mb ++ x0a :: b) = (ta ++ 10 :: m ++ 10 :: tb, d').
Proof.
  intros Hd Hm.
  pose proof (decode_lower d a Hd) as Ha.
  destruct (decode d a) as [t0 d0] eqn:H0; simpl in Ha.
  destruct (decode_line_feed d0 Ha) as [t1 H1].
  pose proof (decode_lower line_start mb) as Hb.
  destruct (decode line_start mb) as [t2 d2] eqn:H2; simpl in Hb.
  destruct (decode_line_feed d2) as [t3 H3]; [apply Hb; simpl; lia|].
  pose proof (decode_app_eq _ _ _ _ _ _ _ H2 H3) as Hmb.
  rewrite Hmb in Hm; simpl in Hm.
  destruct (decode line_start b) as [tb d'] eqn:H4.
  exists (t0 ++ t1), tb, d'; split.
  - change (a ++ x0a :: b) with (a ++ [x0a] ++ b).
    rewrite (decode_app_eq _ _ _ _ _ _ _ H0
               (decode_app_eq _ _ _ _ _ _ _ H1 H4)).
    rewrite <- !app_assoc; reflexivity.
  - replace (a ++ x0a :: mb ++ x0a :: b)
      with (a ++ [x0a] ++ (mb ++ [x0a]) ++ b)
      by (simpl; rewrite <- app_assoc; reflexivity).
    rewrite (decode_app_eq _ _ _ _ _ _ _ H0
               (decode_app_eq _ _ _ _ _ _ _ H1
                  (decode_app_eq _ _ _ _ _ _ _ Hmb H4))).
    rewrite Hm, <- ?app_assoc; simpl; rewrite <- ?app_assoc; reflexivity.
Qed.

(** The same for a stream of chunks: bytes put into a chunk behind one
    of its line feeds put a line into its text. *)
Lemma bytes_inserted_behind (pre post : list (list byte))
    (a b mb : list byte) (m : jsstring) (d : TextDecoder) :
  128 <= u_lower (utf8 d) ->
  fst (decode line_start (mb ++ [x0a])) = m ++ [10] ->
  line_inserted m
    (decode_chunks d (pre ++ (a ++ x0a :: b) :: post))
    (decode_chunks d (pre ++ (a ++ x0a :: mb ++ x0a :: b) :: post)).
Proof.
  intros Hd Hm; revert d Hd; induction pre as [|v pre IH]; intros d Hd; simpl.
  - destruct (decode_inserted_line d a b mb m Hd Hm)
      as (ta & tb & d' & -> & ->).
    apply inserted_behind.
  - pose proof (decode_lower d v Hd) as Hv.
    destruct (decode d v) as [t d1]; simpl in Hv.
    apply inserted_later, IH, Hv.
Qed.

(** ASCII bytes are decoded to themselves, in any chunking. *)
Lemma decode_ascii (seen : bool) (bs : list byte) :
  forallb (fun b => Byte.to_N b <=? 127) bs = true ->
  decode {| bom_seen := seen; utf8 := utf8_clean |} bs =
  (List.map Byte.to_N bs,
   {| bom_seen := match bs with [] => seen | _ :: _ => true end;
      utf8 := utf8_clean |}).
Proof.
  revert seen; induction bs as [|b bs IH]; intros seen H; [reflexivity|].
  simpl in H; apply andb_true_iff in H as [Hb Hbs].
  cbn [decode utf8 bom_seen]; unfold utf8_step, utf8_lead; simpl.
  rewrite Hb; simpl.
  replace (Byte.to_N b =? 65279) with false
    by (symmetry; apply N.eqb_neq; apply N.leb_le in Hb; lia).
  rewrite andb_false_r, (IH true Hbs); unfold utf16_units.
  replace (Byte.to_N b <? 65536) with true
    by (symmetry; apply N.ltb_lt; apply N.leb_le in Hb; lia).
  destruct bs; reflexivity.
Qed.

Lemma decode_chunks_ascii (seen : bool) (values : list (list byte)) :
  forallb (forallb (fun b => Byte.to_N b <=? 127)) values = true ->
  decode_chunks {| bom_seen := seen; utf8 := utf8_clean |} values =
  List.map (List.map Byte.to_N) values.
Proof.
  revert seen; induction values as [|v values IH]; intros seen H;
    [reflexivity|].
  simpl in H; apply andb_true_iff in H as [Hv Hvs].
  cbn [decode_chunks]; rewrite (decode_ascii seen v Hv), (IH _ Hvs).
  reflexivity.
Qed.

(** ** The relay handlers *)

(** ** Conversion to a string *)

Lemma ToString_array (E : Engine) (l : list JSValue) :
  ToString E (JArr l) =
  match ToString_elements E l with
  | Throw e => Throw e
  | Return ts => Return (join_comma ts)
  end.
Proof.
  cbn [ToString].
  replace ((fix elements (l0 : list JSValue) : outcome (list jsstring) :=
              match l0 with
              | [] => Return []
              | x :: r =>
                  match
                    match x with JNull => Return [] | _ => ToString E x end
                  with
                  | Throw e => Throw e
                  | Return t =>
                      match elements r with
                      | Throw e => Throw e
                      | Return ts => Return (t :: ts)
                      end
                  end
              end) l) with (ToString_elements E l); [reflexivity|].
  induction l as [|x r IH]; [reflexivity|].
  cbn [ToString_elements]; rewrite IH; reflexivity.
Qed.

(** Whatever ToString throws is the TypeError for a value that has no
    primitive: an object with a [toString] of its own is in the way. *)
Lemma ToString_throws (E : Engine) (v : JSValue) (e : js_error) :
  ToString E v = Throw e -> e = not_primitive E.
Proof.
  revert e; induction v as [|b|d|s|l IH|props _] using JSValue_nested_ind;
    intros e H; try discriminate.
  - destruct b; discriminate.
  - rewrite ToString_array in H.
    assert (Hel : forall e', ToString_elements E l = Throw e' ->
                             e' = not_primitive E).
    { clear H; induction IH as [|x r Hx _ IHr]; intros e' H';
        [discriminate|].
      cbn [ToString_elements] in H'.
      destruct (match x with JNull => Return [] | _ => ToString E x end)
        as [t|e0] eqn:Hx0.
      - destruct (ToString_elements E r) as [ts|e1]; [discriminate|].
        injection H' as <-; apply IHr; reflexivity.
      - injection H' as <-.
        destruct x; try discriminate; apply Hx; exact Hx0. }
    destruct (ToString_elements E l) as [ts|e0]; [discriminate|].
    injection H as <-; apply Hel; reflexivity.
  - cbn [ToString] in H.
    destruct (lookup (js "toString") props); [|discriminate].
    injection H as <-; reflexivity.
Qed.

Section RelayFacts.

Variable E : Engine.
Variable OLLAMA_API_URL : option jsstring.
Variable upstream : FetchRequest -> outcome FetchResponse.

Lemma network_calls_app (a b : list Event) :
  network_calls (a ++ b) = network_calls a ++ network_calls b.
Proof.
  induction a as [|[]]; simpl; rewrite ?IHa; reflexivity.
Qed.

(** C3: with the upstream URL unset, both handlers answer 500 with an
    [{ error: text }] envelope and make no network call. *)
Theorem unset_url_answers_500 (request_text : jsstring) :
  unset OLLAMA_API_URL = true ->
  (exists ev,
     GET E OLLAMA_API_URL upstream [] =
       (Return {| status := 500;
                  headers := [(js "content-type", js "application/json")];
                  body := JsonText (error_envelope not_configured) |}, ev)
     /\ network_calls ev = [])
  /\
  (exists ev,
     POST E OLLAMA_API_URL upstream request_text [] =
       (Return {| status := 500; headers := json_headers;
                  body := JsonText (error_envelope not_configured) |}, ev)
     /\ network_calls ev = []).
Proof.
  intros Hunset; unfold GET, POST; rewrite Hunset.
  split; eexists; split; reflexivity.
Qed.


(** C10: a request body that is not JSON is answered 400 with the error
    text 'Invalid JSON in request body.', and nothing is sent upstream. *)
Theorem invalid_json_answers_400 (request_text : jsstring) :
  unset OLLAMA_API_URL = false ->
  JSON_parse request_text = None ->
  exists ev,
    POST E OLLAMA_API_URL upstream request_text [] =
      (Return {| status := 400; headers := json_headers;
                 body := JsonText (error_envelope
                                     (js "Invalid JSON in request body.")) |},
       ev)
    /\ network_calls ev = [].
Proof.
  intros Hset Hparse.
  unfold POST, try_catch, bind, lift, JSON_parse_throwing.
  rewrite Hset, Hparse; simpl.
  eexists; split; reflexivity.
Qed.

(** Breaks an outcome of the handlers down to its cases. *)
Ltac handler_cases :=
  repeat match goal with
    | |- context [if ?b then _ else _] =>
        match type of b with
        | bool => destruct b eqn:?
        end; simpl
    end.

(** The upstream calls of the chat relay: none, or the one forwarded
    request. *)
Lemma POST_calls (request_text : jsstring) :
  network_calls (snd (POST E OLLAMA_API_URL upstream request_text [])) =
  if unset OLLAMA_API_URL then []
  else
    match JSON_parse request_text with
    | Some (JObj props) =>
        match lookup (js "model") props, lookup (js "messages") props with
        | Some model, Some messages =>
            if truthy model && truthy messages
            then match ToString E model with
                 | Return _ => [forwarded OLLAMA_API_URL model messages]
                 | Throw _ => []
                 end
            else []
        | _, _ => []
        end
    | _ => []
    end.
Proof.
  unfold POST, try_catch, bind, lift, JSON_parse_throwing, Relay.fetch,
    Response_new.
  destruct (unset OLLAMA_API_URL); [reflexivity|].
  destruct (JSON_parse request_text) as [v|]; [|reflexivity].
  destruct v as [| b | d | t | l | props]; try reflexivity.
  simpl.
  destruct (lookup (js "model") props) as [model|]; [|reflexivity].
  destruct (lookup (js "messages") props) as [messages|]; simpl;
    [|rewrite orb_true_r; reflexivity].
  destruct (truthy model); [|reflexivity].
  destruct (truthy messages); [|reflexivity].
  simpl.
  destruct (ToString E model) as [modelText|e0]; simpl;
    [|handler_cases; reflexivity].
  match goal with
  | |- context [upstream ?r] =>
      change r with (forwarded OLLAMA_API_URL model messages)
  end.
  destruct (upstream (forwarded OLLAMA_API_URL model messages)) as [r|e];
    simpl.
  - destruct (ok (up_status r)); simpl;
      [|destruct (up_text r); simpl]; handler_cases; reflexivity.
  - handler_cases; reflexivity.
Qed.

(** C2: whatever the request body says about [stream], the chat relay
    makes at most one upstream call, and the body of that call has
    [stream] set to true, next to the caller's [model] and [messages]. *)
Theorem chat_relay_forces_stream (request_text : jsstring)
    (requestBody model messages : JSValue) :
  JSON_parse request_text = Some requestBody ->
  get_prop E requestBody (js "model") = Return (Some model) ->
  get_prop E requestBody (js "messages") = Return (Some messages) ->
  let calls :=
    network_calls (snd (POST E OLLAMA_API_URL upstream request_text [])) in
  (List.length calls <= 1)%nat
  /\ (forall r, In r calls ->
       r = forwarded OLLAMA_API_URL model messages
       /\ stream_flag r = Some (JBool true)).
Proof.
  intros Hparse Hmodel Hmessages calls; subst calls.
  rewrite POST_calls, Hparse.
  destruct requestBody as [| b | d | t | l | props]; try discriminate.
  simpl in Hmodel, Hmessages.
  injection Hmodel as ->; injection Hmessages as ->.
  destruct (unset OLLAMA_API_URL); [split; [simpl; lia | intros r []]|].
  destruct (truthy model && truthy messages);
    [|split; [simpl; lia | intros r []]].
  destruct (ToString E model); [|split; [simpl; lia | intros r []]].
  split; [simpl; lia|].
  intros r [<- | []]; split; reflexivity.
Qed.

(** The answer of both handlers to a refused connection. *)
Lemma econnrefused_message_nonempty :
  econnrefused_message OLLAMA_API_URL <> [].
Proof. discriminate. Qed.

(** C4, amended: when the upstream fetch rejects with an Error whose
    cause has the code ECONNREFUSED, both handlers answer 503 with a
    non-empty [error] text.  (For the chat relay the request has passed
    validation and its model can be written into the log line, or no
    fetch is made.) *)
Theorem connection_refused_answers_503 (request_text : jsstring)
    (requestBody model messages : JSValue) (modelText : jsstring)
    (e : js_error) :
  unset OLLAMA_API_URL = false ->
  (forall r, upstream r = Throw e) ->
  instanceof_Error e = true ->
  err_cause_code e = Some (js "ECONNREFUSED") ->
  JSON_parse request_text = Some requestBody ->
  get_prop E requestBody (js "model") = Return (Some model) ->
  get_prop E requestBody (js "messages") = Return (Some messages) ->
  truthy model = true ->
  truthy messages = true ->
  ToString E model = Return modelText ->
  fst (GET E OLLAMA_API_URL upstream []) =
    Return {| status := 503;
              headers := [(js "content-type", js "application/json")];
              body := JsonText (error_envelope
                                  (econnrefused_message OLLAMA_API_URL)) |}
  /\ fst (POST E OLLAMA_API_URL upstream request_text []) =
    Return {| status := 503; headers := json_headers;
              body := JsonText (error_envelope
                                  (econnrefused_message OLLAMA_API_URL)) |}
  /\ econnrefused_message OLLAMA_API_URL <> [].
Proof.
  intros Hset Hup Herr Hcode Hparse Hmodel Hmessages Hm Hms Htext.
  split; [|split; [|apply econnrefused_message_nonempty]].
  - unfold GET, try_catch, bind, lift, Relay.fetch; rewrite Hset; simpl.
    rewrite Hup; simpl.
    unfold cause_code_is; rewrite Herr, Hcode; reflexivity.
  - unfold POST, try_catch, bind, lift, Relay.fetch, JSON_parse_throwing.
    rewrite Hset, Hparse, Hmodel, Hmessages; simpl.
    rewrite Hm, Hms; simpl.
    rewrite Htext; simpl.
    rewrite Hup; simpl.
    unfold cause_code_is; rewrite Herr, Hcode; reflexivity.
Qed.

(** Any other rejected fetch is answered 500 by the model listing. *)
Lemma other_rejection_answers_500 (e : js_error) :
  unset OLLAMA_API_URL = false ->
  (forall r, upstream r = Throw e) ->
  instanceof_Error e && cause_code_is (js "ECONNREFUSED") e = false ->
  exists resp,
    fst (GET E OLLAMA_API_URL upstream []) = Return resp
    /\ status resp = 500%Z.
Proof.
  intros Hset Hup Hother.
  unfold GET, try_catch, bind, lift, Relay.fetch; rewrite Hset; simpl.
  rewrite Hup; simpl; rewrite Hother; simpl.
  eexists; split; reflexivity.
Qed.

(** Once a request has passed validation and its model has gone into
    the log line, the chat relay always answers, and never with the
    text of the validation envelope. *)
Lemma POST_forwarded_answer (request_text : jsstring)
    (requestBody model messages : JSValue) (modelText : jsstring) :
  unset OLLAMA_API_URL = false ->
  JSON_parse request_text = Some requestBody ->
  get_prop E requestBody (js "model") = Return (Some model) ->
  get_prop E requestBody (js "messages") = Return (Some messages) ->
  truthy model = true ->
  truthy messages = true ->
  ToString E model = Return modelText ->
  exists resp,
    fst (POST E OLLAMA_API_URL upstream request_text []) = Return resp
    /\ error_field resp <> Some (JStr validation_text).
Proof.
  intros Hset Hparse Hmodel Hmessages Hm Hms Htext.
  unfold POST, try_catch, bind, lift, Relay.fetch, JSON_parse_throwing,
    Response_new.
  rewrite Hset, Hparse, Hmodel, Hmessages; simpl.
  rewrite Hm, Hms; simpl.
  rewrite Htext; simpl.
  match goal with
  | |- context [upstream ?r] => destruct (upstream r) as [r0|e0]; simpl
  end.
  - destruct (ok (up_status r0)); simpl;
      [|destruct (up_text r0); simpl]; handler_cases;
      eexists; (split; [reflexivity | discriminate]).
  - handler_cases; eexists; (split; [reflexivity | discriminate]).
Qed.

(** C9, amended: a request whose [model] is a non-empty string and whose
    [messages] is the empty array passes validation: exactly one request
    goes upstream, carrying the empty array, and the answer does not
    carry the error text of the validation envelope, whatever its status
    and headers.  A request whose [model] is the empty string is
    answered 400 with the validation envelope and nothing goes upstream. *)
Theorem empty_array_passes_empty_model_fails (request_text : jsstring)
    (requestBody : JSValue) (model : jsstring) :
  unset OLLAMA_API_URL = false ->
  JSON_parse request_text = Some requestBody ->
  get_prop E requestBody (js "model") = Return (Some (JStr model)) ->
  (model <> [] ->
   get_prop E requestBody (js "messages") = Return (Some (JArr [])) ->
   network_calls (snd (POST E OLLAMA_API_URL upstream request_text [])) =
     [forwarded OLLAMA_API_URL (JStr model) (JArr [])]
   /\ exists resp,
        fst (POST E OLLAMA_API_URL upstream request_text []) = Return resp
        /\ error_field resp <> Some (JStr validation_text))
  /\ (model = [] ->
      POST E OLLAMA_API_URL upstream request_text [] =
        (Return validation_error, [])).
Proof.
  intros Hset Hparse Hmodel; split.
  - intros Hne Hmessages.
    assert (Ht : truthy (JStr model) = true)
      by (destruct model; [contradiction | reflexivity]).
    split.
    + rewrite POST_calls, Hset, Hparse.
      destruct requestBody as [| b | d | t | l | props]; try discriminate.
      simpl in Hmodel, Hmessages.
      injection Hmodel as ->; injection Hmessages as ->.
      rewrite Ht; reflexivity.
    + apply (POST_forwarded_answer request_text requestBody (JStr model)
               (JArr []) model); auto.
  - intros ->.
    unfold POST, try_catch, bind, lift, JSON_parse_throwing.
    rewrite Hset, Hparse, Hmodel; simpl.
    destruct (get_prop E requestBody (js "messages")) eqn:Hmessages;
      [reflexivity|].
    destruct requestBody; discriminate.
Qed.

(** Both handlers always answer: whatever is thrown on the way is
    caught and turned into a response. *)
Lemma GET_answers :
  exists resp ev, GET E OLLAMA_API_URL upstream [] = (Return resp, ev).
Proof.
  unfold GET, try_catch, bind, lift, Relay.fetch, json, up_json,
    JSON_parse_throwing, Response_new.
  destruct (unset OLLAMA_API_URL); simpl; [eauto|].
  match goal with
  | |- context [upstream ?r] => destruct (upstream r) as [r0|e0]; simpl
  end.
  - destruct (ok (up_status r0)); simpl; destruct (up_text r0); simpl;
      try (destruct (JSON_parse _); simpl); handler_cases; eauto.
  - handler_cases; eauto.
Qed.

Lemma POST_answers (request_text : jsstring) :
  exists resp ev,
    POST E OLLAMA_API_URL upstream request_text [] = (Return resp, ev).
Proof.
  unfold POST, try_catch, bind, lift, Relay.fetch, JSON_parse_throwing,
    Response_new.
  destruct (unset OLLAMA_API_URL); simpl; [eauto|].
  destruct (JSON_parse request_text) as [v|]; simpl; [|eauto].
  destruct (get_prop E v (js "model")) as [model|e1] eqn:H1; simpl;
    [|handler_cases; eauto].
  destruct (get_prop E v (js "messages")) as [messages|e2] eqn:H2; simpl;
    [|handler_cases; eauto].
  destruct (negb (truthy_opt model) || negb (truthy_opt messages));
    simpl; [eauto|].
  destruct (ToString_opt E model) as [modelText|e3]; simpl;
    [|handler_cases; eauto].
  match goal with
  | |- context [upstream ?r] => destruct (upstream r) as [r0|e0]; simpl
  end.
  - destruct (ok (up_status r0)); simpl;
      [|destruct (up_text r0); simpl]; handler_cases; eauto.
  - handler_cases; eauto.
Qed.

(** The body [null] has no fields to miss: destructuring it throws, and
    the chat relay answers 500; nothing is sent upstream. *)
Lemma null_body_answers_500 (request_text : jsstring) :
  unset OLLAMA_API_URL = false ->
  JSON_parse request_text = Some JNull ->
  exists ev,
    POST E OLLAMA_API_URL upstream request_text [] =
      (Return {| status := 500; headers := json_headers;
                 body := JsonText
                           (error_envelope
                              (js "An unexpected error occurred in the chat API.")) |},
       ev)
    /\ network_calls ev = [].
Proof.
  intros Hset Hparse.
  unfold POST, try_catch, bind, lift, JSON_parse_throwing.
  rewrite Hset, Hparse; simpl.
  eexists; split; reflexivity.
Qed.

End RelayFacts.

(** ** The stream loop *)

Section Loop.

Variable E : Engine.

Lemma set_messages_same (c : Component) : set_messages (messages c) c = c.
Proof. destruct c; reflexivity. Qed.

Lemma set_messages_twice (a b : list ChatMessage) (c : Component) :
  set_messages b (set_messages a c) = set_messages b c.
Proof. reflexivity. Qed.

(** One line either extends the assistant message or leaves the page as
    it is, apart from what it logs. *)
Lemma handle_line_eq (line acc : jsstring) (w : World) :
  handle_line E line acc w =
  match line_content E line with
  | Some c =>
      (Return (acc ++ c),
       {| component :=
            set_messages (set_last_content (acc ++ c) (messages (component w)))
              (component w);
          events := events w |})
  | None =>
      (Return acc,
       {| component := component w;
          events := events w ++ line_log E line |})
  end.
Proof.
  destruct w as [c ev].
  unfold handle_line, line_content, line_log, line_error, try_catch, bind,
    lift, JSON_parse_throwing.
  destruct (JSON_parse line) as [v|]; simpl; [|reflexivity].
  destruct v as [| b | d | s | l | props]; simpl;
    try reflexivity; try (rewrite app_nil_r; reflexivity).
  destruct (lookup (js "message") props) as [m|]; simpl;
    [|rewrite app_nil_r; reflexivity].
  destruct m as [| b | d | s | l | mprops]; simpl;
    try (rewrite app_nil_r; reflexivity).
  - destruct b; simpl; rewrite app_nil_r; reflexivity.
  - destruct (decimal_is_zero d); simpl; rewrite app_nil_r; reflexivity.
  - destruct s; simpl; rewrite app_nil_r; reflexivity.
  - destruct (lookup (js "content") mprops) as [ct|]; simpl;
      [|rewrite app_nil_r; reflexivity].
    destruct (truthy ct); simpl; [|rewrite app_nil_r; reflexivity].
    destruct (ToString E ct) as [text|e]; reflexivity.
Qed.

Lemma line_content_silent (line c : jsstring) :
  line_content E line = Some c -> line_log E line = [].
Proof.
  unfold line_content, line_log, line_error.
  destruct (JSON_parse line) as [[| | | | | props]|]; try discriminate.
  destruct (lookup (js "message") props) as [[| | | | | mprops]|];
    try discriminate.
  destruct (lookup (js "content") mprops) as [ct|]; try discriminate.
  destruct (truthy ct); try discriminate.
  destruct (ToString E ct); [reflexivity | discriminate].
Qed.

Lemma handle_lines_eq (lines : list jsstring) (acc : jsstring) (w : World) :
  handle_lines E lines acc w =
  (Return (fst (assemble E lines acc (messages (component w)))),
   {| component :=
        set_messages (snd (assemble E lines acc (messages (component w))))
          (component w);
      events := events w ++ lines_log E lines |}).
Proof.
  revert acc w; induction lines as [|l r IH]; intros acc [c ev]; simpl.
  - unfold ret; rewrite set_messages_same, app_nil_r; reflexivity.
  - unfold bind; rewrite handle_line_eq.
    destruct (line_content E l) as [ct|] eqn:Hl; simpl; rewrite IH; simpl.
    + unfold lines_log at 2; simpl.
      rewrite (line_content_silent l ct Hl); reflexivity.
    + unfold lines_log at 2; simpl; rewrite app_assoc; reflexivity.
Qed.

Lemma assemble_app (l1 l2 : list jsstring) (acc : jsstring)
    (ms : list ChatMessage) :
  assemble E (l1 ++ l2) acc ms =
  assemble E l2 (fst (assemble E l1 acc ms)) (snd (assemble E l1 acc ms)).
Proof.
  revert acc ms; induction l1 as [|l r IH]; intros acc ms; simpl;
    [reflexivity|].
  destruct (line_content E l); apply IH.
Qed.

Lemma lines_log_app (l1 l2 : list jsstring) :
  lines_log E (l1 ++ l2) = lines_log E l1 ++ lines_log E l2.
Proof. apply flat_map_app. Qed.

(** The whole loop: it handles the lines of the decoded chunks in order
    and goes on as the stream does. *)
Lemma read_loop_eq (values : list (list byte)) (f : StreamEnd)
    (d : TextDecoder) (acc : jsstring) (w : World) :
  let lines := List.concat (List.map lines_of (decode_chunks d values)) in
  read_loop E values f d acc w =
  (match f with
   | Closes => Settled (Return tt)
   | Fails e => Settled (Throw e)
   | Hangs => Pending
   end,
   {| component :=
        set_messages (snd (assemble E lines acc (messages (component w))))
          (component w);
      events := events w ++ lines_log E lines |}).
Proof.
  revert d acc w; induction values as [|v rest IH]; intros d acc [c ev]; simpl.
  - rewrite set_messages_same, app_nil_r.
    destruct f; reflexivity.
  - destruct (decode d v) as [chunk d'] eqn:Hd; simpl.
    unfold bind_async, settled; rewrite handle_lines_eq; simpl.
    rewrite IH; simpl.
    rewrite assemble_app, lines_log_app, app_assoc; reflexivity.
Qed.

End Loop.

(** ** The assistant's turn *)

Section Assembly.

Variable E : Engine.

Lemma map_index_last {A} (g : A -> A) (l : list A) (x : A) (i k : Z) :
  (k = i + Z.of_nat (List.length l))%Z ->
  map_index (fun a idx => if (idx =? k)%Z then g a else a) (l ++ [x]) i
  = l ++ [g x].
Proof.
  revert i; induction l as [|a l IH]; intros i Hk; simpl in *.
  - replace (i =? k)%Z with true by (symmetry; apply Z.eqb_eq; lia).
    reflexivity.
  - replace (i =? k)%Z with false by (symmetry; apply Z.eqb_neq; lia).
    rewrite IH by lia; reflexivity.
Qed.

Lemma set_last_content_last (c : jsstring) (base : list ChatMessage)
    (m : ChatMessage) :
  set_last_content c (base ++ [m]) = base ++ [{| role := role m; content := c |}].
Proof.
  unfold set_last_content.
  apply (map_index_last (fun msg => {| role := role msg; content := c |})).
  rewrite length_app; simpl; lia.
Qed.

Lemma assemble_fst (lines : list jsstring) (acc : jsstring)
    (ms : list ChatMessage) :
  fst (assemble E lines acc ms) = acc ++ List.concat (contents E lines).
Proof.
  revert acc ms; induction lines as [|l r IH]; intros acc ms; simpl.
  - rewrite app_nil_r; reflexivity.
  - destruct (line_content E l) as [c|]; simpl; rewrite IH;
      [rewrite app_assoc|]; reflexivity.
Qed.

Lemma assemble_snd (lines : list jsstring) (acc : jsstring)
    (base : list ChatMessage) (m : ChatMessage) :
  snd (assemble E lines acc (base ++ [m])) =
  base ++ [match contents E lines with
           | [] => m
           | _ :: _ => {| role := role m;
                          content := acc ++ List.concat (contents E lines) |}
           end].
Proof.
  revert acc m; induction lines as [|l r IH]; intros acc m; simpl;
    [reflexivity|].
  destruct (line_content E l) as [c|]; simpl; [|apply IH].
  rewrite set_last_content_last, IH; simpl.
  destruct (contents E r); simpl.
  - rewrite app_nil_r; reflexivity.
  - rewrite <- !app_assoc; reflexivity.
Qed.

(** After the placeholder has been appended, the lines leave the
    assistant's turn holding [shown_text]. *)
Lemma assemble_placeholder (lines : list jsstring) (base : list ChatMessage) :
  snd (assemble E lines [] (base ++ [assistant_turn placeholder])) =
  base ++ [assistant_turn (shown_text E lines)].
Proof.
  rewrite assemble_snd; unfold shown_text, assistant_turn.
  destruct (contents E lines); reflexivity.
Qed.

End Assembly.

(** ** [handleSubmit] on a streamed answer *)

Section Submit.

Variable E : Engine.
Variable relay : FetchRequest -> outcome FetchResponse.

(** The page after [handleSubmit] has read a stream to its end or to
    its failure, or where it waits when the stream hangs. *)
Lemma handleSubmit_stream (w : World) (resp : FetchResponse)
    (st : ByteStream) :
  let c := component w in
  let base := messages c ++ [user_turn c] in
  let req := chat_request (selectedModel c) base in
  let lines := stream_lines (chunks st) in
  let text := shown_text E lines in
  submittable c = true ->
  relay req = Return resp ->
  ok (up_status resp) = true ->
  up_body resp = Some st ->
  handleSubmit E relay w =
  (match ending st with
   | Hangs => Pending
   | _ => Settled (Return tt)
   end,
   {| component :=
        {| messages :=
             match ending st with
             | Fails _ =>
                 if jsstring_eqb text placeholder then base
                 else base ++ [assistant_turn text]
             | _ => base ++ [assistant_turn text]
             end;
           userInput := [];
           selectedModel := selectedModel c;
           availableModels := availableModels c;
           isLoading := match ending st with Hangs => true | _ => false end;
           isLoadingModels := isLoadingModels c;
           errorMessage :=
             match ending st with
             | Fails e => js "Error sending message: " ++ err_message e
             | _ => []
             end |};
      events :=
        events w ++ [Fetch req] ++ lines_log E lines
        ++ match ending st with
           | Fails e => [ConsoleError [Err e]]
           | _ => []
           end |}).
Proof.
  destruct w as [c ev]; simpl.
  intros Hsub Hrelay Hok Hbody.
  unfold submittable in Hsub; apply andb_true_iff in Hsub as [Hin Hmodel].
  apply negb_true_iff in Hin, Hmodel.
  unfold handleSubmit, bind_async, settled, gets, finally_async,
    try_catch_async; simpl.
  rewrite Hin, Hmodel; simpl.
  unfold fetch; simpl.
  unfold user_turn in Hrelay; rewrite Hrelay, Hok, Hbody; simpl.
  rewrite read_loop_eq; simpl.
  fold (stream_lines (chunks st)).
  change {| role := assistant; content := placeholder |}
    with (assistant_turn placeholder).
  rewrite assemble_placeholder.
  destruct (ending st) as [|e|]; simpl.
  - rewrite app_nil_r, <- !app_assoc; reflexivity.
  - unfold bind, gets; simpl.
    rewrite map_app; cbn [map]; rewrite last_last, removelast_last.
    cbn [is_placeholder assistant_turn role content Role_eqb andb].
    destruct (jsstring_eqb (shown_text E (stream_lines (chunks st))) placeholder);
      simpl; rewrite <- ?app_assoc; reflexivity.
  - rewrite app_nil_r, <- !app_assoc; reflexivity.
Qed.

End Submit.

(** ** What the page shows *)

Section PageFacts.

Variable E : Engine.

Lemma fragment_line_content (l c : jsstring) :
  fragment_content l = Some c ->
  line_content E l = match c with [] => None | _ :: _ => Some c end.
Proof.
  unfold fragment_content, line_content.
  destruct (no_lf l); [|discriminate].
  destruct (JSON_parse l) as [[| | | | | props]|]; try discriminate.
  destruct (lookup (js "message") props) as [[| | | | | mprops]|];
    try discriminate.
  destruct (lookup (js "content") mprops) as [[| | | t | |]|];
    try discriminate.
  intros H; injection H as ->; destruct c; reflexivity.
Qed.

Lemma contents_fragments (lines cs : list jsstring) :
  List.map fragment_content lines = List.map Some cs ->
  contents E lines = List.filter (fun c => negb (jsstring_eqb c [])) cs.
Proof.
  revert cs; induction lines as [|l r IH]; intros [|c cs] H; try discriminate;
    [reflexivity|].
  simpl in H; injection H as Hl Hr; simpl.
  rewrite (fragment_line_content l c Hl), (IH cs Hr).
  destruct c; reflexivity.
Qed.

Lemma concat_nonempty_filter (cs : list jsstring) :
  List.concat (List.filter (fun c => negb (jsstring_eqb c [])) cs)
  = List.concat cs.
Proof.
  induction cs as [|c cs IH]; simpl; [reflexivity|].
  destruct c; simpl; rewrite IH; reflexivity.
Qed.

(** What fragments leave in the assistant's turn: their contents in
    order, or the placeholder when all of them are empty. *)
Lemma shown_text_fragments (lines cs : list jsstring) :
  List.map fragment_content lines = List.map Some cs ->
  shown_text E lines =
    match List.concat cs with [] => placeholder | t => t end.
Proof.
  intros H; unfold shown_text.
  rewrite (contents_fragments lines cs H), concat_nonempty_filter.
  clear H; induction cs as [|c cs IH]; simpl; [reflexivity|].
  destruct c as [|x c]; simpl; [exact IH | reflexivity].
Qed.

Lemma map_fragment_split (g : list jsstring) (rest : list jsstring)
    (cs : list jsstring) :
  List.map fragment_content (g ++ rest) = List.map Some cs ->
  exists cs1 cs2,
    List.map fragment_content g = List.map Some cs1
    /\ List.map fragment_content rest = List.map Some cs2.
Proof.
  revert cs; induction g as [|l g IH]; intros cs H; simpl in *.
  - exists [], cs; auto.
  - destruct cs as [|c cs]; [discriminate|].
    simpl in H; injection H as Hl Hg.
    destruct (IH cs Hg) as (cs1 & cs2 & H1 & H2).
    exists (c :: cs1), cs2; simpl; rewrite Hl, H1; auto.
Qed.

(** Chunks of whole fragment lines give the loop exactly those lines. *)
Lemma lines_of_whole_line_chunks (groups : list (list jsstring))
    (cs : list jsstring) :
  List.map fragment_content (List.concat groups) = List.map Some cs ->
  List.concat (List.map lines_of (List.map unlines groups))
  = List.concat groups.
Proof.
  revert cs; induction groups as [|g groups IH]; intros cs H; simpl in *;
    [reflexivity|].
  destruct (map_fragment_split g _ cs H) as (cs1 & cs2 & H1 & H2).
  rewrite (lines_of_unlines g cs1 H1), (IH cs2 H2); reflexivity.
Qed.

Variable relay : FetchRequest -> outcome FetchResponse.

(** C7: an input that is empty or all white space changes neither the
    history nor anything outside the page: no network call is made. *)
Theorem blank_input_does_nothing (w : World) :
  forallb is_whitespace (userInput (component w)) = true ->
  let w' := snd (handleSubmit E relay w) in
  messages (component w') = messages (component w)
  /\ events w' = events w
  /\ network_calls (events w') = network_calls (events w).
Proof.
  intros H; destruct w as [c ev]; simpl in *.
  unfold handleSubmit, bind_async, settled, gets; simpl.
  rewrite (trim_blank _ H); simpl; auto.
Qed.

(** C1, amended: when every chunk holds whole lines, each a well-formed
    fragment with content [c1 .. cn], the assistant's turn shown after
    the stream has closed is [c1 ++ .. ++ cn]; it is the placeholder
    when that text is empty. *)
Theorem whole_line_chunks_assemble (w : World) (resp : FetchResponse)
    (values : list (list byte)) (groups : list (list jsstring))
    (cs : list jsstring) :
  let c := component w in
  submittable c = true ->
  relay (chat_request (selectedModel c) (messages c ++ [user_turn c]))
    = Return resp ->
  ok (up_status resp) = true ->
  up_body resp = Some {| chunks := values; ending := Closes |} ->
  decode_chunks TextDecoder_new values = List.map unlines groups ->
  List.map fragment_content (List.concat groups) = List.map Some cs ->
  messages (component (snd (handleSubmit E relay w))) =
    messages c
    ++ [user_turn c;
        assistant_turn
          (match List.concat cs with [] => placeholder | t => t end)].
Proof.
  intros c Hsub Hrelay Hok Hbody Hdec Hfrag.
  rewrite (handleSubmit_stream E relay w resp _ Hsub Hrelay Hok Hbody); simpl.
  unfold stream_lines.
  rewrite Hdec, (lines_of_whole_line_chunks groups cs Hfrag).
  rewrite (shown_text_fragments _ cs Hfrag), <- app_assoc; reflexivity.
Qed.

(** C8: when reading the stream fails before any line has added content,
    the placeholder is taken out again: the history ends with the
    user's turn. *)
Theorem failure_before_content_drops_placeholder (w : World)
    (resp : FetchResponse) (values : list (list byte)) (e : js_error) :
  let c := component w in
  submittable c = true ->
  relay (chat_request (selectedModel c) (messages c ++ [user_turn c]))
    = Return resp ->
  ok (up_status resp) = true ->
  up_body resp = Some {| chunks := values; ending := Fails e |} ->
  contents E (stream_lines values) = [] ->
  let w' := snd (handleSubmit E relay w) in
  messages (component w') = messages c ++ [user_turn c]
  /\ errorMessage (component w') =
       js "Error sending message: " ++ err_message e.
Proof.
  intros c Hsub Hrelay Hok Hbody Hnone.
  rewrite (handleSubmit_stream E relay w resp _ Hsub Hrelay Hok Hbody); simpl.
  unfold shown_text; rewrite Hnone, jsstring_eqb_refl; auto.
Qed.

End PageFacts.

(** ** A malformed line in the stream *)

Section Malformed.

Variable E : Engine.

Lemma console_errors_app (a b : list Event) :
  console_errors (a ++ b) = console_errors a ++ console_errors b.
Proof.
  induction a as [|[]]; simpl; rewrite ?IHa; reflexivity.
Qed.

Lemma lines_log_no_calls (lines : list jsstring) :
  network_calls (lines_log E lines) = [].
Proof.
  induction lines as [|l r IH]; [reflexivity|].
  unfold lines_log in *; simpl; rewrite network_calls_app, IH.
  unfold line_log; destruct (line_error E l); reflexivity.
Qed.

Lemma contents_app (l1 l2 : list jsstring) :
  contents E (l1 ++ l2) = contents E l1 ++ contents E l2.
Proof.
  induction l1 as [|l r IH]; simpl; [reflexivity|].
  destruct (line_content E l); simpl; rewrite IH; reflexivity.
Qed.

(** The lines of the chunk texts with [m] put in are the lines without
    it, with the lines of [m] at one place. *)
Lemma lines_inserted (m : jsstring) (t1 t2 : list jsstring) :
  line_inserted m t1 t2 ->
  exists l1 l2,
    List.concat (List.map lines_of t1) = l1 ++ l2
    /\ List.concat (List.map lines_of t2) = l1 ++ lines_of m ++ l2.
Proof.
  induction 1 as [a b rest | b rest | rest | t r1 r2 _ IH]; simpl.
  - exists (lines_of a), (lines_of b ++ List.concat (List.map lines_of rest)).
    rewrite !lines_of_app, <- !app_assoc; auto.
  - exists [], (lines_of b ++ List.concat (List.map lines_of rest)).
    rewrite lines_of_app, <- !app_assoc; auto.
  - exists [], (List.concat (List.map lines_of rest)).
    rewrite lines_of_app, lines_of_nil, app_nil_r; auto.
  - destruct IH as (l1 & l2 & H1 & H2).
    exists (lines_of t ++ l1), l2.
    rewrite H1, H2, <- !app_assoc; auto.
Qed.

Lemma malformed_adds_nothing (m : jsstring) :
  no_lf m = true -> JSON_parse m = None ->
  contents E (lines_of m) = []
  /\ lines_log E (lines_of m) =
       if jsstring_eqb (trim m) [] then []
       else [ConsoleError (malformed_entry E m)].
Proof.
  intros Hlf Hp; rewrite (lines_of_line m Hlf).
  destruct (jsstring_eqb (trim m) []); [split; reflexivity|].
  assert (Hc : line_content E m = None)
    by (unfold line_content; rewrite Hp; reflexivity).
  assert (He : line_error E m
               = Some (engine_error E SyntaxError (BadJSON m)))
    by (unfold line_error; rewrite Hp; reflexivity).
  unfold lines_log, line_log; simpl; rewrite Hc, He; split; reflexivity.
Qed.

(** C6: a line that is not JSON, put into the stream where a line
    starts, is skipped: the page ends in the same state, so the
    assistant's turn is unchanged and no error is shown; the stream is
    read on as far as it goes, to its end when it has one; and the
    line, unless it is blank, is logged with [console.error]. *)
Theorem malformed_line_is_skipped
    (relay1 relay2 : FetchRequest -> outcome FetchResponse) (w : World)
    (resp1 resp2 : FetchResponse) (values1 values2 : list (list byte))
    (f : StreamEnd) (m : jsstring) :
  let c := component w in
  let req := chat_request (selectedModel c) (messages c ++ [user_turn c]) in
  submittable c = true ->
  relay1 req = Return resp1 -> ok (up_status resp1) = true ->
  up_body resp1 = Some {| chunks := values1; ending := f |} ->
  relay2 req = Return resp2 -> ok (up_status resp2) = true ->
  up_body resp2 = Some {| chunks := values2; ending := f |} ->
  no_lf m = true ->
  JSON_parse m = None ->
  line_inserted m (decode_chunks TextDecoder_new values1)
                  (decode_chunks TextDecoder_new values2) ->
  let w1 := snd (handleSubmit E relay1 w) in
  let w2 := snd (handleSubmit E relay2 w) in
  (f <> Hangs -> fst (handleSubmit E relay2 w) = Settled (Return tt))
  /\ fst (handleSubmit E relay2 w) = fst (handleSubmit E relay1 w)
  /\ component w2 = component w1
  /\ (f = Closes -> errorMessage (component w2) = [])
  /\ network_calls (events w2) = network_calls (events w1)
  /\ (jsstring_eqb (trim m) [] = false ->
      exists before after,
        console_errors (events w1) = before ++ after
        /\ console_errors (events w2) =
             before ++ malformed_entry E m :: after).
Proof.
  intros c req Hsub Hr1 Hok1 Hb1 Hr2 Hok2 Hb2 Hlf Hp Hins.
  rewrite (handleSubmit_stream E relay1 w resp1 _ Hsub Hr1 Hok1 Hb1).
  rewrite (handleSubmit_stream E relay2 w resp2 _ Hsub Hr2 Hok2 Hb2).
  cbn [fst snd component events chunks ending].
  destruct (lines_inserted m _ _ Hins) as (l1 & l2 & H1 & H2).
  destruct (malformed_adds_nothing m Hlf Hp) as [Hc Hl].
  unfold stream_lines; rewrite H1, H2.
  assert (Hshown : shown_text E (l1 ++ lines_of m ++ l2)
                   = shown_text E (l1 ++ l2)).
  { unfold shown_text; rewrite !contents_app, Hc; reflexivity. }
  rewrite Hshown.
  split; [destruct f; [reflexivity .. | congruence]|].
  split; [reflexivity|].
  split; [reflexivity|].
  split; [intros ->; reflexivity|].
  split.
  - rewrite !network_calls_app, !lines_log_no_calls; reflexivity.
  - intros Hkept; rewrite Hkept in Hl.
    exists (console_errors (events w ++ [Fetch req] ++ lines_log E l1)),
           (console_errors
              (lines_log E l2
               ++ match f with
                  | Fails e => [ConsoleError [Err e]]
                  | _ => []
                  end)).
    rewrite <- !console_errors_app.
    split.
    + rewrite lines_log_app, <- !app_assoc; reflexivity.
    + rewrite !lines_log_app, Hl, !console_errors_app; simpl.
      rewrite <- !app_assoc; reflexivity.
Qed.

End Malformed.

(** ** Every path through [handleSubmit] *)

Section SubmitPaths.

Variable E : Engine.
Variable relay : FetchRequest -> outcome FetchResponse.

(** The first test fails: only the error text changes. *)
Lemma handleSubmit_refused (w : World) :
  submittable (component w) = false ->
  handleSubmit E relay w =
  (Settled (Return tt),
   {| component :=
        Page.set_errorMessage
          (js "Please enter a message and select a model.") (component w);
      events := events w |}).
Proof.
  destruct w as [c ev]; unfold submittable; simpl; intros H.
  unfold handleSubmit, bind_async, settled, gets; simpl.
  apply andb_false_iff in H.
  replace (jsstring_eqb (trim (Page.userInput c)) []
           || jsstring_eqb (Page.selectedModel c) []) with true;
    [reflexivity|].
  symmetry; apply orb_true_iff.
  destruct H as [H | H]; apply negb_false_iff in H; auto.
Qed.

(** The exchange fails before a stream is read. *)
Lemma handleSubmit_failed (w : World) (e : js_error) :
  let c := component w in
  submittable c = true ->
  Exchange.failure_of E relay c = Some e ->
  handleSubmit E relay w =
  (Settled (Return tt),
   {| component := Failure.failed_page c e;
      events :=
        events w
        ++ [Fetch (chat_request (Page.selectedModel c)
                     (Page.messages c ++ [user_turn c]));
            ConsoleError [Err e]] |}).
Proof.
  destruct w as [c ev]; simpl.
  intros Hsub Hfail.
  unfold submittable in Hsub; apply andb_true_iff in Hsub as [Hin Hmodel].
  apply negb_true_iff in Hin, Hmodel.
  unfold handleSubmit, bind_async, settled, gets, finally_async,
    try_catch_async; simpl.
  rewrite Hin, Hmodel; simpl.
  unfold Page.fetch; simpl.
  unfold Exchange.failure_of, user_turn in Hfail.
  assert (Hlast : forall t,
             is_placeholder
               (last (List.map Some
                        (Page.messages c
                         ++ [{| role := user; content := t |}])) None)
             = false).
  { intros t; rewrite map_app; cbn [List.map]; rewrite last_last.
    reflexivity. }
  assert (Hthrown : forall resp (w0 : World),
             (errorResult <- lift (up_json E resp) ;;
              error <- lift (get_prop E errorResult (js "error")) ;;
              message <-
                lift (if truthy_opt error then ToString_opt E error
                      else Return (js "Chat API error: "
                                   ++ N_toString (Z.to_N (up_status resp)))) ;;
              throw (Error_new message))%js w0
             = (@Throw unit (Failure.relay_failure E resp), w0)).
  { intros resp w0; unfold bind, lift, throw, Failure.relay_failure.
    destruct (up_json E resp) as [v|e1]; [|reflexivity].
    destruct (get_prop E v (js "error")) as [err|e2]; [|reflexivity].
    destruct (truthy_opt err); [|reflexivity].
    destruct (ToString_opt E err); reflexivity. }
  destruct (relay _) as [resp|e0]; cbn [fst snd].
  - assert (He : e = Failure.relay_failure E resp).
    { destruct (ok (up_status resp)); [|congruence].
      destruct (up_body resp); congruence. }
    subst e.
    assert (Hbranch :
              match ok (up_status resp), up_body resp with
              | true, Some _ => False
              | _, _ => True
              end).
    { destruct (ok (up_status resp)); [|exact I].
      destruct (up_body resp); [discriminate | exact I]. }
    destruct (ok (up_status resp)); [destruct (up_body resp); [easy|]|];
      rewrite Hthrown; unfold bind, assign, Page.console_error, modify, gets;
      cbn [fst snd component events Page.messages set_errorMessage
           set_messages set_userInput set_isLoading];
      rewrite Hlast; unfold ret; cbn [fst snd];
      rewrite <- app_assoc; reflexivity.
  - injection Hfail as <-.
    unfold bind, assign, Page.console_error, modify, gets;
      cbn [fst snd component events Page.messages set_errorMessage
           set_messages set_userInput set_isLoading].
    rewrite Hlast; unfold ret; cbn [fst snd].
    rewrite <- app_assoc; reflexivity.
Qed.

End SubmitPaths.

(** ** What [handleSubmit] does on every path *)

Section SubmitFacts.

Variable E : Engine.
Variable relay : FetchRequest -> outcome FetchResponse.

(** An exchange either fails before a stream is read or reads one. *)
Lemma exchange_cases (c : Component) :
  (exists e, Exchange.failure_of E relay c = Some e)
  \/ (exists resp st,
        relay (chat_request (Page.selectedModel c)
                 (Page.messages c ++ [user_turn c])) = Return resp
        /\ ok (up_status resp) = true /\ up_body resp = Some st).
Proof.
  unfold Exchange.failure_of.
  destruct (relay _) as [resp|e]; [|left; eauto].
  destruct (ok (up_status resp)) eqn:Hok; [|left; eauto].
  destruct (up_body resp) as [st|] eqn:Hb; [|left; eauto].
  right; eauto.
Qed.

(** X1: once past its first test, [handleSubmit] makes exactly one
    network call, whatever happens next: a POST to /api/ollama/chat
    whose body holds the selected model and the whole history followed
    by the new user turn, in order. *)
Theorem submit_sends_whole_history_once (w : World) :
  let c := component w in
  submittable c = true ->
  let w' := snd (handleSubmit E relay w) in
  exists req,
    network_calls (events w') = network_calls (events w) ++ [req]
    /\ url req = js "/api/ollama/chat"
    /\ method req = js "POST"
    /\ req_body req =
         Some (JObj [(js "model", JStr (Page.selectedModel c));
                     (js "messages",
                      JArr (List.map ChatMessage_json (Page.messages c)
                            ++ [ChatMessage_json
                                  {| role := user;
                                     content := Page.userInput c |}]))]).
Proof.
  intros c Hsub w'; subst w'.
  exists (chat_request (Page.selectedModel c) (Page.messages c ++ [user_turn c])).
  split; [|repeat split; simpl; rewrite map_app; reflexivity].
  destruct (exchange_cases c) as [[e He] | (resp & st & Hr & Hok & Hb)].
  - rewrite (handleSubmit_failed E relay w e Hsub He); simpl.
    rewrite network_calls_app; reflexivity.
  - rewrite (handleSubmit_stream E relay w resp st Hsub Hr Hok Hb).
    cbn [snd events].
    rewrite network_calls_app; cbn [app network_calls].
    rewrite network_calls_app, lines_log_no_calls.
    destruct (ending st); reflexivity.
Qed.


(** X29: when the stream hangs, [handleSubmit] never settles: it waits
    with [isLoading] still true, so the form stays disabled; the input
    is cleared, no error is shown, and the assistant's turn holds what
    arrived before, or the placeholder. *)
Theorem hung_stream_keeps_loading (w : World) (resp : FetchResponse)
    (values : list (list byte)) :
  let c := component w in
  submittable c = true ->
  relay (chat_request (Page.selectedModel c)
           (Page.messages c ++ [user_turn c])) = Return resp ->
  ok (up_status resp) = true ->
  up_body resp = Some {| chunks := values; ending := Hangs |} ->
  let w' := snd (handleSubmit E relay w) in
  fst (handleSubmit E relay w) = Pending
  /\ Page.isLoading (component w') = true
  /\ Page.userInput (component w') = []
  /\ Page.errorMessage (component w') = []
  /\ Page.messages (component w')
     = Page.messages c
       ++ [user_turn c; assistant_turn (shown_text E (stream_lines values))].
Proof.
  intros c Hsub Hr Hok Hb w'; subst w'.
  rewrite (handleSubmit_stream E relay w resp _ Hsub Hr Hok Hb); simpl.
  rewrite <- app_assoc; auto 10.
Qed.

(** X3: [handleSubmit] only ever adds to the end of the history: the
    earlier turns stay as they are, and what is added is nothing, the
    user's turn, or the user's turn and one assistant turn. *)
Theorem history_only_grows (w : World) :
  let c := component w in
  let w' := snd (handleSubmit E relay w) in
  Page.messages (component w') = Page.messages c
  \/ Page.messages (component w') = Page.messages c ++ [user_turn c]
  \/ exists text,
       Page.messages (component w') =
         Page.messages c ++ [user_turn c; assistant_turn text].
Proof.
  intros c w'; subst w'.
  destruct (submittable c) eqn:Hsub.
  - destruct (exchange_cases c) as [[e He] | (resp & st & Hr & Hok & Hb)].
    + rewrite (handleSubmit_failed E relay w e Hsub He); simpl; auto.
    + rewrite (handleSubmit_stream E relay w resp st Hsub Hr Hok Hb); simpl.
      destruct (ending st);
        [|destruct (jsstring_eqb _ placeholder)|];
        rewrite <- ?app_assoc; simpl; eauto.
  - rewrite (handleSubmit_refused E relay w Hsub); simpl; auto.
Qed.

(** X4: with no model selected, [handleSubmit] only sets the error
    text: the history and the typed input stay, [isLoading] is not
    touched and nothing is sent. *)
Theorem no_model_selected_does_nothing (w : World) :
  Page.selectedModel (component w) = [] ->
  handleSubmit E relay w =
  (Settled (Return tt),
   {| component :=
        Page.set_errorMessage
          (js "Please enter a message and select a model.") (component w);
      events := events w |}).
Proof.
  intros H; apply handleSubmit_refused.
  unfold submittable; rewrite H; apply andb_false_r.
Qed.

(** X5: when the request to the relay is rejected, the page shows the
    rejection's message behind 'Error sending message: ', the user's
    turn stays in the history without an assistant turn, and the input
    is cleared. *)
Theorem rejected_request_is_shown (w : World) (e : js_error) :
  let c := component w in
  submittable c = true ->
  relay (chat_request (Page.selectedModel c)
           (Page.messages c ++ [user_turn c])) = Throw e ->
  let w' := snd (handleSubmit E relay w) in
  Page.errorMessage (component w')
    = js "Error sending message: " ++ err_message e
  /\ Page.messages (component w') = Page.messages c ++ [user_turn c]
  /\ Page.userInput (component w') = []
  /\ console_errors (events w') = console_errors (events w) ++ [[Err e]].
Proof.
  intros c Hsub Hr w'; subst w'.
  assert (He : Exchange.failure_of E relay c = Some e)
    by (unfold Exchange.failure_of; subst c; rewrite Hr; reflexivity).
  rewrite (handleSubmit_failed E relay w e Hsub He); simpl.
  repeat split.
  induction (events w) as [|[] t IH]; simpl; rewrite ?IH; reflexivity.
Qed.

(** X6: when the relay answers with a status that is not ok and a JSON
    body, the page shows, behind 'Error sending message: ', the body's
    [error] converted to a string, or the message of the TypeError when
    it cannot be converted, or 'Chat API error: ' and the status when
    the body has no [error] or a falsy one; the user's turn stays and no
    assistant turn is added. *)
Theorem relay_error_is_shown (w : World) (resp : FetchResponse)
    (text : jsstring) (errorResult : JSValue) (error : option JSValue) :
  let c := component w in
  submittable c = true ->
  relay (chat_request (Page.selectedModel c)
           (Page.messages c ++ [user_turn c])) = Return resp ->
  ok (up_status resp) = false ->
  up_text resp = Return text ->
  JSON_parse text = Some errorResult ->
  get_prop E errorResult (js "error") = Return error ->
  let w' := snd (handleSubmit E relay w) in
  Page.errorMessage (component w')
    = js "Error sending message: "
      ++ (if truthy_opt error then
            match ToString_opt E error with
            | Return shown => shown
            | Throw e => err_message e
            end
          else js "Chat API error: " ++ N_toString (Z.to_N (up_status resp)))
  /\ (forall e, ToString_opt E error = Throw e -> e = not_primitive E)
  /\ Page.messages (component w') = Page.messages c ++ [user_turn c].
Proof.
  intros c Hsub Hr Hok Ht Hp Hg w'; subst w'.
  assert (He : Exchange.failure_of E relay c
               = Some (Failure.relay_failure E resp)).
  { unfold Exchange.failure_of; subst c; rewrite Hr, Hok; reflexivity. }
  rewrite (handleSubmit_failed E relay w _ Hsub He); simpl.
  unfold Failure.relay_failure, up_json, JSON_parse_throwing.
  rewrite Ht, Hp, Hg; simpl.
  split; [|split; [|reflexivity]].
  - destruct (truthy_opt error); [|reflexivity].
    destruct (ToString_opt E error); reflexivity.
  - intros e He'; destruct error as [v|]; [|discriminate].
    apply (ToString_throws E v e He').
Qed.

(** X7: when the relay answers with a status that is not ok and a body
    that is not JSON, the page shows the engine's SyntaxError message,
    not the status. *)
Theorem relay_error_not_json_hides_status (w : World) (resp : FetchResponse)
    (text : jsstring) :
  let c := component w in
  submittable c = true ->
  relay (chat_request (Page.selectedModel c)
           (Page.messages c ++ [user_turn c])) = Return resp ->
  ok (up_status resp) = false ->
  up_text resp = Return text ->
  JSON_parse text = None ->
  let w' := snd (handleSubmit E relay w) in
  Page.errorMessage (component w')
    = js "Error sending message: " ++ fault_message E (BadJSON text)
  /\ Page.messages (component w') = Page.messages c ++ [user_turn c].
Proof.
  intros c Hsub Hr Hok Ht Hp w'; subst w'.
  assert (He : Exchange.failure_of E relay c
               = Some (Failure.relay_failure E resp)).
  { unfold Exchange.failure_of; subst c; rewrite Hr, Hok; reflexivity. }
  rewrite (handleSubmit_failed E relay w _ Hsub He); simpl.
  unfold Failure.relay_failure, up_json, JSON_parse_throwing.
  rewrite Ht, Hp; simpl; auto.
Qed.

End SubmitFacts.

(** ** More on the stream loop *)

Section LoopFacts.

Variable E : Engine.

(** X8: of a line the loop reads [message] only: two lines that are
    JSON objects with the same [message] leave the same text and the
    same page, so [done] and every other property make no difference.
    What is logged is the same too, unless the content cannot be
    converted to a string: then each line is logged with the TypeError
    and its own text. *)
Theorem only_message_is_read (l1 l2 acc : jsstring) (w : World)
    (p1 p2 : list (jsstring * JSValue)) :
  JSON_parse l1 = Some (JObj p1) ->
  JSON_parse l2 = Some (JObj p2) ->
  lookup (js "message") p1 = lookup (js "message") p2 ->
  let r1 := handle_line E l1 acc w in
  let r2 := handle_line E l2 acc w in
  fst r1 = fst r2
  /\ component (snd r1) = component (snd r2)
  /\ (events (snd r1) = events (snd r2)
      \/ fst r1 = Return acc
         /\ component (snd r1) = component w
         /\ events (snd r1)
            = events w
              ++ [ConsoleError [Text (js "Error parsing streamed JSON line:");
                                Err (not_primitive E);
                                Text (js "Line:"); Text l1]]
         /\ events (snd r2)
            = events w
              ++ [ConsoleError [Text (js "Error parsing streamed JSON line:");
                                Err (not_primitive E);
                                Text (js "Line:"); Text l2]]).
Proof.
  intros H1 H2 Hm r1 r2; subst r1 r2.
  rewrite !handle_line_eq.
  unfold line_content, line_log, line_error; rewrite H1, H2, Hm.
  destruct (lookup (js "message") p2) as [[| | | | | mprops]|];
    try (repeat split; left; reflexivity).
  destruct (lookup (js "content") mprops) as [ct|];
    [|repeat split; left; reflexivity].
  destruct (truthy ct); [|repeat split; left; reflexivity].
  destruct (ToString E ct) as [text|e] eqn:Ht;
    [repeat split; left; reflexivity|].
  rewrite (ToString_throws E ct e Ht).
  repeat split; right; repeat split.
Qed.

(** X9: the update of the history replaces the content of the last
    message only: its role and every earlier message stay, and an empty
    history stays empty. *)
Theorem only_last_content_is_replaced (text : jsstring)
    (earlier : list ChatMessage) (m : ChatMessage) :
  set_last_content text (earlier ++ [m])
    = earlier ++ [{| role := role m; content := text |}]
  /\ set_last_content text [] = [].
Proof.
  split; [apply set_last_content_last | reflexivity].
Qed.

(** A chunk cut in two behind a line feed gives the loop the same
    lines. *)
Lemma lines_cut_behind_line_feed (pre post : list (list byte))
    (a b : list byte) (d : TextDecoder) :
  128 <= u_lower (utf8 d) ->
  List.concat
    (List.map lines_of (decode_chunks d (pre ++ (a ++ x0a :: b) :: post)))
  = List.concat
      (List.map lines_of
         (decode_chunks d (pre ++ (a ++ [x0a]) :: b :: post))).
Proof.
  revert d; induction pre as [|v pre IH]; intros d Hd.
  - cbn [app decode_chunks].
    pose proof (decode_lower d a Hd) as Ha.
    destruct (decode d a) as [t0 d0] eqn:H0; simpl in Ha.
    destruct (decode_line_feed d0 Ha) as [t1 H1].
    destruct (decode line_start b) as [tb d'] eqn:Hb.
    change (a ++ x0a :: b) with (a ++ [x0a] ++ b).
    rewrite (decode_app_eq _ _ _ _ _ _ _ H0
               (decode_app_eq _ _ _ _ _ _ _ H1 Hb)).
    rewrite (decode_app_eq _ _ _ _ _ _ _ H0 H1), Hb.
    cbn [List.map List.concat].
    replace (t0 ++ (t1 ++ [10]) ++ tb) with ((t0 ++ t1) ++ 10 :: tb)
      by (rewrite <- !app_assoc; reflexivity).
    replace (t0 ++ t1 ++ [10]) with ((t0 ++ t1) ++ [10])
      by (rewrite <- app_assoc; reflexivity).
    rewrite !lines_of_app, lines_of_nil, app_nil_r, <- app_assoc.
    reflexivity.
  - cbn [app decode_chunks].
    pose proof (decode_lower d v Hd) as Hv.
    destruct (decode d v) as [t d1]; simpl in Hv.
    cbn [List.map List.concat]; rewrite (IH d1 Hv); reflexivity.
Qed.

Variable relay1 relay2 : FetchRequest -> outcome FetchResponse.

(** X10: the page splits every chunk into lines on its own, so where a
    line feed ends a line the stream may be cut: a chunk delivered in
    two parts, the first ending with a line feed, leaves the page, the
    log and the result of [handleSubmit] exactly as the whole chunk
    does, however the stream goes on and ends. *)
Theorem cut_behind_line_feed_changes_nothing (w : World)
    (resp1 resp2 : FetchResponse) (pre post : list (list byte))
    (a b : list byte) (f : StreamEnd) :
  let c := component w in
  let req := chat_request (selectedModel c) (messages c ++ [user_turn c]) in
  submittable c = true ->
  relay1 req = Return resp1 -> ok (up_status resp1) = true ->
  up_body resp1
  = Some {| chunks := pre ++ (a ++ x0a :: b) :: post; ending := f |} ->
  relay2 req = Return resp2 -> ok (up_status resp2) = true ->
  up_body resp2
  = Some {| chunks := pre ++ (a ++ [x0a]) :: b :: post; ending := f |} ->
  handleSubmit E relay2 w = handleSubmit E relay1 w.
Proof.
  intros c req Hsub Hr1 Hok1 Hb1 Hr2 Hok2 Hb2.
  rewrite (handleSubmit_stream E relay1 w resp1 _ Hsub Hr1 Hok1 Hb1).
  rewrite (handleSubmit_stream E relay2 w resp2 _ Hsub Hr2 Hok2 Hb2).
  cbn [chunks ending]; unfold stream_lines.
  rewrite (lines_cut_behind_line_feed pre post a b TextDecoder_new);
    [reflexivity | simpl; lia].
Qed.

End LoopFacts.

(** ** More on the relay handlers *)

(** Splits a goal on every test it still holds. *)
Ltac split_tests :=
  repeat match goal with
    | |- context [if ?b then _ else _] =>
        match type of b with
        | bool => destruct b eqn:?
        end; simpl
    end.

Section RelayMore.

Variable E : Engine.
Variable OLLAMA_API_URL : option jsstring.
Variable upstream : FetchRequest -> outcome FetchResponse.

(** X11: when the upstream service answers the listing with an ok
    status and a JSON body, the handler answers 200 with that JSON value
    as it is, after exactly one upstream GET of <URL>/api/tags. *)
Theorem tags_are_relayed (resp : FetchResponse) (text : jsstring)
    (data : JSValue) :
  unset OLLAMA_API_URL = false ->
  upstream (Answers.tags_upstream OLLAMA_API_URL) = Return resp ->
  ok (up_status resp) = true ->
  up_text resp = Return text ->
  JSON_parse text = Some data ->
  fst (GET E OLLAMA_API_URL upstream []) =
    Return {| status := 200;
              headers := [(js "content-type", js "application/json")];
              body := JsonText data |}
  /\ network_calls (snd (GET E OLLAMA_API_URL upstream []))
     = [Answers.tags_upstream OLLAMA_API_URL].
Proof.
  intros Hset Hup Hok Ht Hp.
  unfold GET, try_catch, bind, lift, Relay.fetch, up_json,
    JSON_parse_throwing; rewrite Hset; simpl.
  fold (Answers.tags_upstream OLLAMA_API_URL); rewrite Hup; simpl.
  rewrite Hok, Ht, Hp; simpl; auto.
Qed.

(** X12: when the upstream service answers the listing with a status
    that is not ok (from 300 to 599, other than 304), the handler
    answers with the same status and an envelope holding the status and
    the upstream text. *)
Theorem tags_status_is_passed_on (resp : FetchResponse) (text : jsstring) :
  unset OLLAMA_API_URL = false ->
  upstream (Answers.tags_upstream OLLAMA_API_URL) = Return resp ->
  (300 <= up_status resp <= 599)%Z ->
  up_status resp <> 304%Z ->
  up_text resp = Return text ->
  fst (GET E OLLAMA_API_URL upstream []) =
    Return {| status := up_status resp;
              headers := [(js "content-type", js "application/json")];
              body := JsonText
                        (error_envelope
                           (js "Ollama service error: "
                            ++ N_toString (Z.to_N (up_status resp))
                            ++ js " - " ++ text)) |}.
Proof.
  intros Hset Hup Hst H304 Ht.
  unfold GET, try_catch, bind, lift, Relay.fetch, json, Response_new;
    rewrite Hset; simpl.
  fold (Answers.tags_upstream OLLAMA_API_URL); rewrite Hup; simpl.
  assert (Hok : ok (up_status resp) = false)
    by (unfold ok; apply andb_false_iff; right; apply Z.leb_gt; lia).
  rewrite Hok, Ht; simpl.
  replace ((up_status resp <? 200)%Z || (599 <? up_status resp)%Z)
    with false
    by (symmetry; apply orb_false_iff; split; apply Z.ltb_ge; lia).
  replace (null_body_status (up_status resp)) with false; [reflexivity|].
  symmetry; unfold null_body_status.
  repeat (apply orb_false_iff; split); apply Z.eqb_neq; lia.
Qed.

(** X13: when the upstream service answers the listing with an ok
    status and a body that is not JSON, the handler answers 500 with its
    general error text. *)
Theorem tags_not_json_answers_500 (resp : FetchResponse) (text : jsstring) :
  unset OLLAMA_API_URL = false ->
  upstream (Answers.tags_upstream OLLAMA_API_URL) = Return resp ->
  ok (up_status resp) = true ->
  up_text resp = Return text ->
  JSON_parse text = None ->
  fst (GET E OLLAMA_API_URL upstream []) =
    Return {| status := 500;
              headers := [(js "content-type", js "application/json")];
              body := JsonText
                        (error_envelope
                           (js "An unexpected error occurred while trying to connect to the Ollama service.")) |}.
Proof.
  intros Hset Hup Hok Ht Hp.
  unfold GET, try_catch, bind, lift, Relay.fetch, up_json,
    JSON_parse_throwing; rewrite Hset; simpl.
  fold (Answers.tags_upstream OLLAMA_API_URL); rewrite Hup; simpl.
  rewrite Hok, Ht, Hp; reflexivity.
Qed.

(** X14: when the upstream service answers a forwarded chat request
    with an ok status, the relay answers 200 and hands over the upstream
    body stream as it is; the content type is the upstream one, or
    application/x-ndjson when there is none, and the transfer encoding
    is marked chunked.  (A request is forwarded when it has passed
    validation and its model could be written into the log line.) *)
Theorem chat_stream_is_handed_over (request_text : jsstring)
    (requestBody model messages : JSValue) (modelText : jsstring)
    (resp : FetchResponse) :
  unset OLLAMA_API_URL = false ->
  JSON_parse request_text = Some requestBody ->
  get_prop E requestBody (js "model") = Return (Some model) ->
  get_prop E requestBody (js "messages") = Return (Some messages) ->
  truthy model = true ->
  truthy messages = true ->
  ToString E model = Return modelText ->
  upstream (forwarded OLLAMA_API_URL model messages) = Return resp ->
  ok (up_status resp) = true ->
  fst (POST E OLLAMA_API_URL upstream request_text []) =
    Return {| status := 200;
              headers :=
                [(js "Content-Type",
                  match up_content_type resp with
                  | Some (c :: t) => c :: t
                  | _ => js "application/x-ndjson"
                  end);
                 (js "Transfer-Encoding", js "chunked")];
              body := Stream (up_body resp) |}.
Proof.
  intros Hset Hparse Hmodel Hmessages Hm Hms Htext Hup Hok.
  unfold POST, try_catch, bind, lift, Relay.fetch, JSON_parse_throwing.
  rewrite Hset, Hparse, Hmodel, Hmessages; simpl.
  rewrite Hm, Hms; simpl.
  rewrite Htext; simpl.
  match goal with
  | |- context [upstream ?r] =>
      change r with (forwarded OLLAMA_API_URL model messages)
  end.
  rewrite Hup; simpl; rewrite Hok; simpl.
  unfold Response_new; simpl.
  destruct (up_body resp); reflexivity.
Qed.

(** X15: when the upstream service answers a forwarded chat request
    with a status that is not ok (from 300 to 599, other than 304), the
    relay answers with the same status and an envelope holding the
    status and the upstream text, and hands over no stream.  (A request
    is forwarded when it has passed validation and its model could be
    written into the log line.) *)
Theorem chat_status_is_passed_on (request_text : jsstring)
    (requestBody model messages : JSValue) (modelText : jsstring)
    (resp : FetchResponse) (text : jsstring) :
  unset OLLAMA_API_URL = false ->
  JSON_parse request_text = Some requestBody ->
  get_prop E requestBody (js "model") = Return (Some model) ->
  get_prop E requestBody (js "messages") = Return (Some messages) ->
  truthy model = true ->
  truthy messages = true ->
  ToString E model = Return modelText ->
  upstream (forwarded OLLAMA_API_URL model messages) = Return resp ->
  (300 <= up_status resp <= 599)%Z ->
  up_status resp <> 304%Z ->
  up_text resp = Return text ->
  fst (POST E OLLAMA_API_URL upstream request_text []) =
    Return {| status := up_status resp; headers := json_headers;
              body := JsonText
                        (error_envelope
                           (js "Ollama service error: "
                            ++ N_toString (Z.to_N (up_status resp))
                            ++ js " - " ++ text)) |}.
Proof.
  intros Hset Hparse Hmodel Hmessages Hm Hms Htext Hup Hst H304 Ht.
  unfold POST, try_catch, bind, lift, Relay.fetch, JSON_parse_throwing.
  rewrite Hset, Hparse, Hmodel, Hmessages; simpl.
  rewrite Hm, Hms; simpl.
  rewrite Htext; simpl.
  match goal with
  | |- context [upstream ?r] =>
      change r with (forwarded OLLAMA_API_URL model messages)
  end.
  rewrite Hup; simpl.
  assert (Hok : ok (up_status resp) = false)
    by (unfold ok; apply andb_false_iff; right; apply Z.leb_gt; lia).
  rewrite Hok, Ht; simpl.
  unfold Response_new; simpl.
  replace ((up_status resp <? 200)%Z || (599 <? up_status resp)%Z)
    with false
    by (symmetry; apply orb_false_iff; split; apply Z.ltb_ge; lia).
  replace (null_body_status (up_status resp)) with false; [reflexivity|].
  symmetry; unfold null_body_status.
  repeat (apply orb_false_iff; split); apply Z.eqb_neq; lia.
Qed.

(** X16: the chat relay checks that [model] and [messages] are truthy
    and that [model] can be written into its log line, and nothing
    more.  When both are truthy and [model] converts to a string, the
    request is forwarded, once and with both values as they came,
    whatever their types; when both are truthy and [model] does not
    convert (an object with a [toString] property), the relay answers
    500 and sends nothing; a value that is present but falsy (0, false,
    null, the empty string) is answered like a missing one. *)
Theorem chat_forwards_whatever_is_truthy (request_text : jsstring)
    (props : list (jsstring * JSValue)) (model messages : JSValue) :
  unset OLLAMA_API_URL = false ->
  JSON_parse request_text = Some (JObj props) ->
  lookup (js "model") props = Some model ->
  lookup (js "messages") props = Some messages ->
  (truthy model && truthy messages = true ->
   (forall modelText, ToString E model = Return modelText ->
      network_calls (snd (POST E OLLAMA_API_URL upstream request_text []))
        = [forwarded OLLAMA_API_URL model messages])
   /\ (forall e, ToString E model = Throw e ->
         POST E OLLAMA_API_URL upstream request_text []
         = (Return {| status := 500; headers := json_headers;
                      body := JsonText
                                (error_envelope
                                   (js "An unexpected error occurred in the chat API.")) |},
            [ConsoleError [Text (js "Error in chat API endpoint:");
                           Err (not_primitive E)]])))
  /\ (truthy model && truthy messages = false ->
      POST E OLLAMA_API_URL upstream request_text []
        = (Return validation_error, [])).
Proof.
  intros Hset Hparse Hmodel Hmessages; split; intros Ht.
  - split.
    + intros modelText Htext.
      rewrite POST_calls, Hset, Hparse, Hmodel, Hmessages, Ht, Htext.
      reflexivity.
    + intros e Hthrow.
      pose proof (ToString_throws E model e Hthrow) as ->.
      unfold POST, try_catch, bind, lift, JSON_parse_throwing.
      rewrite Hset, Hparse; simpl; rewrite Hmodel, Hmessages; simpl.
      rewrite <- negb_andb, Ht; simpl.
      rewrite Hthrow; reflexivity.
  - unfold POST, try_catch, bind, lift, JSON_parse_throwing.
    rewrite Hset, Hparse; simpl; rewrite Hmodel, Hmessages; simpl.
    rewrite <- negb_andb, Ht; reflexivity.
Qed.

(** X17: the chat relay always answers, it never rejects: with status
    200 and the stream, or with another status and an
    [{ error: text }] envelope marked as JSON; and it makes at most one
    upstream call. *)
Theorem chat_relay_answers (request_text : jsstring) :
  exists resp ev,
    POST E OLLAMA_API_URL upstream request_text [] = (Return resp, ev)
    /\ Answers.chat_answer resp
    /\ (List.length (network_calls ev) <= 1)%nat.
Proof.
  assert (Hcalls :
            (List.length
               (network_calls
                  (snd (POST E OLLAMA_API_URL upstream request_text [])))
             <= 1)%nat).
  { rewrite POST_calls.
    repeat match goal with
           | |- context [match ?x with _ => _ end] => destruct x
           end; simpl; lia. }
  destruct (POST E OLLAMA_API_URL upstream request_text []) as [r ev] eqn:HP.
  simpl in Hcalls.
  assert (Hshape : exists resp,
             fst (POST E OLLAMA_API_URL upstream request_text [])
               = Return resp
             /\ Answers.chat_answer resp).
  { clear HP Hcalls.
    unfold Answers.chat_answer, POST, try_catch, bind, lift, Relay.fetch,
      JSON_parse_throwing, Response_new.
    destruct (unset OLLAMA_API_URL); simpl;
      [eexists; split; [reflexivity|]; simpl;
       repeat split; [discriminate | eauto]|].
    destruct (JSON_parse request_text) as [v|]; simpl;
      [|eexists; split; [reflexivity|]; simpl;
        repeat split; [discriminate | eauto]].
    destruct (get_prop E v (js "model")) as [model|e1]; simpl;
      [|split_tests; eexists; (split; [reflexivity|]); simpl;
        repeat split; solve [discriminate | eauto]].
    destruct (get_prop E v (js "messages")) as [messages|e2]; simpl;
      [|split_tests; eexists; (split; [reflexivity|]); simpl;
        repeat split; solve [discriminate | eauto]].
    destruct (negb (truthy_opt model) || negb (truthy_opt messages)); simpl;
      [eexists; split; [reflexivity|]; simpl;
       repeat split; [discriminate | eauto]|].
    destruct (ToString_opt E model) as [modelText|e3]; simpl;
      [|split_tests; eexists; (split; [reflexivity|]); simpl;
        repeat split; solve [discriminate | eauto]].
    match goal with
    | |- context [upstream ?q] => destruct (upstream q) as [r0|e0]; simpl
    end.
    - destruct (ok (up_status r0)) eqn:Hok; simpl.
      + split_tests; eexists; (split; [reflexivity|]); simpl;
          try reflexivity; repeat split; solve [discriminate | eauto].
      + destruct (up_text r0); simpl; split_tests;
          eexists; (split; [reflexivity|]); simpl;
          repeat split;
          solve [discriminate | eauto
                | intros H200; rewrite H200 in Hok; discriminate].
    - split_tests; eexists; (split; [reflexivity|]); simpl;
        repeat split; solve [discriminate | eauto]. }
  rewrite HP in Hshape; simpl in Hshape.
  destruct Hshape as (resp & -> & Hshape); eauto.
Qed.

(** X18: the model listing always answers, it never rejects, and always
    with a body marked as JSON: the upstream value with status 200, or
    an [{ error: text }] envelope; it makes no upstream call when the
    URL is unset and exactly one, a GET of <URL>/api/tags, otherwise. *)
Theorem tags_relay_answers :
  exists resp ev,
    GET E OLLAMA_API_URL upstream [] = (Return resp, ev)
    /\ Answers.tags_answer resp
    /\ network_calls ev =
         if unset OLLAMA_API_URL then []
         else [Answers.tags_upstream OLLAMA_API_URL].
Proof.
  unfold Answers.tags_answer, GET, try_catch, bind, lift, Relay.fetch, json,
    up_json, JSON_parse_throwing, Response_new.
  destruct (unset OLLAMA_API_URL); simpl;
    [do 2 eexists; split; [reflexivity|]; simpl; eauto 10|].
  fold (Answers.tags_upstream OLLAMA_API_URL).
  destruct (upstream (Answers.tags_upstream OLLAMA_API_URL)) as [r0|e0]; simpl.
  - destruct (ok (up_status r0)) eqn:Hok; simpl;
      destruct (up_text r0); simpl;
      try (destruct (JSON_parse _); simpl); split_tests;
      do 2 eexists; (split; [reflexivity|]); simpl; eauto 10.
  - split_tests; do 2 eexists; (split; [reflexivity|]); simpl; eauto 10.
Qed.

End RelayMore.

(** ** Loading the models *)

Section MountFacts.

Variable E : Engine.
Variable fault_text : Mount.fault -> jsstring.
Variable relay : FetchRequest -> outcome FetchResponse.

Lemma names_of_entries (l : list JSValue) :
  existsb Listing.is_null l = false ->
  Mount.names_of E l = Return (List.map Listing.name_of l).
Proof.
  induction l as [|m l IH]; simpl; [reflexivity|].
  intros H; apply orb_false_iff in H as [Hm Hl].
  rewrite (IH Hl); destruct m; try discriminate; reflexivity.
Qed.

Lemma names_of_null_entry (l : list JSValue) :
  existsb Listing.is_null l = true ->
  Mount.names_of E l
    = Throw (engine_error E TypeError (PropertyOfNull (js "name"))).
Proof.
  induction l as [|m l IH]; simpl; [discriminate|].
  destruct m; simpl; try reflexivity; intros H; rewrite (IH H); reflexivity.
Qed.

Ltac run_mount :=
  unfold Mount.onMount, finally, try_catch, bind, lift, throw, ret,
    Mount.fetch, Mount.assign, Mount.console_error, modify, up_json,
    JSON_parse_throwing; simpl.

(** X19: [onMount] always settles: it never rejects, it ends with
    [isLoadingModels] false, it makes exactly one network call, a GET
    of /api/ollama/tags, and it leaves the history, the input and
    [isLoading] alone. *)
Theorem mount_always_settles (w : Mount.World) :
  let r := Mount.onMount E fault_text relay w in
  fst r = Return tt
  /\ Mount.isLoadingModels (Mount.vars (snd r)) = false
  /\ network_calls (Mount.events (snd r))
     = network_calls (Mount.events w) ++ [Mount.tags_request]
  /\ Mount.messages (Mount.vars (snd r)) = Mount.messages (Mount.vars w)
  /\ Mount.userInput (Mount.vars (snd r)) = Mount.userInput (Mount.vars w)
  /\ Mount.isLoading (Mount.vars (snd r)) = Mount.isLoading (Mount.vars w).
Proof.
  destruct w as [v ev]; run_mount.
  assert (Hc1 : network_calls (ev ++ [Fetch Mount.tags_request])
                = network_calls ev ++ [Mount.tags_request])
    by (rewrite network_calls_app; reflexivity).
  assert (Hc2 : forall tail,
             network_calls
               ((ev ++ [Fetch Mount.tags_request]) ++ [ConsoleError tail])
             = network_calls ev ++ [Mount.tags_request])
    by (intros tail; rewrite network_calls_app, Hc1; apply app_nil_r).
  destruct (relay Mount.tags_request) as [resp|e]; simpl;
    [|repeat split; apply Hc2].
  destruct (ok (up_status resp)); simpl.
  - destruct (up_text resp) as [t|e]; simpl; [|repeat split; apply Hc2].
    destruct (JSON_parse t) as [data|]; simpl; [|repeat split; apply Hc2].
    destruct (get_prop E data (js "models")) as [models|e]; simpl;
      [|repeat split; apply Hc2].
    destruct (Mount.map_names E fault_text models) as [[|first names]|e];
      simpl; repeat split; first [apply Hc1 | apply Hc2].
  - destruct (up_text resp) as [t|e]; simpl; [|repeat split; apply Hc2].
    destruct (JSON_parse t) as [v0|]; simpl; [|repeat split; apply Hc2].
    destruct (get_prop E v0 (js "error")) as [a|]; simpl;
      [destruct (truthy_opt a); [destruct (ToString_opt E a)|]|]; simpl;
      repeat split; apply Hc2.
Qed.

(** X20: when the listing holds an empty array of models, no model is
    selected: [selectedModel] keeps its value, the model list is empty,
    no error is set and the send control stays disabled. *)
Theorem no_models_leave_send_disabled (w : Mount.World)
    (resp : FetchResponse) (text : jsstring) (data : JSValue) :
  relay Mount.tags_request = Return resp ->
  ok (up_status resp) = true ->
  up_text resp = Return text ->
  JSON_parse text = Some data ->
  get_prop E data (js "models") = Return (Some (JArr [])) ->
  let v' := Mount.vars (snd (Mount.onMount E fault_text relay w)) in
  Mount.availableModels v' = []
  /\ Mount.selectedModel v' = Mount.selectedModel (Mount.vars w)
  /\ Mount.errorMessage v' = Mount.errorMessage (Mount.vars w)
  /\ Mount.send_disabled v' = true
  /\ Mount.model_area v' =
       if jsstring_eqb (Mount.errorMessage (Mount.vars w)) []
       then Mount.NoModelsNote else Mount.NoArea.
Proof.
  intros Hr Hok Ht Hp Hm; destruct w as [v ev]; run_mount.
  rewrite Hr; simpl; rewrite Hok, Ht; simpl; rewrite Hp; simpl.
  rewrite Hm; simpl.
  unfold Mount.send_disabled, Mount.model_area; simpl.
  rewrite !orb_true_r; auto.
Qed.

(** X21: when the listing holds a non-empty array of models, none of
    them null, the model list becomes their names in order, the first
    name is selected, and no error is set. *)
Theorem first_model_is_selected (w : Mount.World)
    (resp : FetchResponse) (text : jsstring) (data first : JSValue)
    (others : list JSValue) :
  relay Mount.tags_request = Return resp ->
  ok (up_status resp) = true ->
  up_text resp = Return text ->
  JSON_parse text = Some data ->
  get_prop E data (js "models") = Return (Some (JArr (first :: others))) ->
  existsb Listing.is_null (first :: others) = false ->
  let v' := Mount.vars (snd (Mount.onMount E fault_text relay w)) in
  Mount.availableModels v' = List.map Listing.name_of (first :: others)
  /\ Mount.selectedModel v' = Listing.name_of first
  /\ Mount.errorMessage v' = Mount.errorMessage (Mount.vars w)
  /\ Mount.send_disabled v' = Mount.isLoading (Mount.vars w).
Proof.
  intros Hr Hok Ht Hp Hm Hnn; destruct w as [v ev]; run_mount.
  rewrite Hr; simpl; rewrite Hok, Ht; simpl; rewrite Hp; simpl.
  rewrite Hm; cbn [Mount.map_names].
  rewrite (names_of_entries _ Hnn); simpl.
  unfold Mount.send_disabled; simpl.
  rewrite !orb_false_r; auto.
Qed.

(** X22: when the listing answers with a status that is not ok and a
    JSON body, the page shows, behind 'Error loading models: ', the
    body's [error] converted to a string, or the message of the
    TypeError when it cannot be converted, or 'Failed to fetch models: '
    and the status when the body has no [error] or a falsy one; no model
    is listed or selected. *)
Theorem listing_error_is_shown (w : Mount.World) (resp : FetchResponse)
    (text : jsstring) (errorResult : JSValue) (error : option JSValue) :
  relay Mount.tags_request = Return resp ->
  ok (up_status resp) = false ->
  up_text resp = Return text ->
  JSON_parse text = Some errorResult ->
  get_prop E errorResult (js "error") = Return error ->
  let v' := Mount.vars (snd (Mount.onMount E fault_text relay w)) in
  Mount.errorMessage v' =
    js "Error loading models: "
    ++ (if truthy_opt error then
          match ToString_opt E error with
          | Return shown => shown
          | Throw e => err_message e
          end
        else js "Failed to fetch models: "
             ++ N_toString (Z.to_N (up_status resp)))
  /\ (forall e, ToString_opt E error = Throw e -> e = not_primitive E)
  /\ Mount.availableModels v' = Mount.availableModels (Mount.vars w)
  /\ Mount.selectedModel v' = Mount.selectedModel (Mount.vars w).
Proof.
  intros Hr Hok Ht Hp Hg; destruct w as [v ev]; run_mount.
  rewrite Hr; simpl; rewrite Hok, Ht; simpl; rewrite Hp; simpl.
  rewrite Hg; simpl.
  assert (Hthrows : forall e, ToString_opt E error = Throw e ->
                              e = not_primitive E).
  { intros e He; destruct error as [x|]; [|discriminate].
    apply (ToString_throws E x e He). }
  destruct (truthy_opt error); simpl;
    [destruct (ToString_opt E error); simpl|]; auto.
Qed.

(** X23: when the listing answers ok with JSON whose [models] is not an
    array, or is an array with a null entry, mapping it throws a
    TypeError, and the message of that very error is what the page
    shows behind 'Error loading models: ': that [map] cannot be read
    (models missing or null), that it is no function (models not an
    array), or that [name] cannot be read of null.  No model is listed
    or selected, not even the entries that are fine. *)
Theorem malformed_listing_lists_nothing (w : Mount.World)
    (resp : FetchResponse) (text : jsstring) (data : JSValue)
    (models : option JSValue) :
  relay Mount.tags_request = Return resp ->
  ok (up_status resp) = true ->
  up_text resp = Return text ->
  JSON_parse text = Some data ->
  get_prop E data (js "models") = Return models ->
  (Listing.is_array models = false
   \/ exists l, models = Some (JArr l)
                /\ existsb Listing.is_null l = true) ->
  let v' := Mount.vars (snd (Mount.onMount E fault_text relay w)) in
  (exists e, Mount.map_names E fault_text models = Throw e
             /\ err_class e = TypeError
             /\ Mount.errorMessage v'
                = js "Error loading models: " ++ err_message e)
  /\ Mount.errorMessage v'
     = js "Error loading models: "
       ++ match models with
          | None => fault_text (Mount.ReadOfUndefined (js "map"))
          | Some JNull => fault_message E (PropertyOfNull (js "map"))
          | Some (JArr _) => fault_message E (PropertyOfNull (js "name"))
          | Some _ => fault_text (Mount.NotAFunction (js "map"))
          end
  /\ Mount.availableModels v' = Mount.availableModels (Mount.vars w)
  /\ Mount.selectedModel v' = Mount.selectedModel (Mount.vars w).
Proof.
  intros Hr Hok Ht Hp Hm Hbad; destruct w as [v ev]; run_mount.
  rewrite Hr; simpl; rewrite Hok, Ht; simpl; rewrite Hp; simpl.
  rewrite Hm; simpl.
  destruct Hbad as [Hna | (l & -> & Hnull)].
  - destruct models as [[]|]; try discriminate; simpl;
      (split; [eexists; repeat split|]); repeat split.
  - simpl; rewrite (names_of_null_entry l Hnull); simpl.
    (split; [eexists; repeat split|]); repeat split.
Qed.

End MountFacts.

(** ** [JSON.stringify] and [JSON.parse] *)

Lemma hex_val_digit (n : N) : n < 16 -> hex_val (hex_digit n) = Some n.
Proof.
  intros H; unfold hex_digit, hex_val.
  destruct (n <? 10) eqn:Hten.
  - apply N.ltb_lt in Hten.
    replace ((48 <=? 48 + n) && (48 + n <=? 57)) with true
      by (symmetry; apply andb_true_iff; split; apply N.leb_le; lia).
    f_equal; lia.
  - apply N.ltb_ge in Hten.
    replace ((48 <=? 87 + n) && (87 + n <=? 57)) with false
      by (symmetry; apply andb_false_iff; right; apply N.leb_gt; lia).
    replace ((97 <=? 87 + n) && (87 + n <=? 102)) with true
      by (symmetry; apply andb_true_iff; split; apply N.leb_le; lia).
    f_equal; lia.
Qed.

Lemma hex4_digits (c : N) :
  c < 65536 ->
  hex4 (hex_digit (c / 4096 mod 16)) (hex_digit (c / 256 mod 16))
       (hex_digit (c / 16 mod 16)) (hex_digit (c mod 16)) = Some c.
Proof.
  intros H; unfold hex4.
  rewrite !hex_val_digit by (apply N.mod_lt; discriminate).
  f_equal.
  replace (c / 256) with (c / 16 / 16)
    by (rewrite N.Div0.div_div; reflexivity).
  replace (c / 4096) with (c / 16 / 16 / 16)
    by (rewrite !N.Div0.div_div; reflexivity).
  assert (H3 : c / 16 / 16 / 16 < 16).
  { rewrite !N.Div0.div_div; apply N.Div0.div_lt_upper_bound; exact H. }
  rewrite (N.mod_small _ _ H3).
  pose proof (N.div_mod' c 16) as H0.
  pose proof (N.div_mod' (c / 16) 16) as H1.
  pose proof (N.div_mod' (c / 16 / 16) 16) as H2.
  lia.
Qed.

Lemma parse_unicode_escape (c : N) (x : jsstring) :
  c < 65536 ->
  parse_chars (unicode_escape c ++ x) = cons_char c (parse_chars x).
Proof.
  intros H; unfold unicode_escape; cbn [app parse_chars N.eqb Pos.eqb].
  rewrite (hex4_digits c H); reflexivity.
Qed.

Lemma parse_raw_unit (c : N) (x : jsstring) :
  (c =? 34) = false -> (c =? 92) = false -> (c <? 32) = false ->
  parse_chars (c :: x) = cons_char c (parse_chars x).
Proof. intros H1 H2 H3; cbn [parse_chars]; rewrite H1, H2, H3; reflexivity. Qed.

Lemma parse_quote_unit (c : N) (x : jsstring) :
  c < 65536 ->
  parse_chars (quote_unit c ++ x) = cons_char c (parse_chars x).
Proof.
  intros H; unfold quote_unit.
  repeat match goal with
         | |- context [if ?a =? ?b then _ else _] =>
             destruct (N.eqb_spec a b) as [->|]; [reflexivity|]
         end.
  destruct (c <? 32) eqn:Hc; [apply parse_unicode_escape, H|].
  apply parse_raw_unit; [apply N.eqb_neq; assumption .. | exact Hc].
Qed.

Lemma surrogate_is_raw (c : N) :
  55296 <= c ->
  (c =? 34) = false /\ (c =? 92) = false /\ (c <? 32) = false.
Proof.
  intros H; repeat split;
    [apply N.eqb_neq; lia | apply N.eqb_neq; lia | apply N.ltb_ge; lia].
Qed.

Lemma parse_quote_chars_upto (n : nat) :
  forall s rest,
    (List.length s <= n)%nat -> units s = true ->
    parse_chars (quote_chars s ++ 34 :: rest) = Some (s, rest).
Proof.
  induction n as [|n IH]; intros [|c r] rest Hlen Hu;
    try reflexivity; cbn [List.length] in Hlen; [lia|].
  unfold units in Hu; cbn [forallb] in Hu.
  apply andb_true_iff in Hu as [Hc Hr]; apply N.ltb_lt in Hc.
  fold (units r) in Hr.
  assert (IHr : parse_chars (quote_chars r ++ 34 :: rest) = Some (r, rest))
    by (apply IH; [lia | exact Hr]).
  cbn [quote_chars].
  destruct (is_high_surrogate c) eqn:Hh.
  - unfold is_high_surrogate in Hh; apply andb_true_iff in Hh as [Hh _].
    apply N.leb_le in Hh.
    destruct r as [|d r'].
    + rewrite parse_unicode_escape by exact Hc; reflexivity.
    + destruct (is_low_surrogate d) eqn:Hl.
      * unfold is_low_surrogate in Hl; apply andb_true_iff in Hl as [Hl _].
        apply N.leb_le in Hl.
        unfold units in Hr; cbn [forallb] in Hr.
        apply andb_true_iff in Hr as [_ Hr'].
        cbn [app].
        destruct (surrogate_is_raw c) as (H1 & H2 & H3); [lia|].
        destruct (surrogate_is_raw d) as (H4 & H5 & H6); [lia|].
        rewrite (parse_raw_unit c), (parse_raw_unit d) by assumption.
        rewrite IH; [reflexivity | cbn [List.length] in Hlen; lia | exact Hr'].
      * rewrite <- app_assoc, parse_unicode_escape, IHr by exact Hc.
        reflexivity.
  - destruct (is_low_surrogate c).
    + rewrite <- app_assoc, parse_unicode_escape, IHr by exact Hc.
      reflexivity.
    + rewrite <- app_assoc, parse_quote_unit, IHr by exact Hc; reflexivity.
Qed.

Lemma parse_quote_chars (s rest : jsstring) :
  units s = true ->
  parse_chars (quote_chars s ++ 34 :: rest) = Some (s, rest).
Proof. apply (parse_quote_chars_upto (List.length s)); apply Nat.le_refl. Qed.

Lemma join_cons (sep : N) (x y : jsstring) (r : list jsstring) :
  join sep (x :: y :: r) = x ++ sep :: join sep (y :: r).
Proof. reflexivity. Qed.

Lemma join_head (sep : N) (x : jsstring) (r : list jsstring) :
  exists t, join sep (x :: r) = x ++ t.
Proof.
  destruct r as [|y r]; [exists []; symmetry; apply app_nil_r|].
  eexists; apply join_cons.
Qed.

Section RoundTrip.

Variable Number_text : decimal -> jsstring.

Lemma opens_app (s t : jsstring) : opens s -> opens (s ++ t).
Proof.
  intros (c & u & -> & H); exists c, (u ++ t); split; [reflexivity | exact H].
Qed.

Lemma stringify_opens (v : JSValue) :
  textual v = true -> opens (JSON_stringify Number_text v).
Proof.
  destruct v as [|[]|d|s|l|props]; intros H; try discriminate;
    eexists _, _; (split; [reflexivity|]); repeat split.
Qed.

Lemma elements_parse_back (l : list JSValue) :
  l <> [] -> Forall (parses_back Number_text) l ->
  exists f0, forall fuel acc rest,
    (f0 <= fuel)%nat ->
    parse_elements fuel
      (join 44 (List.map (JSON_stringify Number_text) l) ++ 93 :: rest) acc
    = Some (JArr (rev acc ++ l), rest).
Proof.
  induction l as [|x l IH]; [congruence|]; intros _ HF.
  inversion HF as [|? ? [fx Hx] Hl]; subst.
  destruct l as [|y l].
  - exists (S fx); intros [|fuel] acc rest Hf; [lia|].
    cbn [List.map join parse_elements].
    rewrite Hx by lia; reflexivity.
  - destruct IH as [fl Hfl]; [discriminate | exact Hl |].
    exists (S (Nat.max fx fl)); intros [|fuel] acc rest Hf; [lia|].
    cbn [List.map]; rewrite join_cons, <- app_assoc.
    cbn [app parse_elements].
    rewrite Hx by lia.
    cbn [skip_ws is_json_ws N.eqb Pos.eqb orb].
    change (JSON_stringify Number_text y
            :: List.map (JSON_stringify Number_text) l)
      with (List.map (JSON_stringify Number_text) (y :: l)).
    rewrite Hfl by lia.
    cbn [rev]; rewrite <- app_assoc; reflexivity.
Qed.

Lemma member_parses (fuel : nat) (k : jsstring) (v : JSValue)
    (x : jsstring) :
  units k = true ->
  parse_value fuel (JSON_stringify Number_text v ++ x) = Some (v, x) ->
  forall c r acc, x = c :: r ->
  parse_members (S fuel) (member_text Number_text (k, v) ++ x) acc
  = if c =? 44 then parse_members fuel r ((k, v) :: acc)
    else if c =? 125 then Some (JObj (rev ((k, v) :: acc)), r)
    else
      match skip_ws x with
      | c3 :: r4 =>
          if c3 =? 44 then parse_members fuel r4 ((k, v) :: acc)
          else if c3 =? 125 then Some (JObj (rev ((k, v) :: acc)), r4)
          else None
      | [] => None
      end.
Proof.
  intros Hk Hv c r acc ->.
  unfold member_text, quote; cbn [fst snd].
  rewrite <- !app_assoc; cbn [app].
  cbn [parse_members skip_ws is_json_ws N.eqb Pos.eqb orb].
  rewrite <- app_assoc; cbn [app].
  rewrite parse_quote_chars by exact Hk.
  cbn [skip_ws is_json_ws N.eqb Pos.eqb orb].
  rewrite Hv.
  destruct (N.eqb_spec c 44) as [->|]; [reflexivity|].
  destruct (N.eqb_spec c 125) as [->|]; reflexivity.
Qed.

Lemma members_parse_back (props : list (jsstring * JSValue)) :
  props <> [] ->
  Forall (fun kv => units (fst kv) = true
                   /\ parses_back Number_text (snd kv)) props ->
  exists f0, forall fuel acc rest,
    (f0 <= fuel)%nat ->
    parse_members fuel
      (join 44 (List.map (member_text Number_text) props) ++ 125 :: rest) acc
    = Some (JObj (rev acc ++ props), rest).
Proof.
  induction props as [|[k v] l IH]; [congruence|]; intros _ HF.
  inversion HF as [|? ? [Hk [fx Hx]] Hl]; subst; cbn [fst snd] in *.
  destruct l as [|y l].
  - exists (S fx); intros [|fuel] acc rest Hf; [lia|].
    cbn [List.map join].
    assert (Hle : (fx <= fuel)%nat) by lia.
    rewrite (member_parses fuel k v (125 :: rest) Hk (Hx _ _ Hle)
               125 rest acc eq_refl).
    reflexivity.
  - destruct IH as [fl Hfl]; [discriminate | exact Hl |].
    exists (S (Nat.max fx fl)); intros [|fuel] acc rest Hf; [lia|].
    cbn [List.map]; rewrite join_cons, <- app_assoc; cbn [app].
    change (member_text Number_text y
            :: List.map (member_text Number_text) l)
      with (List.map (member_text Number_text) (y :: l)).
    assert (Hle : (fx <= fuel)%nat) by lia.
    rewrite (member_parses fuel k v _ Hk (Hx _ _ Hle) 44 _ acc eq_refl).
    cbn [N.eqb Pos.eqb].
    rewrite Hfl by lia.
    cbn [rev]; rewrite <- app_assoc; reflexivity.
Qed.

Lemma stringify_parses_back (v : JSValue) :
  textual v = true -> parses_back Number_text v.
Proof.
  induction v as [|b|d|s|l IH|props IH] using JSValue_nested_ind;
    intros Ht; cbn [textual] in Ht; try discriminate.
  - exists 1%nat; intros [|fuel] rest Hf; [lia | reflexivity].
  - exists 1%nat; intros [|fuel] rest Hf; [lia | destruct b; reflexivity].
  - exists 1%nat; intros [|fuel] rest Hf; [lia|].
    cbn [JSON_stringify]; unfold quote; cbn [app].
    cbn [parse_value skip_ws is_json_ws N.eqb Pos.eqb orb].
    rewrite <- app_assoc; cbn [app].
    rewrite parse_quote_chars by exact Ht; reflexivity.
  - destruct l as [|x l].
    + exists 1%nat; intros [|fuel] rest Hf; [lia | reflexivity].
    + assert (HF : Forall (parses_back Number_text) (x :: l)).
      { rewrite forallb_forall in Ht; rewrite Forall_forall in IH |- *.
        intros y Hy; apply IH; [exact Hy | apply Ht, Hy]. }
      destruct (elements_parse_back (x :: l)) as [f Hfl];
        [discriminate | exact HF |].
      assert (Hx : textual x = true)
        by (cbn [forallb] in Ht; apply andb_true_iff in Ht; tauto).
      exists (S f); intros [|fuel] rest Hf; [lia|].
      cbn [JSON_stringify app]; rewrite <- app_assoc; cbn [app].
      cbn [parse_value skip_ws is_json_ws N.eqb Pos.eqb orb].
      destruct (join_head 44 (JSON_stringify Number_text x)
                  (List.map (JSON_stringify Number_text) l)) as [t Hj].
      destruct (opens_app _ (t ++ 93 :: rest) (stringify_opens x Hx))
        as (c & u & Hc & Hws & H93 & _).
      cbn [List.map].
      assert (Hopen : join 44 (JSON_stringify Number_text x
                               :: List.map (JSON_stringify Number_text) l)
                      ++ 93 :: rest = c :: u)
        by (rewrite Hj, <- app_assoc; exact Hc).
      rewrite Hopen; cbn [skip_ws]; rewrite Hws, H93, <- Hopen.
      apply (Hfl fuel [] rest); lia.
  - destruct props as [|[k x] l].
    + exists 1%nat; intros [|fuel] rest Hf; [lia | reflexivity].
    + assert (HF : Forall (fun kv => units (fst kv) = true
                                     /\ parses_back Number_text (snd kv))
                     ((k, x) :: l)).
      { rewrite forallb_forall in Ht; rewrite Forall_forall in IH |- *.
        intros y Hy; specialize (Ht y Hy); apply andb_true_iff in Ht.
        split; [tauto | apply IH; tauto]. }
      destruct (members_parse_back ((k, x) :: l)) as [f Hfl];
        [discriminate | exact HF |].
      exists (S f); intros [|fuel] rest Hf; [lia|].
      cbn [JSON_stringify app]; rewrite <- app_assoc; cbn [app].
      cbn [parse_value skip_ws is_json_ws N.eqb Pos.eqb orb].
      destruct (join_head 44 (member_text Number_text (k, x))
                  (List.map (member_text Number_text) l)) as [t Hj].
      change (List.map (fun kv => quote (fst kv) ++ 58
                          :: JSON_stringify Number_text (snd kv)) ((k, x) :: l))
        with (member_text Number_text (k, x)
              :: List.map (member_text Number_text) l).
      assert (Hopen : exists u,
                 join 44 (member_text Number_text (k, x)
                          :: List.map (member_text Number_text) l)
                 ++ 125 :: rest = 34 :: u).
      { rewrite Hj; unfold member_text, quote; cbn [fst snd app].
        eexists; reflexivity. }
      destruct Hopen as [u Hopen].
      rewrite Hopen; cbn [skip_ws is_json_ws N.eqb Pos.eqb orb].
      rewrite <- Hopen.
      apply (Hfl fuel [] rest); lia.
Qed.

(** [JSON.parse(JSON.stringify(v))] gives [v] back, for a value without
    Numbers. *)
Lemma parse_stringify (v : JSValue) :
  textual v = true ->
  JSON_parse (JSON_stringify Number_text v) = Some v.
Proof.
  intros Ht; destruct (stringify_parses_back v Ht) as [f Hf].
  set (text := JSON_stringify Number_text v) in *.
  pose proof (Hf (Nat.max f (2 * List.length text + 2)) []
                (Nat.le_max_l _ _)) as H.
  rewrite app_nil_r, JSON_parse_fuel in H by apply Nat.le_max_r.
  unfold JSON_parse; rewrite H; reflexivity.
Qed.

End RoundTrip.

(** ** The page behind the relay *)

Lemma units_js (s : string) : units (js s) = true.
Proof.
  unfold units, js; apply forallb_forall; intros c Hc.
  apply in_map_iff in Hc as (a & <- & _).
  apply N.ltb_lt.
  pose proof (N_ascii_bounded a); lia.
Qed.

Lemma units_app (a b : jsstring) : units (a ++ b) = units a && units b.
Proof. apply forallb_app. Qed.

Section Composed.

Variable E : Engine.
Variable Number_text : decimal -> jsstring.
Variable OLLAMA_API_URL : option jsstring.
Variable upstream : FetchRequest -> outcome FetchResponse.
Variable relay : FetchRequest -> outcome FetchResponse.

Lemma history_textual (l : list ChatMessage) :
  forallb (fun m => units (content m)) l = true ->
  forallb textual (List.map ChatMessage_json l) = true.
Proof.
  induction l as [|[r t] l IH]; [reflexivity|]; cbn [forallb List.map].
  intros H; apply andb_true_iff in H as [Ht Hl]; cbn [content] in Ht.
  rewrite (IH Hl), andb_true_r.
  unfold ChatMessage_json; cbn [textual forallb fst snd role content].
  rewrite !units_js, Ht; destruct r; reflexivity.
Qed.

(** The relay reads the page's request as the page wrote it. *)
Lemma page_request_parses (c : Component) :
  Together.wellformed c = true ->
  JSON_parse (Together.request_text Number_text (Together.request_of c))
  = Some (JObj [(js "model", JStr (Page.selectedModel c));
                (js "messages",
                 JArr (List.map ChatMessage_json
                         (Page.messages c ++ [user_turn c])))]).
Proof.
  unfold Together.wellformed; intros H.
  apply andb_true_iff in H as [H Hh]; apply andb_true_iff in H as [Hm Hi].
  apply parse_stringify.
  cbn [textual forallb fst snd].
  rewrite !units_js, Hm, history_textual; [reflexivity|].
  rewrite forallb_app, Hh; cbn [forallb user_turn content].
  rewrite Hi; reflexivity.
Qed.

Lemma envelope_parses (text : jsstring) :
  units text = true ->
  JSON_parse (JSON_stringify Number_text (error_envelope text))
  = Some (error_envelope text).
Proof.
  intros H; apply parse_stringify.
  unfold error_envelope; cbn [textual forallb fst snd].
  rewrite units_js, H; reflexivity.
Qed.

(** The page shows the text of an envelope that comes with a status
    that is not ok. *)
Lemma envelope_is_shown (w : World) (browser : FetchResponse)
    (text : jsstring) :
  let c := component w in
  submittable c = true ->
  relay (Together.request_of c) = Return browser ->
  ok (up_status browser) = false ->
  up_text browser
  = Return (JSON_stringify Number_text (error_envelope text)) ->
  units text = true ->
  text <> [] ->
  handleSubmit E relay w =
  (Settled (Return tt),
   {| component := Failure.failed_page c (Error_new text);
      events :=
        events w ++ [Fetch (Together.request_of c);
                     ConsoleError [Err (Error_new text)]] |}).
Proof.
  intros c Hsub Hrel Hok Htext Hu Hne.
  apply (handleSubmit_failed E relay w (Error_new text) Hsub).
  unfold Exchange.failure_of.
  unfold Together.request_of in Hrel; subst c; rewrite Hrel, Hok.
  unfold Failure.relay_failure, up_json, JSON_parse_throwing.
  rewrite Htext, (envelope_parses text Hu).
  destruct text; [congruence | reflexivity].
Qed.

(** X24: the relay never turns down a request of the page for its
    shape: it passes the selected model and the whole history, ending
    with the new user turn, on to the upstream service in one request,
    with [stream] set. *)
Theorem page_request_reaches_upstream (c : Component) :
  unset OLLAMA_API_URL = false ->
  submittable c = true ->
  Together.wellformed c = true ->
  network_calls
    (snd (POST E OLLAMA_API_URL upstream
            (Together.request_text Number_text (Together.request_of c)) []))
  = [forwarded OLLAMA_API_URL (JStr (Page.selectedModel c))
       (JArr (List.map ChatMessage_json (Page.messages c ++ [user_turn c])))].
Proof.
  intros Hset Hsub Hwf.
  rewrite POST_calls, Hset, (page_request_parses c Hwf).
  unfold submittable in Hsub; apply andb_true_iff in Hsub as [_ Hm].
  cbn -[js forwarded].
  destruct (Page.selectedModel c); [discriminate | reflexivity].
Qed.

(** What the relay reads in a request of the page. *)
Lemma page_request_fields (model : jsstring) (history : list JSValue) :
  let requestBody :=
    JObj [(js "model", JStr model); (js "messages", JArr history)] in
  get_prop E requestBody (js "model") = Return (Some (JStr model))
  /\ get_prop E requestBody (js "messages") = Return (Some (JArr history)).
Proof. split; reflexivity. Qed.

(* The chat handler, run on a request of the page up to its call of the
   upstream service. *)
Ltac run_chat Hset Hparse :=
  unfold POST, try_catch, bind, lift, Relay.fetch, JSON_parse_throwing,
    Response_new;
  rewrite Hset, Hparse; cbv beta iota;
  rewrite (proj1 (page_request_fields _ _)),
    (proj2 (page_request_fields _ _));
  cbv beta iota;
  cbn [truthy_opt truthy negb orb ToString_opt ToString];
  cbv beta iota;
  unfold object_literal, console_log, Relay.console_error, modify;
  cbn [object_fields].

(** X25: when the upstream service refuses the connection, the user is
    told so: the page shows 'Error sending message: Failed to connect to
    Ollama service at <URL>. Ensure the service is running and
    accessible.', with the user's turn kept and no assistant turn. *)
Theorem refused_connection_is_reported (w : World) (e : js_error) :
  let c := component w in
  unset OLLAMA_API_URL = false ->
  units (url_text OLLAMA_API_URL) = true ->
  submittable c = true ->
  Together.wellformed c = true ->
  upstream (forwarded OLLAMA_API_URL (JStr (Page.selectedModel c))
              (JArr (List.map ChatMessage_json
                       (Page.messages c ++ [user_turn c])))) = Throw e ->
  instanceof_Error e && cause_code_is (js "ECONNREFUSED") e = true ->
  Together.chat_wired E Number_text OLLAMA_API_URL upstream relay
    (Together.request_of c) ->
  let w' := snd (handleSubmit E relay w) in
  Page.errorMessage (component w')
  = js "Error sending message: Failed to connect to Ollama service at "
    ++ url_text OLLAMA_API_URL
    ++ js ". Ensure the service is running and accessible."
  /\ Page.messages (component w') = Page.messages c ++ [user_turn c].
Proof.
  intros c Hset Hurl Hsub Hwf Hup Hrefused (r & browser & HP & Hrel & Hst & Hb).
  assert (Hr : r = {| status := 503; headers := json_headers;
                      body := JsonText (error_envelope
                                (econnrefused_message OLLAMA_API_URL)) |}).
  { revert HP.
    pose proof (page_request_parses c Hwf) as Hparse.
    unfold submittable in Hsub; apply andb_true_iff in Hsub as [_ Hm].
    unfold forwarded in Hup.
    destruct (Page.selectedModel c) as [|m0 ms]; [discriminate|].
    run_chat Hset Hparse.
    rewrite Hup; cbv beta iota.
    rewrite Hrefused; cbn -[js econnrefused_message].
    congruence. }
  subst r; cbn [status body] in Hst, Hb.
  intros w'; subst w'.
  rewrite (envelope_is_shown w browser (econnrefused_message OLLAMA_API_URL)
             Hsub Hrel).
  - split; [|reflexivity].
    cbn [snd component Failure.failed_page Page.errorMessage Error_new
         err_message].
    unfold econnrefused_message; rewrite !app_assoc; reflexivity.
  - rewrite Hst; reflexivity.
  - exact Hb.
  - unfold econnrefused_message; rewrite !units_app, !units_js, Hurl.
    reflexivity.
  - discriminate.
Qed.

(** X26: when the upstream service answers the chat with an error
    status and a text, the user sees both: the page shows 'Error sending
    message: Ollama service error: <status> - <text>', with the user's
    turn kept and no assistant turn. *)
Theorem upstream_error_is_reported (w : World) (answer : FetchResponse)
    (text : jsstring) :
  let c := component w in
  unset OLLAMA_API_URL = false ->
  submittable c = true ->
  Together.wellformed c = true ->
  upstream (forwarded OLLAMA_API_URL (JStr (Page.selectedModel c))
              (JArr (List.map ChatMessage_json
                       (Page.messages c ++ [user_turn c])))) = Return answer ->
  (300 <= up_status answer <= 599)%Z ->
  up_status answer <> 304%Z ->
  up_text answer = Return text ->
  units text = true ->
  Together.chat_wired E Number_text OLLAMA_API_URL upstream relay
    (Together.request_of c) ->
  let w' := snd (handleSubmit E relay w) in
  Page.errorMessage (component w')
  = js "Error sending message: Ollama service error: "
    ++ N_toString (Z.to_N (up_status answer)) ++ js " - " ++ text
  /\ Page.messages (component w') = Page.messages c ++ [user_turn c].
Proof.
  intros c Hset Hsub Hwf Hup Hrange H304 Htext Hunits
    (r & browser & HP & Hrel & Hst & Hb).
  assert (Hnok : ok (up_status answer) = false)
    by (unfold ok; apply andb_false_iff; right; apply Z.leb_gt; lia).
  assert (Hr : r = {| status := up_status answer; headers := json_headers;
                      body := JsonText (error_envelope
                                (service_error (up_status answer) text)) |}).
  { revert HP.
    pose proof (page_request_parses c Hwf) as Hparse.
    unfold submittable in Hsub; apply andb_true_iff in Hsub as [_ Hm].
    unfold forwarded in Hup.
    destruct (Page.selectedModel c) as [|m0 ms]; [discriminate|].
    run_chat Hset Hparse.
    rewrite Hup; cbv beta iota.
    rewrite Hnok, Htext; cbn [negb]; cbv beta iota.
    replace ((up_status answer <? 200)%Z || (599 <? up_status answer)%Z)
      with false
      by (symmetry; apply orb_false_iff; split; apply Z.ltb_ge; lia).
    replace (null_body_status (up_status answer)) with false
      by (symmetry; unfold null_body_status;
          repeat (apply orb_false_iff; split); apply Z.eqb_neq; lia).
    rewrite andb_false_r; cbn [fst]; congruence. }
  subst r; cbn [status body] in Hst, Hb.
  intros w'; subst w'.
  rewrite (envelope_is_shown w browser
             (service_error (up_status answer) text) Hsub Hrel).
  - split; reflexivity.
  - rewrite Hst; exact Hnok.
  - exact Hb.
  - unfold service_error, N_toString.
    rewrite !units_app, !units_js, Hunits; reflexivity.
  - discriminate.
Qed.


Variable fault_text : Mount.fault -> jsstring.

(** X28: when the relay is not configured, the user is told so as the
    page loads: it shows 'Error loading models: Application is not
    configured to connect to Ollama service.', lists and selects no
    model, and stops showing that models are loading. *)
Theorem unconfigured_relay_is_reported (w : Mount.World) :
  unset OLLAMA_API_URL = true ->
  Together.tags_wired E Number_text OLLAMA_API_URL upstream relay ->
  let v' := Mount.vars (snd (Mount.onMount E fault_text relay w)) in
  Mount.errorMessage v'
  = js "Error loading models: "
    ++ js "Application is not configured to connect to Ollama service."
  /\ Mount.availableModels v' = Mount.availableModels (Mount.vars w)
  /\ Mount.selectedModel v' = Mount.selectedModel (Mount.vars w)
  /\ Mount.isLoadingModels v' = false.
Proof.
  intros Hset (r & browser & HG & Hrel & Hst & Hb).
  assert (Hr : r = {| status := 500;
                      headers := [(js "content-type", js "application/json")];
                      body := JsonText (error_envelope not_configured) |}).
  { revert HG; unfold GET; rewrite Hset.
    unfold bind, lift, Relay.console_error, modify, json, Response_new.
    cbn -[js not_configured]; congruence. }
  subst r; cbn [status body] in Hst, Hb.
  destruct w as [v ev].
  unfold Mount.onMount, finally, try_catch, bind, lift, throw, ret,
    Mount.fetch, Mount.assign, Mount.console_error, modify, up_json,
    JSON_parse_throwing.
  rewrite Hrel; cbv beta iota; rewrite Hst.
  cbn [ok negb Z.leb Z.compare Pos.compare Pos.compare_cont andb].
  rewrite Hb, (envelope_parses not_configured (units_js _)).
  repeat split.
Qed.

End Composed.

(* ================================================================== *)
(** * The properties at sample inputs *)
(* ================================================================== *)

(** The platform model on small inputs. *)

Example JSON_parse_fragment :
  JSON_parse (Sample.text_of Sample.line1) =
    Some (JObj [(js "message",
                 JObj [(js "role", JStr (js "assistant"));
                       (js "content", JStr (js "Hel"))]);
                (js "done", JBool false)]).
Proof. vm_compute; reflexivity. Qed.

Example JSON_parse_escapes :
  JSON_parse (jsq "['a\n\u00e9', -1.50e2, null]") =
    Some (JArr [JStr [97; 10; 233];
                JNum {| d_neg := true; d_mant := 150; d_exp10 := 0 |};
                JNull]).
Proof. vm_compute; reflexivity. Qed.

Example JSON_parse_rejects :
  List.map JSON_parse
    [jsq "{'message':{'con"; jsq "[1,]"; jsq "01"; jsq "{'a':1,}";
     jsq "nul"; jsq "1 2"; js "'single'"; []]
  = [None; None; None; None; None; None; None; None].
Proof. vm_compute; reflexivity. Qed.

Example last_key_wins :
  match JSON_parse (jsq "{'model':'a','model':''}") with
  | Some v => get_prop Sample.engine v (js "model")
  | None => Return None
  end = Return (Some (JStr [])).
Proof. vm_compute; reflexivity. Qed.

Example tiny_number_is_falsy :
  List.map (fun t => option_map truthy (JSON_parse (js t)))
    ["0"; "-0.0"; "1e-400"; "1e-300"; "0.1"; "1e400"]%string
  = [Some false; Some false; Some false; Some true; Some true; Some true].
Proof. vm_compute; reflexivity. Qed.

(** A character cut by a chunk boundary is completed by the next read. *)
Example decode_split_character :
  let bs := [xc3; xa9; xe2; x82; xac; x0a] in
  decode_chunks TextDecoder_new [firstn 3 bs; skipn 3 bs]
    = [[233]; [8364; 10]]
  /\ fst (decode TextDecoder_new bs) = [233; 8364; 10].
Proof. split; vm_compute; reflexivity. Qed.

Example decode_drops_byte_order_mark :
  fst (decode TextDecoder_new [xef; xbb; xbf; x41; xef; xbb; xbf])
    = [65; 65279].
Proof. vm_compute; reflexivity. Qed.

Example trim_and_split :
  trim [32; 9; 65; 32; 66; 160; 10] = [65; 32; 66]
  /\ split_lf [65; 10; 10; 66; 10] = [[65]; []; [66]; []]
  /\ lines_of [65; 10; 32; 10; 66; 10] = [[65]; [66]].
Proof. repeat split; vm_compute; reflexivity. Qed.

(** A fragment with empty content leaves the placeholder on the page. *)
Example empty_content_keeps_placeholder :
  let values := [Sample.bytes "{'message':{'content':''},'done':true}"
                 ++ [x0a]] in
  messages
    (component
       (snd (handleSubmit Sample.engine (Sample.streaming values Closes)
               Sample.page)))
  = [user_turn (component Sample.page); assistant_turn placeholder].
Proof. vm_compute; reflexivity. Qed.

(** An answer that reads '...' is taken for the placeholder when the
    stream fails after it. *)
Example dots_are_taken_for_the_placeholder :
  let values := [Sample.bytes "{'message':{'content':'...'}}" ++ [x0a]] in
  let e := Sample.fetch_failed (js "ECONNRESET") in
  messages
    (component
       (snd (handleSubmit Sample.engine (Sample.streaming values (Fails e))
               Sample.page)))
  = [user_turn (component Sample.page)].
Proof. vm_compute; reflexivity. Qed.

(** A caller that asks for [stream: false] is forwarded once, with
    [stream: true]. *)
Lemma chat_relay_forces_stream_witness :
  JSON_parse Sample.chat_text <> None
  /\ network_calls
       (snd (POST Sample.engine Sample.url (Sample.streaming [] Closes)
               Sample.chat_text []))
     = [forwarded Sample.url Sample.chat_model Sample.chat_messages]
  /\ let calls :=
       network_calls
         (snd (POST Sample.engine Sample.url (Sample.streaming [] Closes)
                 Sample.chat_text [])) in
     (List.length calls <= 1)%nat
     /\ (forall r, In r calls ->
          r = forwarded Sample.url Sample.chat_model Sample.chat_messages
          /\ stream_flag r = Some (JBool true)).
Proof.
  split; [vm_compute; discriminate|].
  split; [vm_compute; reflexivity|].
  eapply (chat_relay_forces_stream Sample.engine Sample.url
            (Sample.streaming [] Closes) Sample.chat_text);
    vm_compute; reflexivity.
Defined.

(** Both handlers with the variable undefined. *)
Lemma unset_url_answers_500_witness :
  unset None = true
  /\ (exists ev,
        GET Sample.engine None (Sample.streaming [] Closes) [] =
          (Return {| status := 500;
                     headers := [(js "content-type", js "application/json")];
                     body := JsonText (error_envelope not_configured) |}, ev)
        /\ network_calls ev = [])
  /\ (exists ev,
        POST Sample.engine None (Sample.streaming [] Closes)
          Sample.chat_text [] =
          (Return {| status := 500; headers := json_headers;
                     body := JsonText (error_envelope not_configured) |}, ev)
        /\ network_calls ev = []).
Proof.
  split; [reflexivity|].
  apply (unset_url_answers_500 Sample.engine None (Sample.streaming [] Closes)
           Sample.chat_text).
  reflexivity.
Defined.



(** A request body that is not JSON. *)
Lemma invalid_json_answers_400_witness :
  JSON_parse (jsq "{'model':") = None
  /\ exists ev,
       POST Sample.engine Sample.url (Sample.streaming [] Closes)
         (jsq "{'model':") [] =
         (Return {| status := 400; headers := json_headers;
                    body := JsonText (error_envelope
                                        (js "Invalid JSON in request body.")) |},
          ev)
       /\ network_calls ev = [].
Proof.
  split; [vm_compute; reflexivity|].
  apply (invalid_json_answers_400 Sample.engine Sample.url
           (Sample.streaming [] Closes) (jsq "{'model':"));
    vm_compute; reflexivity.
Defined.

(** C4 as stated fails: a fetch rejected because the host name does not
    resolve is answered 500 by both handlers, not 503. *)
Lemma unreachable_host_answers_500 :
  let upstream := fun _ : FetchRequest =>
                    @Throw FetchResponse (Sample.fetch_failed (js "ENOTFOUND")) in
  (exists resp,
     fst (GET Sample.engine Sample.url upstream []) = Return resp
     /\ status resp = 500%Z /\ status resp <> 503%Z)
  /\ (exists resp,
        fst (POST Sample.engine Sample.url upstream Sample.chat_text [])
          = Return resp
        /\ status resp = 500%Z /\ status resp <> 503%Z).
Proof.
  split; eexists; (split; [vm_compute; reflexivity|]);
    (split; [reflexivity | discriminate]).
Qed.

(** A refused connection. *)
Lemma connection_refused_answers_503_witness :
  let upstream := fun _ : FetchRequest =>
                    @Throw FetchResponse
                      (Sample.fetch_failed (js "ECONNREFUSED")) in
  fst (GET Sample.engine Sample.url upstream []) =
    Return {| status := 503;
              headers := [(js "content-type", js "application/json")];
              body := JsonText (error_envelope
                                  (econnrefused_message Sample.url)) |}
  /\ fst (POST Sample.engine Sample.url upstream Sample.chat_text []) =
    Return {| status := 503; headers := json_headers;
              body := JsonText (error_envelope
                                  (econnrefused_message Sample.url)) |}
  /\ econnrefused_message Sample.url <> [].
Proof.
  intros upstream.
  apply (connection_refused_answers_503 Sample.engine Sample.url upstream
           Sample.chat_text
           (JObj [(js "model", Sample.chat_model);
                  (js "messages", Sample.chat_messages);
                  (js "stream", JBool false)])
           Sample.chat_model Sample.chat_messages (js "llama3")
           (Sample.fetch_failed (js "ECONNREFUSED")));
    solve [vm_compute; reflexivity | intros r; reflexivity].
Defined.

(** C9 as stated fails: a request with a non-empty model and an empty
    array of messages is answered 400 when that is what the upstream
    service answers. *)
Lemma upstream_400_is_passed_on :
  let text := jsq "{'model':'llama3','messages':[]}" in
  let upstream := fun _ : FetchRequest =>
                    Return (Sample.text_response 400 (js "bad request")) in
  JSON_parse text
    = Some (JObj [(js "model", JStr (js "llama3")); (js "messages", JArr [])])
  /\ exists resp,
       fst (POST Sample.engine Sample.url upstream text []) = Return resp
       /\ status resp = 400%Z.
Proof.
  split; [vm_compute; reflexivity|].
  eexists; split; [vm_compute; reflexivity | reflexivity].
Qed.

(** An empty array of messages, and an empty model. *)
Lemma empty_array_passes_empty_model_fails_witness :
  let upstream := Sample.streaming [] Closes in
  let passes := jsq "{'model':'llama3','messages':[]}" in
  let fails := jsq "{'model':'','messages':[]}" in
  (network_calls (snd (POST Sample.engine Sample.url upstream passes [])) =
     [forwarded Sample.url (JStr (js "llama3")) (JArr [])]
   /\ exists resp,
        fst (POST Sample.engine Sample.url upstream passes []) = Return resp
        /\ error_field resp <> Some (JStr validation_text))
  /\ POST Sample.engine Sample.url upstream fails [] =
       (Return validation_error, []).
Proof.
  intros upstream passes fails; split.
  - apply (empty_array_passes_empty_model_fails Sample.engine Sample.url
             upstream passes
             (JObj [(js "model", JStr (js "llama3")); (js "messages", JArr [])])
             (js "llama3"));
      solve [vm_compute; reflexivity | discriminate].
  - apply (empty_array_passes_empty_model_fails Sample.engine Sample.url
             upstream fails
             (JObj [(js "model", JStr []); (js "messages", JArr [])]) []);
      vm_compute; reflexivity.
Defined.

(** An input of three spaces. *)
Lemma blank_input_does_nothing_witness :
  let w := {| component := set_userInput (js "   ") (component Sample.page);
              events := [] |} in
  let w' := snd (handleSubmit Sample.engine (Sample.streaming [] Closes) w) in
  messages (component w') = messages (component w)
  /\ events w' = events w
  /\ network_calls (events w') = network_calls (events w).
Proof.
  intros w.
  apply (blank_input_does_nothing Sample.engine (Sample.streaming [] Closes) w).
  reflexivity.
Defined.

(** C1 as stated fails: one fragment with content Hello, delivered in
    two chunks that cut its line, leaves the placeholder on the page. *)
Lemma split_line_is_lost :
  let line := Sample.bytes "{'message':{'content':'Hello'}}" in
  let values := [firstn 16 line; skipn 16 line ++ [x0a]] in
  fragment_content (Sample.text_of line) = Some (js "Hello")
  /\ List.concat values = line ++ [x0a]
  /\ messages
       (component
          (snd (handleSubmit Sample.engine (Sample.streaming values Closes)
                  Sample.page)))
     = [user_turn (component Sample.page); assistant_turn placeholder]
  /\ placeholder <> js "Hello".
Proof.
  repeat split; try (vm_compute; reflexivity); discriminate.
Qed.

(** Two fragments in two chunks of whole lines. *)
Lemma whole_line_chunks_assemble_witness :
  let values := [Sample.line1 ++ [x0a]; Sample.line2 ++ [x0a]] in
  messages
    (component
       (snd (handleSubmit Sample.engine (Sample.streaming values Closes)
               Sample.page)))
  = [user_turn (component Sample.page); assistant_turn (js "Hello")].
Proof.
  intros values.
  apply (whole_line_chunks_assemble Sample.engine
           (Sample.streaming values Closes) Sample.page
           (Sample.stream_response values Closes) values
           [[Sample.text_of Sample.line1]; [Sample.text_of Sample.line2]]
           [js "Hel"; js "lo"]);
    vm_compute; reflexivity.
Defined.

(** A stream that fails after a line without content. *)
Lemma failure_before_content_drops_placeholder_witness :
  let values := [Sample.bytes "{'done':false}" ++ [x0a]] in
  let e := Sample.fetch_failed (js "ECONNRESET") in
  let w' := snd (handleSubmit Sample.engine (Sample.streaming values (Fails e))
                   Sample.page) in
  messages (component w') = [user_turn (component Sample.page)]
  /\ errorMessage (component w') = js "Error sending message: fetch failed".
Proof.
  intros values e.
  apply (failure_before_content_drops_placeholder Sample.engine
           (Sample.streaming values (Fails e)) Sample.page
           (Sample.stream_response values (Fails e)) values e);
    vm_compute; reflexivity.
Defined.

(** A line that is not JSON between two fragments of one chunk. *)
Lemma malformed_line_is_skipped_witness :
  let values1 := [Sample.line1 ++ [x0a] ++ Sample.line2 ++ [x0a]] in
  let values2 := [Sample.line1 ++ [x0a] ++ Sample.garbage ++ [x0a]
                  ++ Sample.line2 ++ [x0a]] in
  let m := Sample.text_of Sample.garbage in
  let r1 := handleSubmit Sample.engine (Sample.streaming values1 Closes)
              Sample.page in
  let r2 := handleSubmit Sample.engine (Sample.streaming values2 Closes)
              Sample.page in
  JSON_parse m = None
  /\ messages (component (snd r2))
     = [user_turn (component Sample.page); assistant_turn (js "Hello")]
  /\ (Closes <> Hangs -> fst r2 = Settled (Return tt))
  /\ fst r2 = fst r1
  /\ component (snd r2) = component (snd r1)
  /\ (Closes = Closes -> errorMessage (component (snd r2)) = [])
  /\ network_calls (events (snd r2)) = network_calls (events (snd r1))
  /\ (jsstring_eqb (trim m) [] = false ->
      exists before after,
        console_errors (events (snd r1)) = before ++ after
        /\ console_errors (events (snd r2)) =
             before ++ malformed_entry Sample.engine m :: after).
Proof.
  intros values1 values2 m r1 r2.
  split; [vm_compute; reflexivity|].
  split; [vm_compute; reflexivity|].
  apply (malformed_line_is_skipped Sample.engine
           (Sample.streaming values1 Closes) (Sample.streaming values2 Closes)
           Sample.page
           (Sample.stream_response values1 Closes)
           (Sample.stream_response values2 Closes)
           values1 values2 Closes m); try (vm_compute; reflexivity).
  apply (bytes_inserted_behind [] [] Sample.line1 (Sample.line2 ++ [x0a])
           Sample.garbage m TextDecoder_new);
    [discriminate | vm_compute; reflexivity].
Defined.

(** ** The further properties at sample inputs *)

(** A submission answered with a stream that closes at once. *)
Lemma submit_sends_whole_history_once_witness :
  exists req,
    network_calls
      (events (snd (handleSubmit Sample.engine (Sample.streaming [] Closes)
                      Sample.page)))
    = [req]
    /\ url req = js "/api/ollama/chat"
    /\ method req = js "POST"
    /\ req_body req =
         Some (JObj [(js "model", JStr (js "llama3"));
                     (js "messages",
                      JArr [ChatMessage_json
                              {| role := user; content := js "Hi" |}])]).
Proof.
  apply (submit_sends_whole_history_once Sample.engine
           (Sample.streaming [] Closes) Sample.page).
  vm_compute; reflexivity.
Defined.


(** The same stream when it hangs after its fragment. *)
Lemma hung_stream_keeps_loading_witness :
  let values := [Sample.line1 ++ [x0a]] in
  let relay := Sample.streaming values Hangs in
  let w' := snd (handleSubmit Sample.engine relay Sample.page) in
  fst (handleSubmit Sample.engine relay Sample.page) = Pending
  /\ Page.isLoading (component w') = true
  /\ Page.userInput (component w') = []
  /\ Page.errorMessage (component w') = []
  /\ Page.messages (component w')
     = [user_turn (component Sample.page);
        assistant_turn (shown_text Sample.engine (stream_lines values))].
Proof.
  intros values relay.
  apply (hung_stream_keeps_loading Sample.engine relay Sample.page
           (Sample.stream_response values Hangs) values);
    vm_compute; reflexivity.
Defined.

(** A submission before a model is selected. *)
Lemma no_model_selected_does_nothing_witness :
  handleSubmit Sample.engine Cases.refusing Cases.no_model =
  (Settled (Return tt),
   {| component :=
        Page.set_errorMessage
          (js "Please enter a message and select a model.")
          (component Cases.no_model);
      events := [] |}).
Proof.
  apply (no_model_selected_does_nothing Sample.engine Cases.refusing
           Cases.no_model).
  reflexivity.
Defined.

(** The relay cannot be reached. *)
Lemma rejected_request_is_shown_witness :
  let w' := snd (handleSubmit Sample.engine Cases.refusing Sample.page) in
  Page.errorMessage (component w') = js "Error sending message: fetch failed"
  /\ Page.messages (component w') = [user_turn (component Sample.page)]
  /\ Page.userInput (component w') = []
  /\ console_errors (events w')
     = [[Err (Sample.fetch_failed (js "ECONNREFUSED"))]].
Proof.
  apply (rejected_request_is_shown Sample.engine Cases.refusing Sample.page
           (Sample.fetch_failed (js "ECONNREFUSED")));
    vm_compute; reflexivity.
Defined.

(** The relay answers 503 with an envelope whose [error] cannot be
    converted to a string. *)
Lemma relay_error_is_shown_witness :
  let relay := Cases.answering 503 Cases.odd_envelope in
  let w' := snd (handleSubmit Sample.engine relay Sample.page) in
  Page.errorMessage (component w')
  = js "Error sending message: "
    ++ (if truthy_opt (Some Cases.odd_value) then
          match ToString_opt Sample.engine (Some Cases.odd_value) with
          | Return shown => shown
          | Throw e => err_message e
          end
        else js "Chat API error: " ++ N_toString (Z.to_N 503))
  /\ (forall e, ToString_opt Sample.engine (Some Cases.odd_value) = Throw e ->
      e = not_primitive Sample.engine)
  /\ Page.messages (component w') = [user_turn (component Sample.page)].
Proof.
  intros relay.
  apply (relay_error_is_shown Sample.engine relay Sample.page
           (Sample.text_response 503 Cases.odd_envelope) Cases.odd_envelope
           (JObj [(js "error", Cases.odd_value)]) (Some Cases.odd_value));
    vm_compute; reflexivity.
Defined.

(** What that page shows, and what it shows for an [error] that is a
    string. *)
Example unconvertible_error_shows_the_TypeError :
  List.map
    (fun text =>
       Page.errorMessage
         (component
            (snd (handleSubmit Sample.engine (Cases.answering 503 text)
                    Sample.page))))
    [Cases.odd_envelope; Cases.envelope]
  = [js "Error sending message: Cannot convert object to primitive value";
     js "Error sending message: Ollama is down"].
Proof. vm_compute; reflexivity. Qed.

(** A gateway answers 502 with a page of text. *)
Lemma relay_error_not_json_hides_status_witness :
  let w' := snd (handleSubmit Sample.engine
                   (Cases.answering 502 (js "Bad Gateway")) Sample.page) in
  Page.errorMessage (component w')
  = js "Error sending message: Unexpected token in JSON"
  /\ Page.messages (component w') = [user_turn (component Sample.page)].
Proof.
  apply (relay_error_not_json_hides_status Sample.engine
           (Cases.answering 502 (js "Bad Gateway")) Sample.page
           (Sample.text_response 502 (js "Bad Gateway")) (js "Bad Gateway"));
    vm_compute; reflexivity.
Defined.

(** The last fragment of a stream and one before it. *)
Lemma only_message_is_read_witness :
  let r1 := handle_line Sample.engine Cases.fragment_done [] Sample.page in
  let r2 := handle_line Sample.engine Cases.fragment_open [] Sample.page in
  fst r1 = fst r2
  /\ component (snd r1) = component (snd r2)
  /\ (events (snd r1) = events (snd r2)
      \/ fst r1 = Return []
         /\ component (snd r1) = component Sample.page
         /\ events (snd r1)
            = events Sample.page
              ++ [ConsoleError [Text (js "Error parsing streamed JSON line:");
                                Err (not_primitive Sample.engine);
                                Text (js "Line:"); Text Cases.fragment_done]]
         /\ events (snd r2)
            = events Sample.page
              ++ [ConsoleError [Text (js "Error parsing streamed JSON line:");
                                Err (not_primitive Sample.engine);
                                Text (js "Line:"); Text Cases.fragment_open]]).
Proof.
  apply (only_message_is_read Sample.engine Cases.fragment_done
           Cases.fragment_open [] Sample.page
           [(js "message", JObj [(js "content", JStr (js "a"))]);
            (js "done", JBool true)]
           [(js "message", JObj [(js "content", JStr (js "a"))]);
            (js "done", JBool false)]);
    vm_compute; reflexivity.
Defined.

(** A fragment whose content cannot be converted to a string is logged
    and adds nothing: the placeholder stays. *)
Example unconvertible_content_is_skipped :
  let values := [Sample.bytes "{'message':{'content':{'toString':1}}}"
                 ++ [x0a]] in
  let w' := snd (handleSubmit Sample.engine (Sample.streaming values Closes)
                   Sample.page) in
  messages (component w')
  = [user_turn (component Sample.page); assistant_turn placeholder]
  /\ errorMessage (component w') = []
  /\ List.length (console_errors (events w')) = 1%nat.
Proof. repeat split; vm_compute; reflexivity. Qed.

(** A chunk of two fragments, whole and cut behind the first line feed. *)
Lemma cut_behind_line_feed_changes_nothing_witness :
  let whole := [Sample.line1 ++ x0a :: Sample.line2 ++ [x0a]] in
  let cut := [Sample.line1 ++ [x0a]; Sample.line2 ++ [x0a]] in
  handleSubmit Sample.engine (Sample.streaming cut Closes) Sample.page
  = handleSubmit Sample.engine (Sample.streaming whole Closes) Sample.page.
Proof.
  intros whole cut.
  apply (cut_behind_line_feed_changes_nothing Sample.engine
           (Sample.streaming whole Closes) (Sample.streaming cut Closes)
           Sample.page
           (Sample.stream_response whole Closes)
           (Sample.stream_response cut Closes)
           [] [] Sample.line1 (Sample.line2 ++ [x0a]) Closes);
    vm_compute; reflexivity.
Defined.

(** A listing of two models. *)
Lemma tags_are_relayed_witness :
  let upstream := Cases.answering 200 Cases.two_models in
  fst (GET Sample.engine Sample.url upstream []) =
    Return {| status := 200;
              headers := [(js "content-type", js "application/json")];
              body := JsonText
                        (JObj [(js "models",
                                JArr [Cases.llama3; Cases.mistral])]) |}
  /\ network_calls (snd (GET Sample.engine Sample.url upstream []))
     = [Answers.tags_upstream Sample.url].
Proof.
  intros upstream.
  apply (tags_are_relayed Sample.engine Sample.url upstream
           (Sample.text_response 200 Cases.two_models) Cases.two_models);
    vm_compute; reflexivity.
Defined.

(** The upstream service answers the listing with 404. *)
Lemma tags_status_is_passed_on_witness :
  fst (GET Sample.engine Sample.url (Cases.answering 404 (js "not found")) [])
  = Return {| status := 404;
              headers := [(js "content-type", js "application/json")];
              body := JsonText
                        (error_envelope
                           (js "Ollama service error: 404 - not found")) |}.
Proof.
  apply (tags_status_is_passed_on Sample.engine Sample.url
           (Cases.answering 404 (js "not found"))
           (Sample.text_response 404 (js "not found")) (js "not found"));
    solve [vm_compute; reflexivity | vm_compute; split; discriminate
          | discriminate].
Defined.

(** The upstream service answers the listing with a page of text. *)
Lemma tags_not_json_answers_500_witness :
  fst (GET Sample.engine Sample.url (Cases.answering 200 (js "<html>")) [])
  = Return {| status := 500;
              headers := [(js "content-type", js "application/json")];
              body := JsonText
                        (error_envelope
                           (js "An unexpected error occurred while trying to connect to the Ollama service.")) |}.
Proof.
  apply (tags_not_json_answers_500 Sample.engine Sample.url
           (Cases.answering 200 (js "<html>"))
           (Sample.text_response 200 (js "<html>")) (js "<html>"));
    vm_compute; reflexivity.
Defined.

(** A chat answered with a stream of one fragment. *)
Lemma chat_stream_is_handed_over_witness :
  let values := [Sample.line1 ++ [x0a]] in
  fst (POST Sample.engine Sample.url (Sample.streaming values Closes)
         Sample.chat_text [])
  = Return {| status := 200;
              headers := [(js "Content-Type", js "application/x-ndjson");
                          (js "Transfer-Encoding", js "chunked")];
              body := Stream (Some {| chunks := values; ending := Closes |}) |}.
Proof.
  intros values.
  apply (chat_stream_is_handed_over Sample.engine Sample.url
           (Sample.streaming values Closes) Sample.chat_text
           (JObj [(js "model", Sample.chat_model);
                  (js "messages", Sample.chat_messages);
                  (js "stream", JBool false)])
           Sample.chat_model Sample.chat_messages (js "llama3")
           (Sample.stream_response values Closes));
    vm_compute; reflexivity.
Defined.

(** The upstream service does not know the model. *)
Lemma chat_status_is_passed_on_witness :
  fst (POST Sample.engine Sample.url
         (Cases.answering 404 (js "model not found")) Sample.chat_text [])
  = Return {| status := 404; headers := json_headers;
              body := JsonText
                        (error_envelope
                           (js "Ollama service error: 404 - model not found")) |}.
Proof.
  apply (chat_status_is_passed_on Sample.engine Sample.url
           (Cases.answering 404 (js "model not found")) Sample.chat_text
           (JObj [(js "model", Sample.chat_model);
                  (js "messages", Sample.chat_messages);
                  (js "stream", JBool false)])
           Sample.chat_model Sample.chat_messages (js "llama3")
           (Sample.text_response 404 (js "model not found"))
           (js "model not found"));
    solve [vm_compute; reflexivity | vm_compute; split; discriminate
          | discriminate].
Defined.

(** A request whose [model] is [true] and whose [messages] is a string. *)
Lemma chat_forwards_whatever_is_truthy_witness :
  network_calls
    (snd (POST Sample.engine Sample.url Cases.refusing Cases.odd_request []))
  = [forwarded Sample.url (JBool true) (JStr (js "x"))].
Proof.
  apply (proj1
           (proj1 (chat_forwards_whatever_is_truthy Sample.engine Sample.url
                     Cases.refusing Cases.odd_request
                     [(js "model", JBool true);
                      (js "messages", JStr (js "x"))]
                     (JBool true) (JStr (js "x"))
                     eq_refl eq_refl eq_refl eq_refl)
              eq_refl)
           (js "true")).
  reflexivity.
Defined.

(** A request whose [model] cannot be written into the log line is
    answered 500 and nothing is sent, though both fields are there. *)
Example unconvertible_model_answers_500 :
  let text := jsq "{'model':{'toString':1},'messages':[1]}" in
  let r := POST Sample.engine Sample.url (Sample.streaming [] Closes)
             text [] in
  fst r = Return {| status := 500; headers := json_headers;
                    body := JsonText
                              (error_envelope
                                 (js "An unexpected error occurred in the chat API.")) |}
  /\ network_calls (snd r) = [].
Proof. split; vm_compute; reflexivity. Qed.

(** The listing holds no model. *)
Lemma no_models_leave_send_disabled_witness :
  let v' := Mount.vars
              (snd (Mount.onMount Sample.engine Cases.fault_text
                      (Cases.answering 200 Cases.no_models) Cases.loading)) in
  Mount.availableModels v' = []
  /\ Mount.selectedModel v' = Some (JStr [])
  /\ Mount.errorMessage v' = []
  /\ Mount.send_disabled v' = true
  /\ Mount.model_area v' = Mount.NoModelsNote.
Proof.
  apply (no_models_leave_send_disabled Sample.engine Cases.fault_text
           (Cases.answering 200 Cases.no_models) Cases.loading
           (Sample.text_response 200 Cases.no_models) Cases.no_models
           (JObj [(js "models", JArr [])]));
    vm_compute; reflexivity.
Defined.

(** The listing holds two models. *)
Lemma first_model_is_selected_witness :
  let v' := Mount.vars
              (snd (Mount.onMount Sample.engine Cases.fault_text
                      (Cases.answering 200 Cases.two_models)
                      Cases.loading)) in
  Mount.availableModels v'
  = [Some (JStr (js "llama3")); Some (JStr (js "mistral"))]
  /\ Mount.selectedModel v' = Some (JStr (js "llama3"))
  /\ Mount.errorMessage v' = []
  /\ Mount.send_disabled v' = false.
Proof.
  apply (first_model_is_selected Sample.engine Cases.fault_text
           (Cases.answering 200 Cases.two_models) Cases.loading
           (Sample.text_response 200 Cases.two_models) Cases.two_models
           (JObj [(js "models", JArr [Cases.llama3; Cases.mistral])])
           Cases.llama3 [Cases.mistral]);
    vm_compute; reflexivity.
Defined.

(** The listing answers 503 with an envelope. *)
Lemma listing_error_is_shown_witness :
  let v' := Mount.vars
              (snd (Mount.onMount Sample.engine Cases.fault_text
                      (Cases.answering 503 Cases.envelope) Cases.loading)) in
  Mount.errorMessage v' = js "Error loading models: Ollama is down"
  /\ (forall e,
        ToString_opt Sample.engine (Some (JStr (js "Ollama is down")))
        = Throw e -> e = not_primitive Sample.engine)
  /\ Mount.availableModels v' = []
  /\ Mount.selectedModel v' = Some (JStr []).
Proof.
  apply (listing_error_is_shown Sample.engine Cases.fault_text
           (Cases.answering 503 Cases.envelope) Cases.loading
           (Sample.text_response 503 Cases.envelope) Cases.envelope
           (error_envelope (js "Ollama is down"))
           (Some (JStr (js "Ollama is down"))));
    vm_compute; reflexivity.
Defined.

(** The listing holds [null] where the models should be. *)
Lemma malformed_listing_lists_nothing_witness :
  let v' := Mount.vars
              (snd (Mount.onMount Sample.engine Cases.fault_text
                      (Cases.answering 200 Cases.null_models)
                      Cases.loading)) in
  (exists e, Mount.map_names Sample.engine Cases.fault_text (Some JNull)
             = Throw e
             /\ err_class e = TypeError
             /\ Mount.errorMessage v'
                = js "Error loading models: " ++ err_message e)
  /\ Mount.errorMessage v'
     = js "Error loading models: Cannot read properties of null"
  /\ Mount.availableModels v' = []
  /\ Mount.selectedModel v' = Some (JStr []).
Proof.
  apply (malformed_listing_lists_nothing Sample.engine Cases.fault_text
           (Cases.answering 200 Cases.null_models) Cases.loading
           (Sample.text_response 200 Cases.null_models) Cases.null_models
           (JObj [(js "models", JNull)]) (Some JNull));
    solve [vm_compute; reflexivity | left; reflexivity].
Defined.

(** The request of the sample page. *)
Lemma page_request_reaches_upstream_witness :
  network_calls
    (snd (POST Sample.engine Sample.url Cases.refusing
            (jsq "{'model':'llama3','messages':[{'role':'user','content':'Hi'}]}")
            []))
  = [forwarded Sample.url Sample.chat_model Sample.chat_messages].
Proof.
  apply (page_request_reaches_upstream Sample.engine Cases.Number_text
           Sample.url Cases.refusing (component Sample.page));
    vm_compute; reflexivity.
Defined.

(** The upstream service refuses the connection. *)
Lemma refused_connection_is_reported_witness :
  let relay := Cases.chat_behind Sample.url Cases.refusing in
  let w' := snd (handleSubmit Sample.engine relay Sample.page) in
  Page.errorMessage (component w')
  = js "Error sending message: Failed to connect to Ollama service at http://localhost:11434. Ensure the service is running and accessible."
  /\ Page.messages (component w') = [user_turn (component Sample.page)].
Proof.
  intros relay.
  apply (refused_connection_is_reported Sample.engine Cases.Number_text
           Sample.url Cases.refusing relay Sample.page
           (Sample.fetch_failed (js "ECONNREFUSED")));
    [vm_compute; reflexivity .. |].
  pose (r := {| status := 503; headers := json_headers;
                body := JsonText (error_envelope
                                    (econnrefused_message Sample.url)) |}).
  exists r, (Cases.browser_view r).
  repeat apply conj; vm_compute; reflexivity.
Defined.

(** The upstream service does not know the model. *)
Lemma upstream_error_is_reported_witness :
  let upstream := Cases.answering 404 (js "model not found") in
  let relay := Cases.chat_behind Sample.url upstream in
  let w' := snd (handleSubmit Sample.engine relay Sample.page) in
  Page.errorMessage (component w')
  = js "Error sending message: Ollama service error: 404 - model not found"
  /\ Page.messages (component w') = [user_turn (component Sample.page)].
Proof.
  intros upstream relay.
  apply (upstream_error_is_reported Sample.engine Cases.Number_text
           Sample.url upstream relay Sample.page
           (Sample.text_response 404 (js "model not found"))
           (js "model not found"));
    [solve [vm_compute; reflexivity | vm_compute; split; discriminate
           | discriminate] .. |].
  pose (r := {| status := 404; headers := json_headers;
                body := JsonText
                          (error_envelope
                             (service_error 404 (js "model not found"))) |}).
  exists r, (Cases.browser_view r).
  repeat apply conj; vm_compute; reflexivity.
Defined.


(** The relay has no URL. *)
Lemma unconfigured_relay_is_reported_witness :
  let relay := Cases.tags_behind None Cases.refusing in
  let v' := Mount.vars
              (snd (Mount.onMount Sample.engine Cases.fault_text relay
                      Cases.loading)) in
  Mount.errorMessage v'
  = js "Error loading models: Application is not configured to connect to Ollama service."
  /\ Mount.availableModels v' = []
  /\ Mount.selectedModel v' = Some (JStr [])
  /\ Mount.isLoadingModels v' = false.
Proof.
  intros relay.
  apply (unconfigured_relay_is_reported Sample.engine Cases.Number_text
           None Cases.refusing relay Cases.fault_text Cases.loading);
    [vm_compute; reflexivity |].
  pose (r := {| status := 500;
                headers := [(js "content-type", js "application/json")];
                body := JsonText (error_envelope not_configured) |}).
  exists r, (Cases.browser_view r).
  repeat apply conj; vm_compute; reflexivity.
Defined.
